(** * The options page of the redirect extension (src/options.js)

    A shallow embedding of the rule validator, the settings and metrics
    normalizers, the configuration store and the derived-metrics calculator,
    together with the properties the specification states about them.

    Conventions.
    - A JavaScript string is a [string] whose characters are code units
      below 256 (the Latin-1 range).
    - A JavaScript number is a binary64 [float].
    - Values read from storage are [JsVal]s; [JUndefined] is a missing
      property.
    - What the browser provides and the page only calls ([new URL],
      [Intl.NumberFormat], [crypto], the clock, the general case of
      number printing) is the [Browser] interface. *)

From Stdlib Require Import ZArith QArith Qabs Qround String Ascii List Floats Lia.
From stdpp Require Import gmap strings list pretty.

Set Warnings "-register-all".
#[local] Open Scope string_scope.
#[local] Open Scope list_scope.

(** ** Strings: the methods of [String.prototype] the page calls *)

Module JS.

(** WhiteSpace and LineTerminator code units below 256: TAB, LF, VT, FF, CR,
    SP and NBSP. *)
Definition is_whitespace (c : ascii) : bool :=
  let n := N_of_ascii c in
  ((9 <=? n) && (n <=? 13) || (n =? 32) || (n =? 160))%N.

Fixpoint trimStart (s : string) : string :=
  match s with
  | String c s' => if is_whitespace c then trimStart s' else s
  | EmptyString => EmptyString
  end.

Fixpoint trimEnd (s : string) : string :=
  match s with
  | String c s' =>
      match trimEnd s' with
      | EmptyString => if is_whitespace c then EmptyString else String c EmptyString
      | t => String c t
      end
  | EmptyString => EmptyString
  end.

Definition trim (s : string) : string := trimEnd (trimStart s).

(** Lower-casing of a code unit below 256: A-Z, and the Latin-1 capitals
    U+00C0..U+00DE except the multiplication sign U+00D7. *)
Definition lower_char (c : ascii) : ascii :=
  let n := N_of_ascii c in
  if ((65 <=? n) && (n <=? 90) || (192 <=? n) && (n <=? 222) && negb (n =? 215))%N
  then ascii_of_N (n + 32) else c.

Fixpoint toLowerCase (s : string) : string :=
  match s with
  | String c s' => String (lower_char c) (toLowerCase s')
  | EmptyString => EmptyString
  end.

(** [s.includes(c)] for a one-character pattern. *)
Fixpoint includes (c : ascii) (s : string) : bool :=
  match s with
  | String d s' => Ascii.eqb d c || includes c s'
  | EmptyString => false
  end.

(** [s.split(sep)] for a one-character separator: never the empty list. *)
Fixpoint split (sep : ascii) (s : string) : list string :=
  match s with
  | String c s' =>
      if Ascii.eqb c sep then EmptyString :: split sep s'
      else match split sep s' with
           | hd :: tl => String c hd :: tl
           | [] => [String c EmptyString]
           end
  | EmptyString => [EmptyString]
  end.

Definition startsWith (c : ascii) (s : string) : bool :=
  match s with
  | String d _ => Ascii.eqb d c
  | EmptyString => false
  end.

Fixpoint endsWith (c : ascii) (s : string) : bool :=
  match s with
  | String d EmptyString => Ascii.eqb d c
  | String _ s' => endsWith c s'
  | EmptyString => false
  end.

Fixpoint all_chars (p : ascii -> bool) (s : string) : bool :=
  match s with
  | String c s' => p c && all_chars p s'
  | EmptyString => true
  end.

Definition is_empty (s : string) : bool :=
  match s with EmptyString => true | _ => false end.

(** The first [n] characters of [s], and the rest. *)
Fixpoint take_chars (n : nat) (s : string) : string :=
  match n, s with
  | S n', String c s' => String c (take_chars n' s')
  | _, _ => EmptyString
  end.

Fixpoint drop_chars (n : nat) (s : string) : string :=
  match n, s with
  | S n', String _ s' => drop_chars n' s'
  | _, _ => s
  end.

Fixpoint join (sep : string) (l : list string) : string :=
  match l with
  | [] => ""
  | [x] => x
  | x :: l' => x +:+ sep +:+ join sep l'
  end.

End JS.

(** The character class [[a-z0-9-]] of the label pattern. *)
Definition label_char (c : ascii) : bool :=
  let n := N_of_ascii c in
  ((97 <=? n) && (n <=? 122) || (48 <=? n) && (n <=? 57) || (n =? 45))%N.

(** [/^[a-z0-9-]+$/.test(label)] *)
Definition label_pattern (label : string) : bool :=
  negb (JS.is_empty label) && JS.all_chars label_char label.

(** ** Values and the browser interface *)

(** A JSON-like JavaScript value: what [chrome.storage] hands back. *)
Inductive JsVal :=
| JUndefined
| JNull
| JBool (b : bool)
| JNum (f : float)
| JStr (s : string)
| JArr (l : list JsVal)
| JObj (m : gmap string JsVal).

(** The URL record behind a [URL] object, with the path already serialized. *)
Record URL := {
  url_scheme : string;
  url_username : string;
  url_password : string;
  url_host : option string;
  url_port : option N;
  url_path : string;
  url_query : option string;
  url_fragment : option string
}.

(** What the page calls and the browser implements. The [nat] argument of the
    three sources of randomness and time is the number of ids minted so far. *)
Class Browser := {
  (** [new URL(s)]; [None] when the constructor throws *)
  URL_parse : string -> option URL;
  (** [Number::toString] of a finite number that is not an integer of
      magnitude at most 2^53 *)
  Number_decimal : float -> string;
  (** [new Intl.NumberFormat(undefined, {style: "currency", currency: "USD",
      minimumFractionDigits: 2, maximumFractionDigits: 2}).format] *)
  Intl_currency : float -> string;
  (** the 128 bits behind [crypto.randomUUID()], when the method exists *)
  crypto_randomUUID : option (nat -> N);
  Date_now : nat -> float;
  Math_random : nat -> float;
  (** the message of the TypeError raised by reading a property of [null]
      or [undefined] *)
  TypeError_message : string -> string
}.

(** ** Numbers *)

Module Num.

Definition pow2 (n : N) : positive := Pos.shiftl 1 n.

(** The exact value of a finite number. *)
Definition exact (x : float) : option Q :=
  match Prim2SF x with
  | S754_zero _ => Some (0 # 1)
  | S754_finite s m e =>
      let num := if s then Zneg m else Zpos m in
      Some match e with
           | Zneg k => num # pow2 (Npos k)
           | _ => (num * 2 ^ e)%Z # 1
           end
  | _ => None
  end.

(** The number value for a ratio of positive integers: round to nearest,
    ties to even, overflow to infinity. *)
Definition round_ratio (s : bool) (n d : positive) : spec_float :=
  let '(m, e, l) := SFdiv_core_binary prec emax (Zpos n) 0 (Zpos d) 0 in
  binary_round_aux prec emax s m e l.

Definition of_Q (q : Q) : float :=
  match Qnum q with
  | Z0 => zero
  | Zpos n => SF2Prim (round_ratio false n (Qden q))
  | Zneg n => SF2Prim (round_ratio true n (Qden q))
  end.

Definition of_Z (z : Z) : float := of_Q (z # 1).

Definition is_integer (q : Q) : bool := Qeq_bool q (Qfloor q # 1).

(** [Math.floor] *)
Definition floor (x : float) : float :=
  match exact x with
  | Some q => if is_integer q then x else of_Z (Qfloor q)
  | None => x
  end.

(** [Math.round]: ties go up; the results in (-1, 0] keep the sign. *)
Definition round (x : float) : float :=
  match exact x with
  | Some q =>
      if is_integer q then x
      else if Qle_bool 0 q && negb (Qle_bool (1 # 2) q) then zero
      else if Qle_bool (- (1 # 2)) q && negb (Qle_bool 0 q) then neg_zero
      else of_Z (Qfloor (q + (1 # 2)))
  | None => x
  end.

(** truncation toward zero *)
Definition Qtrunc (q : Q) : Z := if Qle_bool 0 q then Qfloor q else Qceiling q.

(** The [%] operator: the result has the sign of the dividend and is exact. *)
Definition rem (n d : float) : float :=
  match exact n, exact d with
  | Some qn, Some qd =>
      if is_zero d then nan
      else if is_zero n then n
      else
        let r := (qn - qd * (Qtrunc (qn / qd) # 1))%Q in
        if Qeq_bool r 0 then (if get_sign n then neg_zero else zero) else of_Q r
  | Some _, None => if is_nan d then nan else n
  | None, _ => nan
  end.

(** [Number.isFinite] on a number *)
Definition isFinite (x : float) : bool := is_finite x.

(** *** Printing *)

(** An integer of magnitude at most 2^53 prints as its decimal digits. *)
Definition safe_integer (x : float) : option Z :=
  match exact x with
  | Some q =>
      if is_integer q && (Z.abs (Qfloor q) <=? 2 ^ 53)%Z then Some (Qfloor q) else None
  | None => None
  end.

(** [Number::toString] *)
Definition toString `{Browser} (x : float) : string :=
  if is_nan x then "NaN"
  else if is_zero x then "0"
  else if is_infinity x then (if get_sign x then "-Infinity" else "Infinity")
  else match safe_integer x with
       | Some z => (if (z <? 0)%Z then "-" else "") +:+ pretty (Z.abs_N z)
       | None => Number_decimal x
       end.

Fixpoint zeros (n : nat) : string :=
  match n with
  | O => ""
  | S n' => String "0" (zeros n')
  end.

(** Steps 8-11 of [Number.prototype.toFixed]: the digits of [n] with a
    point before the last [f] of them. *)
Definition fixed_digits (f : nat) (n : N) : string :=
  let m := pretty n in
  let m := if (String.length m <=? f)%nat then zeros (f + 1 - String.length m) +:+ m else m in
  let k := String.length m in
  match f with
  | O => m
  | _ => JS.take_chars (k - f) m +:+ "." +:+ JS.drop_chars (k - f) m
  end.

(** [x.toFixed(f)]: the integer [n] with [n / 10^f] nearest to [x], the
    larger one on a tie. *)
Definition toFixed `{Browser} (f : nat) (x : float) : string :=
  match exact x with
  | Some q =>
      let neg := negb (Qle_bool 0 q) in
      let a := Qabs q in
      if Qle_bool (10 ^ 21 # 1) a then toString x
      else
        let n := Qfloor (a * (10 ^ Z.of_nat f # 1) + (1 # 2)) in
        (if neg then "-" else "") +:+ fixed_digits f (Z.to_N n)
  | None => toString x
  end.

(** *** Reading: [StringToNumber] *)

Definition digit_value (radix : N) (c : ascii) : option N :=
  let n := N_of_ascii c in
  let v :=
    if ((48 <=? n) && (n <=? 57))%N then Some (n - 48)%N
    else if ((97 <=? n) && (n <=? 102))%N then Some (n - 87)%N
    else if ((65 <=? n) && (n <=? 70))%N then Some (n - 55)%N
    else None in
  match v with
  | Some d => if (d <? radix)%N then Some d else None
  | None => None
  end.

(** The longest prefix of decimal digits, read on top of [acc]: the value,
    the number of digits and the rest of the string. *)
Fixpoint scan_digits (acc : N) (len : nat) (s : string) : N * nat * string :=
  match s with
  | String c s' =>
      match digit_value 10 c with
      | Some d => scan_digits (10 * acc + d) (S len) s'
      | None => (acc, len, s)
      end
  | EmptyString => (acc, len, s)
  end.

(** A string made of digits of the radix only. *)
Fixpoint scan_radix (radix acc : N) (s : string) : option N :=
  match s with
  | String c s' =>
      match digit_value radix c with
      | Some d => scan_radix radix (radix * acc + d) s'
      | None => None
      end
  | EmptyString => Some acc
  end.

Definition split_sign (s : string) : bool * string :=
  match s with
  | String c t =>
      if Ascii.eqb c "-" then (true, t)
      else if Ascii.eqb c "+" then (false, t)
      else (false, s)
  | EmptyString => (false, s)
  end.

(** ExponentPart, or nothing. *)
Definition exponent_part (s : string) : option Z :=
  match s with
  | EmptyString => Some 0%Z
  | String c s' =>
      if Ascii.eqb c "e" || Ascii.eqb c "E" then
        let '(neg, t) := split_sign s' in
        match scan_digits 0 0 t with
        | (v, S _, EmptyString) => Some (if neg then - Z.of_N v else Z.of_N v)%Z
        | _ => None
        end
      else None
  end.

(** StrUnsignedDecimalLiteral other than [Infinity]: the digits as an
    integer and the power of ten that scales it. *)
Definition unsigned_decimal (s : string) : option (N * Z) :=
  let '(ip, n1, r1) := scan_digits 0 0 s in
  if JS.startsWith "." r1 then
    let '(m, n2, r2) := scan_digits ip 0 (JS.drop_chars 1 r1) in
    if (n1 + n2 =? 0)%nat then None
    else match exponent_part r2 with
         | Some e => Some (m, (e - Z.of_nat n2)%Z)
         | None => None
         end
  else
    if (n1 =? 0)%nat then None
    else match exponent_part r1 with
         | Some e => Some (ip, e)
         | None => None
         end.

(** The number value for [m * 10^e], correctly rounded. *)
Definition decimal_value (neg : bool) (m : N) (e : Z) : float :=
  match m with
  | N0 => if neg then neg_zero else zero
  | Npos p =>
      SF2Prim match e with
              | Zneg k => round_ratio neg p (10 ^ k)
              | _ => round_ratio neg (p * Z.to_pos (10 ^ e)) 1
              end
  end.

(** NonDecimalIntegerLiteral: [None] when the string does not start with
    one of the three prefixes, [Some None] when no digits of the radix follow
    the prefix. *)
Definition non_decimal (s : string) : option (option N) :=
  match s with
  | String c0 (String c t) =>
      let radix :=
        if negb (Ascii.eqb c0 "0") then None
        else if Ascii.eqb c "x" || Ascii.eqb c "X" then Some 16%N
        else if Ascii.eqb c "o" || Ascii.eqb c "O" then Some 8%N
        else if Ascii.eqb c "b" || Ascii.eqb c "B" then Some 2%N
        else None in
      match radix with
      | Some r => Some (if JS.is_empty t then None else scan_radix r 0 t)
      | None => None
      end
  | _ => None
  end.

(** [Number(s)] on a string: white space is trimmed, the empty string is
    [+0], anything that is not a StrNumericLiteral is [NaN]. *)
Definition StringToNumber (str : string) : float :=
  let s := JS.trim str in
  if JS.is_empty s then zero
  else match non_decimal s with
       | Some (Some n) => decimal_value false n 0
       | Some None => nan
       | None =>
           let '(neg, u) := split_sign s in
           if String.eqb u "Infinity" then (if neg then neg_infinity else infinity)
           else match unsigned_decimal u with
                | Some (m, e) => decimal_value neg m e
                | None => nan
                end
       end.

End Num.

(** ** Coercions *)

(** ToBoolean; [Boolean(v)], [!v] and the left operand of [||] and [&&]. *)
Definition truthy (v : JsVal) : bool :=
  match v with
  | JUndefined | JNull => false
  | JBool b => b
  | JNum f => negb (is_nan f || is_zero f)
  | JStr s => negb (JS.is_empty s)
  | JArr _ | JObj _ => true
  end.

(** [a || b] *)
Definition js_or (a b : JsVal) : JsVal := if truthy a then a else b.

(** [String(v)]. A stored object is a plain one and an array prints its
    elements joined by commas, holes for [null] and [undefined]. *)
Fixpoint ToString `{Browser} (v : JsVal) : string :=
  match v with
  | JUndefined => "undefined"
  | JNull => "null"
  | JBool b => if b then "true" else "false"
  | JNum f => Num.toString f
  | JStr s => s
  | JArr l =>
      JS.join "," (List.map (fun x => match x with
                                      | JUndefined | JNull => ""
                                      | _ => ToString x
                                      end) l)
  | JObj _ => "[object Object]"
  end.

(** [Number(v)] *)
Definition ToNumber `{Browser} (v : JsVal) : float :=
  match v with
  | JUndefined => nan
  | JNull => zero
  | JBool b => if b then one else zero
  | JNum f => f
  | JStr s => Num.StringToNumber s
  | JArr _ => Num.StringToNumber (ToString v)
  | JObj _ => nan
  end.

(** [Number.isFinite(v)]: no coercion, only a finite number passes. *)
Definition Number_isFinite (v : JsVal) : bool :=
  match v with
  | JNum f => Num.isFinite f
  | _ => false
  end.

(** [typeof v === "object"] *)
Definition typeof_object (v : JsVal) : bool :=
  match v with
  | JNull | JArr _ | JObj _ => true
  | _ => false
  end.

Definition Array_isArray (v : JsVal) : bool :=
  match v with
  | JArr _ => true
  | _ => false
  end.

(** The elements of an array. *)
Definition array_items (v : JsVal) : list JsVal :=
  match v with
  | JArr l => l
  | _ => []
  end.

(** [v.key] for the keys the page reads, none of which is a built-in
    property: [None] is the TypeError on [null] and [undefined]. *)
Definition get_property (v : JsVal) (key : string) : option JsVal :=
  match v with
  | JUndefined | JNull => None
  | JObj m => Some (default JUndefined (m !! key))
  | _ => Some JUndefined
  end.

(** ** Data model *)

Record Rule := {
  rule_id : string;
  enabled : bool;
  source_hostname : string;
  target_url : string
}.

(** The object handed to [validateRule], seen through the four properties
    the function reads. *)
Record Draft := {
  draft_id : JsVal;
  draft_enabled : JsVal;
  draft_source_hostname : JsVal;
  draft_target_url : JsVal
}.

Record Metrics := {
  total_redirects : float;
  per_rule : JsVal
}.

(** [hourly_rate] is a number or [null]. *)
Record Settings := { hourly_rate : option float }.

Definition STORAGE_KEY : string := "redirect_rules".
Definition METRICS_KEY : string := "redirect_metrics".
Definition SETTINGS_KEY : string := "redirect_settings".
Definition MINUTES_SAVED_PER_REDIRECT : float := 17.5%float.

(** ** Identifiers *)

Definition hex_digit (n : N) : ascii :=
  if (n <? 10)%N then ascii_of_N (48 + n) else ascii_of_N (87 + n).

(** The [i]-th hexadecimal digit of a version-4 UUID drawn from 128 bits. *)
Definition uuid_nibble (bits i : N) : N :=
  let d := N.land (N.shiftr bits (4 * (31 - i))) 15 in
  if (i =? 12)%N then 4%N
  else if (i =? 16)%N then N.lor 8 (N.land d 3)
  else d.

(** The digits from the [i]-th on, [n] of them, with the hyphens. *)
Fixpoint uuid_digits (bits i : N) (n : nat) : string :=
  match n with
  | O => ""
  | S n' =>
      let rest := String (hex_digit (uuid_nibble bits i)) (uuid_digits bits (i + 1)%N n') in
      if ((i =? 8) || (i =? 12) || (i =? 16) || (i =? 20))%N then String "-" rest else rest
  end.

(** The canonical text of the UUID. *)
Definition uuid_string (bits : N) : string := uuid_digits bits 0%N 32%nat.

(** [makeId()], as the [n]-th id minted. *)
Definition makeId `{Browser} (n : nat) : string :=
  match crypto_randomUUID with
  | Some gen => uuid_string (gen n)
  | None =>
      Num.toString (Date_now n) +:+ "-" +:+
      Num.toString (Num.floor (Math_random n * 1000000)%float)
  end.

(** ** Validator *)

Inductive Validation (A : Type) :=
| Invalid (error : string)
| Valid (value : A).
Arguments Invalid {A} error.
Arguments Valid {A} value.

(** The body of the loop over the labels: the first complaint, if any. *)
Fixpoint check_labels (parts : list string) : option string :=
  match parts with
  | [] => None
  | label :: rest =>
      if JS.is_empty label then Some "Hostname labels cannot be empty."
      else if negb (label_pattern label) then
        Some "Hostname can only use letters, numbers, dots, and hyphens."
      else if JS.startsWith "-" label || JS.endsWith "-" label then
        Some "Hostname labels cannot start or end with hyphen."
      else check_labels rest
  end.

Definition normalize_hostname `{Browser} (hostname : JsVal) : string :=
  JS.toLowerCase (JS.trim (ToString (js_or hostname (JStr "")))).

Definition validateHostname `{Browser} (hostname : JsVal) : Validation string :=
  let normalized := normalize_hostname hostname in
  if JS.is_empty normalized then Invalid "Hostname is required."
  else if JS.includes "/" normalized || JS.includes " " normalized
          || JS.includes ":" normalized || JS.includes "?" normalized then
    Invalid "Hostname must not include scheme, path, spaces, or query."
  else
    let parts := JS.split "." normalized in
    if (length parts <? 2)%nat then Invalid "Hostname must include at least one dot."
    else match check_labels parts with
         | Some error => Invalid error
         | None => Valid normalized
         end.

(** The getters of a [URL] object the page reads. *)
Definition URL_protocol (u : URL) : string := url_scheme u +:+ ":".

Definition URL_hostname (u : URL) : string := default "" (url_host u).

(** The URL serializer. *)
Definition URL_toString (u : URL) : string :=
  url_scheme u +:+ ":" +:+
  match url_host u with
  | Some h =>
      "//" +:+
      (if JS.is_empty (url_username u) && JS.is_empty (url_password u) then ""
       else url_username u +:+
            (if JS.is_empty (url_password u) then "" else ":" +:+ url_password u) +:+ "@") +:+
      h +:+
      match url_port u with
      | Some p => ":" +:+ pretty p
      | None => ""
      end
  | None => if JS.startsWith "/" (url_path u) && JS.startsWith "/" (JS.drop_chars 1 (url_path u))
            then "/." else ""
  end +:+
  url_path u +:+
  match url_query u with Some q => "?" +:+ q | None => "" end +:+
  match url_fragment u with Some f => "#" +:+ f | None => "" end.

Record TargetOk := { target_value : string; target_hostname : string }.

Definition validateTargetUrl `{Browser} (targetUrl : JsVal) : Validation TargetOk :=
  let trimmed := JS.trim (ToString (js_or targetUrl (JStr ""))) in
  if JS.is_empty trimmed then Invalid "Target URL is required."
  else match URL_parse trimmed with
       | None => Invalid "Target URL must be a valid absolute URL."
       | Some parsed =>
           if negb (String.eqb (URL_protocol parsed) "http:")
              && negb (String.eqb (URL_protocol parsed) "https:") then
             Invalid "Target URL must start with http:// or https://."
           else Valid {| target_value := URL_toString parsed;
                         target_hostname := JS.toLowerCase (URL_hostname parsed) |}
       end.

(** The three shapes of the object [validateRule] returns. *)
Inductive RuleValidation :=
| RuleInvalid (sourceError targetError : option string)
| RuleValid (normalized : Rule).

(** [validateRule(rule)] when [minted] ids have been minted so far; the second
    component is the number minted afterwards. *)
Definition validateRule `{Browser} (rule : Draft) (minted : nat) : RuleValidation * nat :=
  match validateHostname (draft_source_hostname rule) with
  | Invalid error => (RuleInvalid (Some error) None, minted)
  | Valid host_value =>
      match validateTargetUrl (draft_target_url rule) with
      | Invalid error => (RuleInvalid None (Some error), minted)
      | Valid target =>
          if String.eqb (target_hostname target) host_value then
            (RuleInvalid None
               (Some "Target URL hostname cannot match source hostname (self-loop)."),
             minted)
          else
            let '(id, minted') :=
              if truthy (draft_id rule) then (draft_id rule, minted)
              else (JStr (makeId minted), S minted) in
            (RuleValid {| rule_id := ToString id;
                          enabled := truthy (draft_enabled rule);
                          source_hostname := host_value;
                          target_url := target_value target |},
             minted')
      end
  end.

Definition normalizeMetrics (rawMetrics : JsVal) : Metrics :=
  if negb (truthy rawMetrics) || negb (typeof_object rawMetrics) then
    {| total_redirects := zero; per_rule := JObj ∅ |}
  else
    let raw_total := default JUndefined (get_property rawMetrics "total_redirects") in
    let raw_per_rule := default JUndefined (get_property rawMetrics "per_rule") in
    let totalRedirects :=
      if Number_isFinite raw_total
      then match raw_total with JNum f => f | _ => zero end
      else zero in
    let perRule :=
      if truthy raw_per_rule && typeof_object raw_per_rule then raw_per_rule else JObj ∅ in
    {| total_redirects := totalRedirects; per_rule := perRule |}.

Definition normalizeSettings `{Browser} (rawSettings : JsVal) : Settings :=
  if negb (truthy rawSettings) || negb (typeof_object rawSettings) then
    {| hourly_rate := None |}
  else
    let rate := ToNumber (default JUndefined (get_property rawSettings "hourly_rate")) in
    if negb (Num.isFinite rate) || (rate <? 0)%float then {| hourly_rate := None |}
    else {| hourly_rate := Some rate |}.

Definition validateHourlyRate `{Browser} (rawValue : JsVal) : Validation (option float) :=
  let trimmed := JS.trim (ToString (js_or rawValue (JStr ""))) in
  if JS.is_empty trimmed then Valid None
  else
    let parsed := Num.StringToNumber trimmed in
    if negb (Num.isFinite parsed) then Invalid "Hourly rate must be a valid number."
    else if (parsed <? 0)%float then Invalid "Hourly rate cannot be negative."
    else Valid (Some (Num.StringToNumber (Num.toFixed 2 parsed))).

(** ** Derived metrics *)

Definition formatCurrency `{Browser} (value : float) : string := Intl_currency value.

Definition formatDurationFromMinutes `{Browser} (totalMinutes : float) : string :=
  if (totalMinutes <? 60)%float then Num.toFixed 1 totalMinutes +:+ "m"
  else if (totalMinutes <? 1440)%float then
    let hours := Num.floor (totalMinutes / 60)%float in
    let minutes := Num.round (Num.rem totalMinutes 60) in
    if (0 <? minutes)%float then
      Num.toString hours +:+ "h " +:+ Num.toString minutes +:+ "m"
    else Num.toString hours +:+ "h"
  else
    let days := Num.floor (totalMinutes / 1440)%float in
    let hours := Num.round (Num.rem totalMinutes 1440 / 60)%float in
    if (0 <? hours)%float then
      Num.toString days +:+ "d " +:+ Num.toString hours +:+ "h"
    else Num.toString days +:+ "d".

Definition formatMoneyCompact `{Browser} (value : float) : string :=
  if (1000 <=? value)%float then "$" +:+ Num.toFixed 1 (value / 1000)%float +:+ "k"
  else formatCurrency value.

(** The minutes and the money [renderMetricsSummary] computes. *)
Definition minutesSaved (m : Metrics) : float :=
  (total_redirects m * MINUTES_SAVED_PER_REDIRECT)%float.

Definition moneySaved (m : Metrics) (rate : float) : float :=
  let perMinuteRate := (rate / 60)%float in
  (minutesSaved m * perMinuteRate)%float.

(** ** The storage substrate *)

Record StorageChange := { oldValue : JsVal; newValue : JsVal }.

Inductive AreaName := SyncArea | LocalArea.

Inductive Call :=
| CallGet (area : AreaName) (keys : list string)
| CallSet (area : AreaName) (payload : gmap string JsVal).

(** Everything outside the page: the two storage areas ([chrome.storage.sync]
    may be missing), the value [chrome.runtime.lastError] will have in the
    callbacks of the coming storage calls, in order ([None] and the end of
    the list are a success), the number of ids minted, the console and the
    storage calls made so far. *)
Record World := {
  sync_area : option (gmap string JsVal);
  local_area : gmap string JsVal;
  lastErrors : list (option string);
  minted : nat;
  console : list string;
  calls : list Call
}.

Inductive Outcome (A : Type) :=
| Fulfilled (result : A)
| Rejected (message : string).
Arguments Fulfilled {A} result.
Arguments Rejected {A} message.

(** [getStorageArea()] *)
Definition getStorageArea (w : World) : AreaName :=
  match sync_area w with
  | Some _ => SyncArea
  | None => LocalArea
  end.

Definition area_contents (a : AreaName) (w : World) : gmap string JsVal :=
  match a with
  | SyncArea => default ∅ (sync_area w)
  | LocalArea => local_area w
  end.

Definition next_lastError (w : World) : option string :=
  match lastErrors w with
  | e :: _ => e
  | [] => None
  end.

(** The result object of [area.get(keys, callback)]. *)
Definition area_get (contents : gmap string JsVal) (keys : list string) : gmap string JsVal :=
  foldr (fun k acc => match contents !! k with
                      | Some v => <[k := v]> acc
                      | None => acc
                      end) ∅ keys.

Definition get_from (a : AreaName) (label : string) (keys : list string) (w : World)
  : gmap string JsVal * World :=
  let w' := {| sync_area := sync_area w; local_area := local_area w;
               lastErrors := tail (lastErrors w); minted := minted w;
               console := console w ++
                 match next_lastError w with
                 | Some message => [label +:+ " " +:+ message]
                 | None => []
                 end;
               calls := calls w ++ [CallGet a keys] |} in
  match next_lastError w with
  | Some _ => (∅, w')
  | None => (area_get (area_contents a w) keys, w')
  end.

Definition storageGet (key : string) (w : World) : gmap string JsVal * World :=
  get_from (getStorageArea w) "storage get failed:" [key] w.

Definition localStorageGet (keys : list string) (w : World) : gmap string JsVal * World :=
  get_from LocalArea "local storage get failed:" keys w.

Definition storageSet (payload : gmap string JsVal) (w : World) : Outcome unit * World :=
  let a := getStorageArea w in
  match next_lastError w with
  | Some message =>
      (Rejected message,
       {| sync_area := sync_area w; local_area := local_area w;
          lastErrors := tail (lastErrors w); minted := minted w;
          console := console w; calls := calls w ++ [CallSet a payload] |})
  | None =>
      (Fulfilled tt,
       {| sync_area := match a with
                       | SyncArea => Some (payload ∪ area_contents a w)
                       | LocalArea => sync_area w
                       end;
          local_area := match a with
                        | SyncArea => local_area w
                        | LocalArea => payload ∪ area_contents a w
                        end;
          lastErrors := tail (lastErrors w); minted := minted w;
          console := console w; calls := calls w ++ [CallSet a payload] |})
  end.

Definition set_minted (n : nat) (w : World) : World :=
  {| sync_area := sync_area w; local_area := local_area w; lastErrors := lastErrors w;
     minted := n; console := console w; calls := calls w |}.

(** ** The page *)

(** A row of the rules table: the rule its listeners close over, its three
    inputs and its two error cells. *)
Record Row := {
  row_rule : Rule;
  enabledInput : bool;
  sourceInput : string;
  targetInput : string;
  sourceErrorEl : string;
  targetErrorEl : string
}.

(** The three variables of the script and the part of the document it
    reads and writes. The redirect count cell of a row is left out. *)
Record Page := {
  rules : list Rule;
  metrics : Metrics;
  settings : Settings;
  newSourceHostnameInput : string;
  newTargetUrlInput : string;
  formMessage : string * option string;
  metricsSummary : string;
  timeSavedSummary : string;
  moneySavedSummary : string;
  hourlyRateInput : string;
  hourlyRateError : string;
  rulesBody : list Row
}.

Definition initial_page : Page :=
  {| rules := [];
     metrics := {| total_redirects := zero; per_rule := JObj ∅ |};
     settings := {| hourly_rate := None |};
     newSourceHostnameInput := ""; newTargetUrlInput := "";
     formMessage := ("", None);
     metricsSummary := ""; timeSavedSummary := ""; moneySavedSummary := "";
     hourlyRateInput := ""; hourlyRateError := "";
     rulesBody := [] |}.

Definition set_rules (v : list Rule) (p : Page) : Page :=
  {| rules := v; metrics := metrics p; settings := settings p;
     newSourceHostnameInput := newSourceHostnameInput p;
     newTargetUrlInput := newTargetUrlInput p; formMessage := formMessage p;
     metricsSummary := metricsSummary p; timeSavedSummary := timeSavedSummary p;
     moneySavedSummary := moneySavedSummary p; hourlyRateInput := hourlyRateInput p;
     hourlyRateError := hourlyRateError p; rulesBody := rulesBody p |}.

Definition set_metrics (v : Metrics) (p : Page) : Page :=
  {| rules := rules p; metrics := v; settings := settings p;
     newSourceHostnameInput := newSourceHostnameInput p;
     newTargetUrlInput := newTargetUrlInput p; formMessage := formMessage p;
     metricsSummary := metricsSummary p; timeSavedSummary := timeSavedSummary p;
     moneySavedSummary := moneySavedSummary p; hourlyRateInput := hourlyRateInput p;
     hourlyRateError := hourlyRateError p; rulesBody := rulesBody p |}.

Definition set_settings (v : Settings) (p : Page) : Page :=
  {| rules := rules p; metrics := metrics p; settings := v;
     newSourceHostnameInput := newSourceHostnameInput p;
     newTargetUrlInput := newTargetUrlInput p; formMessage := formMessage p;
     metricsSummary := metricsSummary p; timeSavedSummary := timeSavedSummary p;
     moneySavedSummary := moneySavedSummary p; hourlyRateInput := hourlyRateInput p;
     hourlyRateError := hourlyRateError p; rulesBody := rulesBody p |}.

Definition set_new_inputs (source target : string) (p : Page) : Page :=
  {| rules := rules p; metrics := metrics p; settings := settings p;
     newSourceHostnameInput := source; newTargetUrlInput := target;
     formMessage := formMessage p;
     metricsSummary := metricsSummary p; timeSavedSummary := timeSavedSummary p;
     moneySavedSummary := moneySavedSummary p; hourlyRateInput := hourlyRateInput p;
     hourlyRateError := hourlyRateError p; rulesBody := rulesBody p |}.

Definition set_summaries (total time money : string) (p : Page) : Page :=
  {| rules := rules p; metrics := metrics p; settings := settings p;
     newSourceHostnameInput := newSourceHostnameInput p;
     newTargetUrlInput := newTargetUrlInput p; formMessage := formMessage p;
     metricsSummary := total; timeSavedSummary := time; moneySavedSummary := money;
     hourlyRateInput := hourlyRateInput p; hourlyRateError := hourlyRateError p;
     rulesBody := rulesBody p |}.

Definition set_hourlyRateInput (v : string) (p : Page) : Page :=
  {| rules := rules p; metrics := metrics p; settings := settings p;
     newSourceHostnameInput := newSourceHostnameInput p;
     newTargetUrlInput := newTargetUrlInput p; formMessage := formMessage p;
     metricsSummary := metricsSummary p; timeSavedSummary := timeSavedSummary p;
     moneySavedSummary := moneySavedSummary p; hourlyRateInput := v;
     hourlyRateError := hourlyRateError p; rulesBody := rulesBody p |}.

Definition set_hourlyRateError (v : string) (p : Page) : Page :=
  {| rules := rules p; metrics := metrics p; settings := settings p;
     newSourceHostnameInput := newSourceHostnameInput p;
     newTargetUrlInput := newTargetUrlInput p; formMessage := formMessage p;
     metricsSummary := metricsSummary p; timeSavedSummary := timeSavedSummary p;
     moneySavedSummary := moneySavedSummary p; hourlyRateInput := hourlyRateInput p;
     hourlyRateError := v; rulesBody := rulesBody p |}.

Definition set_rulesBody (v : list Row) (p : Page) : Page :=
  {| rules := rules p; metrics := metrics p; settings := settings p;
     newSourceHostnameInput := newSourceHostnameInput p;
     newTargetUrlInput := newTargetUrlInput p; formMessage := formMessage p;
     metricsSummary := metricsSummary p; timeSavedSummary := timeSavedSummary p;
     moneySavedSummary := moneySavedSummary p; hourlyRateInput := hourlyRateInput p;
     hourlyRateError := hourlyRateError p; rulesBody := v |}.

(** [showFormMessage(message, type)] *)
Definition showFormMessage (message : string) (type : option string) (p : Page) : Page :=
  {| rules := rules p; metrics := metrics p; settings := settings p;
     newSourceHostnameInput := newSourceHostnameInput p;
     newTargetUrlInput := newTargetUrlInput p;
     formMessage := (message, match type with
                              | Some t => if JS.is_empty t then None else Some t
                              | None => None
                              end);
     metricsSummary := metricsSummary p; timeSavedSummary := timeSavedSummary p;
     moneySavedSummary := moneySavedSummary p; hourlyRateInput := hourlyRateInput p;
     hourlyRateError := hourlyRateError p; rulesBody := rulesBody p |}.

(** *** Rendering *)

Definition renderMetricsSummary `{Browser} (p : Page) : Page :=
  set_summaries
    (Num.toString (total_redirects (metrics p)))
    (formatDurationFromMinutes (minutesSaved (metrics p)))
    (match hourly_rate (settings p) with
     | Some rate =>
         if Num.isFinite rate then formatMoneyCompact (moneySaved (metrics p) rate)
         else "$0.00"
     | None => "$0.00"
     end)
    p.

Definition renderSettings `{Browser} (p : Page) : Page :=
  set_hourlyRateInput
    (match hourly_rate (settings p) with
     | Some rate => if Num.isFinite rate then Num.toFixed 2 rate else ""
     | None => ""
     end)
    p.

(** A rule of the list as the argument of [validateRule]. *)
Definition rule_draft (rule : Rule) : Draft :=
  {| draft_id := JStr (rule_id rule);
     draft_enabled := JBool (enabled rule);
     draft_source_hostname := JStr (source_hostname rule);
     draft_target_url := JStr (target_url rule) |}.

(** [e || ""] for a property that is a string or missing. *)
Definition error_text (e : option string) : string := default "" e.

(** [a || b] on strings. *)
Definition or_text (a b : string) : string := if JS.is_empty a then b else a.

(** One turn of the loop of [renderRules]. *)
Definition render_row `{Browser} (rule : Rule) (n : nat) : Row * nat :=
  let '(initialValidation, n') := validateRule (rule_draft rule) n in
  ({| row_rule := rule;
      enabledInput := truthy (JBool (enabled rule));
      sourceInput := source_hostname rule;
      targetInput := target_url rule;
      sourceErrorEl := match initialValidation with
                       | RuleInvalid sourceError _ => error_text sourceError
                       | RuleValid _ => ""
                       end;
      targetErrorEl := match initialValidation with
                       | RuleInvalid _ targetError => error_text targetError
                       | RuleValid _ => ""
                       end |}, n').

Fixpoint render_rows `{Browser} (l : list Rule) (n : nat) : list Row * nat :=
  match l with
  | [] => ([], n)
  | rule :: rest =>
      let '(row, n') := render_row rule n in
      let '(rows, n'') := render_rows rest n' in
      (row :: rows, n'')
  end.

(** [renderRules()]: no row stands for the "No rules yet" placeholder. *)
Definition renderRules `{Browser} (p : Page) (w : World) : Page * World :=
  let '(rows, n) := render_rows (rules p) (minted w) in
  (set_rulesBody rows p, set_minted n w).

(** *** Persistence *)

Definition rule_to_js (rule : Rule) : JsVal :=
  JObj (<["id" := JStr (rule_id rule)]>
        (<["enabled" := JBool (enabled rule)]>
         (<["source_hostname" := JStr (source_hostname rule)]>
          (<["target_url" := JStr (target_url rule)]> ∅)))).

Definition settings_to_js (s : Settings) : JsVal :=
  JObj {[ "hourly_rate" := match hourly_rate s with
                           | Some rate => JNum rate
                           | None => JNull
                           end ]}.

Definition persistRules (p : Page) (w : World) : Outcome unit * World :=
  storageSet {[ STORAGE_KEY := JArr (List.map rule_to_js (rules p)) ]} w.

Definition persistSettings (p : Page) (w : World) : Outcome unit * World :=
  storageSet {[ SETTINGS_KEY := settings_to_js (settings p) ]} w.

(** The callback of [stored.map] in [loadRules]; [None] is the TypeError of
    reading [item.id] when the item is [null] or [undefined]. *)
Definition load_item `{Browser} (item : JsVal) (n : nat) : option (Rule * nat) :=
  match get_property item "id", get_property item "enabled",
        get_property item "source_hostname", get_property item "target_url" with
  | Some id, Some item_enabled, Some item_source, Some item_target =>
      let '(id', n') := if truthy id then (id, n) else (JStr (makeId n), S n) in
      Some ({| rule_id := ToString id';
               enabled := truthy item_enabled;
               source_hostname := ToString (js_or item_source (JStr ""));
               target_url := ToString (js_or item_target (JStr "")) |}, n')
  | _, _, _, _ => None
  end.

Fixpoint load_items `{Browser} (stored : list JsVal) (n : nat) : option (list Rule) * nat :=
  match stored with
  | [] => (Some [], n)
  | item :: rest =>
      match load_item item n with
      | Some (rule, n') =>
          let '(loaded, n'') := load_items rest n' in
          (cons rule <$> loaded, n'')
      | None => (None, n)
      end
  end.

Definition loadRules `{Browser} (p : Page) (w : World) : Outcome unit * Page * World :=
  let '(result, w1) := storageGet STORAGE_KEY w in
  let value := default JUndefined (result !! STORAGE_KEY) in
  let stored := if Array_isArray value then array_items value else [] in
  let '(loaded, n) := load_items stored (minted w1) in
  match loaded with
  | Some rs =>
      let '(p', w2) := renderRules (set_rules rs p) (set_minted n w1) in
      (Fulfilled tt, p', w2)
  | None => (Rejected (TypeError_message "id"), p, set_minted n w1)
  end.

Definition loadMetrics `{Browser} (p : Page) (w : World) : Page * World :=
  let '(result, w1) := localStorageGet [METRICS_KEY] w in
  let p1 := set_metrics (normalizeMetrics (default JUndefined (result !! METRICS_KEY))) p in
  renderRules (renderMetricsSummary p1) w1.

Definition loadSettings `{Browser} (p : Page) (w : World) : Page * World :=
  let '(result, w1) := storageGet SETTINGS_KEY w in
  let p1 := set_settings (normalizeSettings (default JUndefined (result !! SETTINGS_KEY))) p in
  (renderMetricsSummary (renderSettings p1), w1).

(** [loadRules().catch(...)], the call at the top level of the script. *)
Definition start_loadRules `{Browser} (p : Page) (w : World) : Page * World :=
  match loadRules p w with
  | (Fulfilled _, p', w') => (p', w')
  | (Rejected message, p', w') =>
      (showFormMessage ("Failed to load rules: " +:+ message) (Some "error") p', w')
  end.

(** *** Event handlers *)

(** [setRowErrors(row, sourceError, targetError)] on the [k]-th row. *)
Definition setRowErrors (k : nat) (sourceError targetError : string) (p : Page) : Page :=
  match rulesBody p !! k with
  | Some row =>
      set_rulesBody
        (<[k := {| row_rule := row_rule row; enabledInput := enabledInput row;
                   sourceInput := sourceInput row; targetInput := targetInput row;
                   sourceErrorEl := sourceError; targetErrorEl := targetError |}]>
           (rulesBody p)) p
  | None => p
  end.

(** [rules.findIndex((item) => item.id === id)]; [None] is -1. *)
Definition findIndex (id : string) (l : list Rule) : option nat :=
  fst <$> list_find (fun item => rule_id item = id) l.

(** The draft [updateRuleFromInputs] builds from the row. *)
Definition row_draft (row : Row) : Draft :=
  {| draft_id := JStr (rule_id (row_rule row));
     draft_enabled := JBool (enabledInput row);
     draft_source_hostname := JStr (sourceInput row);
     draft_target_url := JStr (targetInput row) |}.

(** What is stored for a draft that failed validation. *)
Definition unvalidated `{Browser} (row : Row) : Rule :=
  {| rule_id := rule_id (row_rule row);
     enabled := enabledInput row;
     source_hostname :=
       JS.toLowerCase (JS.trim (ToString (js_or (draft_source_hostname (row_draft row)) (JStr ""))));
     target_url :=
       JS.trim (ToString (js_or (draft_target_url (row_draft row)) (JStr ""))) |}.

(** [updateRuleFromInputs({ allowPersistOnInvalid })] of the [k]-th row. *)
Definition updateRuleFromInputs `{Browser}
    (allowPersistOnInvalid : bool) (k : nat) (p : Page) (w : World) : Page * World :=
  match rulesBody p !! k with
  | None => (p, w)
  | Some row =>
      let '(validation, n) := validateRule (row_draft row) (minted w) in
      let w1 := set_minted n w in
      let p1 := match validation with
                | RuleInvalid sourceError targetError =>
                    setRowErrors k (error_text sourceError) (error_text targetError) p
                | RuleValid _ => setRowErrors k "" "" p
                end in
      let stop := match validation with
                  | RuleInvalid _ _ => negb allowPersistOnInvalid
                  | RuleValid _ => false
                  end in
      if stop then (p1, w1)
      else
        match findIndex (rule_id (row_rule row)) (rules p1) with
        | None => (p1, w1)
        | Some index =>
            let replacement := match validation with
                               | RuleInvalid _ _ => unvalidated row
                               | RuleValid normalized => normalized
                               end in
            let p2 := set_rules (<[index := replacement]> (rules p1)) p1 in
            match persistRules p2 w1 with
            | (Fulfilled _, w2) => (showFormMessage "" None p2, w2)
            | (Rejected message, w2) =>
                (showFormMessage ("Failed to save rules: " +:+ message) (Some "error") p2, w2)
            end
        end
  end.

(** The row after the user changed one of its inputs. *)
Definition with_enabled (checked : bool) (row : Row) : Row :=
  {| row_rule := row_rule row; enabledInput := checked;
     sourceInput := sourceInput row; targetInput := targetInput row;
     sourceErrorEl := sourceErrorEl row; targetErrorEl := targetErrorEl row |}.

Definition with_source (text : string) (row : Row) : Row :=
  {| row_rule := row_rule row; enabledInput := enabledInput row;
     sourceInput := text; targetInput := targetInput row;
     sourceErrorEl := sourceErrorEl row; targetErrorEl := targetErrorEl row |}.

Definition with_target (text : string) (row : Row) : Row :=
  {| row_rule := row_rule row; enabledInput := enabledInput row;
     sourceInput := sourceInput row; targetInput := text;
     sourceErrorEl := sourceErrorEl row; targetErrorEl := targetErrorEl row |}.

Definition set_row_inputs (k : nat) (f : Row -> Row) (p : Page) : Page :=
  match rulesBody p !! k with
  | Some row => set_rulesBody (<[k := f row]> (rulesBody p)) p
  | None => p
  end.

(** The change listener of the checkbox of the [k]-th row, after the user
    set it to [checked]. *)
Definition enabled_change `{Browser} (k : nat) (checked : bool) (p : Page) (w : World)
  : Page * World :=
  updateRuleFromInputs true k (set_row_inputs k (with_enabled checked) p) w.

(** The input listener of the hostname field of the [k]-th row, after the
    user made it [text]. *)
Definition source_input `{Browser} (k : nat) (text : string) (p : Page) (w : World)
  : Page * World :=
  updateRuleFromInputs false k (set_row_inputs k (with_source text) p) w.

(** The input listener of the target field of the [k]-th row, after the
    user made it [text]. *)
Definition target_input `{Browser} (k : nat) (text : string) (p : Page) (w : World)
  : Page * World :=
  updateRuleFromInputs false k (set_row_inputs k (with_target text) p) w.

(** The click on the delete button of the [k]-th row. *)
Definition delete_click `{Browser} (k : nat) (p : Page) (w : World) : Page * World :=
  match rulesBody p !! k with
  | None => (p, w)
  | Some row =>
      let p1 :=
        set_rules (filter (fun item => rule_id item ≠ rule_id (row_rule row)) (rules p)) p in
      match persistRules p1 w with
      | (Fulfilled _, w1) =>
          let '(p2, w2) := renderRules p1 w1 in
          (showFormMessage "" None p2, w2)
      | (Rejected message, w1) =>
          (showFormMessage ("Failed to delete rule: " +:+ message) (Some "error") p1, w1)
      end
  end.

(** The submit listener of the add-rule form. *)
Definition addRuleForm_submit `{Browser} (p : Page) (w : World) : Page * World :=
  let draft := {| draft_id := JStr (makeId (minted w));
                  draft_enabled := JBool true;
                  draft_source_hostname := JStr (newSourceHostnameInput p);
                  draft_target_url := JStr (newTargetUrlInput p) |} in
  let '(validation, n) := validateRule draft (S (minted w)) in
  let w1 := set_minted n w in
  match validation with
  | RuleInvalid sourceError targetError =>
      (showFormMessage
         (or_text (error_text sourceError) (or_text (error_text targetError) "Invalid rule."))
         (Some "error") p, w1)
  | RuleValid normalized =>
      let p1 := set_rules (rules p ++ [normalized]) p in
      match persistRules p1 w1 with
      | (Fulfilled _, w2) =>
          let '(p2, w3) := renderRules p1 w2 in
          (showFormMessage "Rule added." (Some "success") (set_new_inputs "" "" p2), w3)
      | (Rejected message, w2) =>
          (showFormMessage ("Failed to save rule: " +:+ message) (Some "error") p1, w2)
      end
  end.

(** The listener of [chrome.storage.onChanged]. *)
Definition onChanged `{Browser}
    (changes : gmap string StorageChange) (areaName : string) (p : Page) (w : World)
  : Page * World :=
  let usingSync := bool_decide (is_Some (sync_area w)) in
  let '(p1, w1) :=
    if String.eqb areaName "local" then
      match changes !! METRICS_KEY with
      | Some change =>
          renderRules
            (renderMetricsSummary (set_metrics (normalizeMetrics (newValue change)) p)) w
      | None => (p, w)
      end
    else (p, w) in
  if usingSync && String.eqb areaName "sync" || negb usingSync && String.eqb areaName "local"
  then
    match changes !! SETTINGS_KEY with
    | Some change =>
        (renderMetricsSummary
           (renderSettings (set_settings (normalizeSettings (newValue change)) p1)), w1)
    | None => (p1, w1)
    end
  else (p1, w1).

(** The input listener of the hourly-rate field, after the user typed
    [text] into it. *)
Definition hourlyRate_input `{Browser} (text : string) (p : Page) (w : World) : Page * World :=
  let p0 := set_hourlyRateInput text p in
  match validateHourlyRate (JStr (hourlyRateInput p0)) with
  | Invalid error => (set_hourlyRateError error p0, w)
  | Valid value =>
      let p1 := renderMetricsSummary
                  (set_settings {| hourly_rate := value |} (set_hourlyRateError "" p0)) in
      match persistSettings p1 w with
      | (Fulfilled _, w1) => (p1, w1)
      | (Rejected message, w1) =>
          (showFormMessage ("Failed to save hourly rate: " +:+ message) (Some "error") p1, w1)
      end
  end.

(** ** The page as a whole *)

(** The top level of the script: the three loads, in the order they are
    started, each storage read answered before the next load goes on and
    before any listener runs. *)
Definition startup `{Browser} (w : World) : Page * World :=
  let '(p1, w1) := start_loadRules initial_page w in
  let '(p2, w2) := loadMetrics p1 w1 in
  loadSettings p2 w2.

(** What can happen once the script has run: the user fills the add-rule
    form, submits it, acts on the [k]-th row of the table or types into the
    hourly-rate field, or storage reports a change. *)
Inductive Event :=
| TypeNewRule (source target : string)
| SubmitRule
| ToggleEnabled (k : nat) (checked : bool)
| EditSource (k : nat) (text : string)
| EditTarget (k : nat) (text : string)
| ClickDelete (k : nat)
| TypeHourlyRate (text : string)
| StorageChanged (changes : gmap string StorageChange) (areaName : string).

(** The listener the script registered for the event. *)
Definition handle `{Browser} (e : Event) (p : Page) (w : World) : Page * World :=
  match e with
  | TypeNewRule source target => (set_new_inputs source target p, w)
  | SubmitRule => addRuleForm_submit p w
  | ToggleEnabled k checked => enabled_change k checked p w
  | EditSource k text => source_input k text p w
  | EditTarget k text => target_input k text p w
  | ClickDelete k => delete_click k p w
  | TypeHourlyRate text => hourlyRate_input text p w
  | StorageChanged changes areaName => onChanged changes areaName p w
  end.

(** A session: the events one after the other, each listener run to the
    end of its storage call before the next event arrives. *)
Fixpoint run `{Browser} (events : list Event) (p : Page) (w : World) : Page * World :=
  match events with
  | [] => (p, w)
  | e :: rest => let '(p', w') := handle e p w in run rest p' w'
  end.

(** ** A browser to run the page against

    An en-US browser with [crypto.randomUUID], used to evaluate the page on
    concrete inputs. Its URL parser covers [scheme://host/path?query#fragment]
    (no credentials, no port), its number printer the numbers between 1e-6
    and 1e21 in magnitude. *)

Module Reference.

(** The part of [s] before the first character satisfying [p], and the rest. *)
Fixpoint break (p : ascii -> bool) (s : string) : string * string :=
  match s with
  | String c s' =>
      if p c then (EmptyString, s)
      else let '(a, b) := break p s' in (String c a, b)
  | EmptyString => (EmptyString, EmptyString)
  end.

Definition is_alpha (c : ascii) : bool :=
  let n := N_of_ascii (JS.lower_char c) in ((97 <=? n) && (n <=? 122))%N.

Definition host_char (c : ascii) : bool :=
  let n := N_of_ascii (JS.lower_char c) in
  ((97 <=? n) && (n <=? 122) || (48 <=? n) && (n <=? 57) || (n =? 45) || (n =? 46))%N.

Definition parse_url (s : string) : option URL :=
  let '(scheme, r) := break (Ascii.eqb ":") s in
  match r with
  | String ":" (String "/" (String "/" rest)) =>
      let '(authority, r1) :=
        break (fun c => Ascii.eqb c "/" || Ascii.eqb c "?" || Ascii.eqb c "#") rest in
      let '(path, r2) := break (fun c => Ascii.eqb c "?" || Ascii.eqb c "#") r1 in
      let '(query, r3) := break (Ascii.eqb "#") r2 in
      if JS.is_empty scheme || negb (JS.all_chars is_alpha scheme)
         || JS.is_empty authority || negb (JS.all_chars host_char authority)
      then None
      else Some {| url_scheme := JS.toLowerCase scheme;
                   url_username := ""; url_password := "";
                   url_host := Some (JS.toLowerCase authority);
                   url_port := None;
                   url_path := if JS.is_empty path then "/" else path;
                   url_query := match query with
                                | String "?" q => Some q
                                | _ => None
                                end;
                   url_fragment := match r3 with
                                   | String "#" f => Some f
                                   | _ => None
                                   end |}
  | _ => None
  end.

Definition signed_fixed (f : nat) (x : float) (q : Q) : string :=
  (if get_sign x then "-" else "") +:+
  Num.fixed_digits f (Z.to_N (Qfloor (Qabs q * (10 ^ Z.of_nat f # 1) + (1 # 2)))).

(** The shortest positional decimal that reads back as [x]. *)
Definition print_decimal (x : float) : string :=
  match Num.exact x with
  | Some q =>
      let fix search (f fuel : nat) : string :=
        match fuel with
        | O => signed_fixed f x q
        | S fuel' =>
            if (Num.StringToNumber (signed_fixed f x q) =? x)%float then signed_fixed f x q
            else search (S f) fuel'
        end in
      search 0%nat 30%nat
  | None => ""
  end.

(** Commas between groups of three digits, from the right. *)
Fixpoint group3 (digits : string) : string :=
  match digits with
  | String c rest =>
      String c (if (0 <? String.length rest)%nat && (String.length rest mod 3 =? 0)%nat
                then String "," (group3 rest) else group3 rest)
  | EmptyString => EmptyString
  end.

(** US dollars in the en-US locale: two decimals, halves away from zero. *)
Definition format_usd (x : float) : string :=
  if is_nan x then "$NaN"
  else match Num.exact x with
       | Some q =>
           let cents := pretty (Z.to_N (Qfloor (Qabs q * (100 # 1) + (1 # 2)))) in
           let cents := if (String.length cents <=? 2)%nat
                        then Num.zeros (3 - String.length cents) +:+ cents else cents in
           let k := String.length cents in
           (if get_sign x then "-$" else "$") +:+
           group3 (JS.take_chars (k - 2) cents) +:+ "." +:+ JS.drop_chars (k - 2) cents
       | None => if get_sign x then "-$∞" else "$∞"
       end.

Definition browser : Browser :=
  {| URL_parse := parse_url;
     Number_decimal := print_decimal;
     Intl_currency := format_usd;
     crypto_randomUUID :=
       Some (fun n => (N.of_nat (S n) * 211269478075799847120206027412511614333) mod 2 ^ 128)%N;
     Date_now := fun n => (1700000000000 + Num.of_Z (Z.of_nat n))%float;
     Math_random := fun _ => 0.5%float;
     TypeError_message := fun key =>
       "Cannot read properties of null (reading '" +:+ key +:+ "')" |}.

(** A world with both storage areas empty and no failure ahead. *)
Definition world : World :=
  {| sync_area := Some ∅; local_area := ∅; lastErrors := []; minted := 0;
     console := []; calls := [] |}.

(** The same world with [v] stored under [key] in the synchronized area. *)
Definition world_storing (key : string) (v : JsVal) : World :=
  {| sync_area := Some {[ key := v ]}; local_area := ∅; lastErrors := []; minted := 0;
     console := []; calls := [] |}.

(** A page showing one rule whose hostname field the user has left in
    a state that does not validate. *)
Definition rule1 : Rule :=
  {| rule_id := "r1"; enabled := true; source_hostname := "old.example.com";
     target_url := "https://new.example.com/" |}.

Definition row1 : Row :=
  {| row_rule := rule1; enabledInput := true; sourceInput := "  Bad Host ";
     targetInput := "https://new.example.com/";
     sourceErrorEl := "Hostname must not include scheme, path, spaces, or query.";
     targetErrorEl := "" |}.

Definition page1 : Page := set_rulesBody [row1] (set_rules [rule1] initial_page).

(** A world that stores [rule1] and answers the three reads of the loads,
    then fails the next call, which will be a write. *)
Definition world_failing_write : World :=
  {| sync_area := Some {[ STORAGE_KEY := JArr [rule_to_js rule1] ]};
     local_area := ∅;
     lastErrors := [None; None; None; Some "QUOTA_BYTES quota exceeded"];
     minted := 0; console := []; calls := [] |}.

(** Two rules under the same id. *)
Definition twin1 : Rule :=
  {| rule_id := "r1"; enabled := true; source_hostname := "old.example.com";
     target_url := "https://new.example.com/" |}.

Definition twin2 : Rule :=
  {| rule_id := "r1"; enabled := true; source_hostname := "other.example.com";
     target_url := "https://new.example.com/" |}.

(** The page loaded from [w], then the events. *)
Definition session (w : World) (events : list Event) : Page * World :=
  @run browser events (@startup browser w).1 (@startup browser w).2.

End Reference.

(** * Properties *)

(** ** Vocabulary of the statements *)

(** [c] occurs in [s]. *)
Definition contains (c : ascii) (s : string) : Prop := In c (list_ascii_of_string s).

(** The class [[a-z0-9-]]. *)
Definition in_label_class (c : ascii) : Prop :=
  let n := N_of_ascii c in
  (97 <= n <= 122 \/ 48 <= n <= 57 \/ n = 45)%N.

Definition is_upper (c : ascii) : Prop := (65 <= N_of_ascii c <= 90)%N.

(** A label that matches [[a-z0-9-]+] and has no hyphen at either end. *)
Definition good_label (l : string) : Prop :=
  l <> "" /\ (forall c, contains c l -> in_label_class c)
  /\ (forall t, l <> String "-" t) /\ (forall t, l <> t +:+ "-").

Definition bad_label (l : string) : Prop :=
  l = "" \/ (exists c, contains c l /\ ~ in_label_class c)
  \/ (exists t, l = String "-" t) \/ (exists t, l = t +:+ "-").

(** The dot-separated labels of a hostname. *)
Definition labels (h : string) : list string := JS.split "." h.

(** The inputs the hostname validator turns down, after trimming and
    lower-casing. *)
Definition rejected_hostname (n : string) : Prop :=
  n = "" \/ contains "/" n \/ contains " " n \/ contains ":" n \/ contains "?" n
  \/ length (labels n) < 2 \/ Exists bad_label (labels n).


(** A draft id as the page builds it: a string, or none at all. *)
Definition string_or_missing (v : JsVal) : Prop :=
  match v with
  | JUndefined | JStr _ => True
  | _ => False
  end.

(** The next [k] storage calls complete without [chrome.runtime.lastError]. *)
Definition calls_succeed (k : nat) (w : World) : Prop :=
  Forall (fun e => e = None) (take k (lastErrors w)).



(** The value stored under the rules key in the area the page uses. *)
Definition stored_rules (w : World) : JsVal :=
  default JUndefined (area_contents (getStorageArea w) w !! STORAGE_KEY).


(** The name under which [chrome.storage.onChanged] reports an area. *)
Definition area_name (a : AreaName) : string :=
  match a with
  | SyncArea => "sync"
  | LocalArea => "local"
  end.

(** The draft the add-rule form submits. *)
Definition submitted_draft `{Browser} (p : Page) (w : World) : Draft :=
  {| draft_id := JStr (makeId (minted w));
     draft_enabled := JBool true;
     draft_source_hostname := JStr (newSourceHostnameInput p);
     draft_target_url := JStr (newTargetUrlInput p) |}.

(** The two storage areas. *)
Definition areas (w : World) : option (gmap string JsVal) * gmap string JsVal :=
  (sync_area w, local_area w).

(** The zero value of the metrics. *)
Definition no_metrics : Metrics := {| total_redirects := zero; per_rule := JObj ∅ |}.

(** The draft does not pass [validateRule]. *)
Definition fails_validation `{Browser} (d : Draft) (n : nat) : Prop :=
  exists sourceError targetError, (validateRule d n).1 = RuleInvalid sourceError targetError.

(** [i] is the position of the rule carrying [id]: the first, should the id
    occur more than once. *)
Definition position_of (id : string) (i : nat) (l : list Rule) : Prop :=
  (exists r, l !! i = Some r /\ rule_id r = id)
  /\ forall j r, j < i -> l !! j = Some r -> rule_id r <> id.

(** What a failed toggle stores for the row: the row's id and inputs, the
    hostname trimmed and lower-cased, the URL trimmed. *)
Definition stored_unvalidated (row : Row) : Rule :=
  {| rule_id := rule_id (row_rule row);
     enabled := enabledInput row;
     source_hostname := JS.toLowerCase (JS.trim (sourceInput row));
     target_url := JS.trim (targetInput row) |}.

(** The number read from a string of decimal digits, on top of [acc]. *)
Fixpoint read_digits (acc : N) (d : string) : N :=
  match d with
  | String c d' => read_digits (10 * acc + (N_of_ascii c - 48)) d'
  | EmptyString => acc
  end.

Definition is_digit (c : ascii) : bool :=
  let n := N_of_ascii c in ((48 <=? n) && (n <=? 57))%N.

(** The double nearest to [x] rounded to hundredths, halves up. *)
Definition rounded_to_cents (q : Q) : float :=
  Num.of_Q (Qfloor (q * (100 # 1) + (1 # 2)) # 100).

Definition digit_or_point (c : ascii) : bool := is_digit c || Ascii.eqb c ".".

(** [null] or [undefined]. *)
Definition nullish (v : JsVal) : Prop := v = JNull \/ v = JUndefined.

(** A character of the class [[a-z0-9-]] or a dot. *)
Definition hostname_char (c : ascii) : bool := label_char c || Ascii.eqb c ".".

(** The two error texts a validation result puts next to a row. *)
Definition validation_errors (v : RuleValidation) : string * string :=
  match v with
  | RuleInvalid sourceError targetError => (error_text sourceError, error_text targetError)
  | RuleValid _ => ("", "")
  end.

(** The row that shows a rule: the rule's own values in the inputs and the
    errors of validating it in the error cells. *)
Definition shown_row `{Browser} (rule : Rule) : Row :=
  {| row_rule := rule;
     enabledInput := enabled rule;
     sourceInput := source_hostname rule;
     targetInput := target_url rule;
     sourceErrorEl := (validation_errors (validateRule (rule_draft rule) 0).1).1;
     targetErrorEl := (validation_errors (validateRule (rule_draft rule) 0).1).2 |}.

(** The ids of the rules in memory, in order. *)
Definition ids (p : Page) : list string := rule_id <$> rules p.

(** A storage write of one of the two keys the page owns, to area [a]. *)
Definition writes_own_key (a : AreaName) (c : Call) : Prop :=
  exists v, c = CallSet a {[ STORAGE_KEY := v ]} \/ c = CallSet a {[ SETTINGS_KEY := v ]}.

(** From [w] to [w'] at most [budget] storage calls were made, each a write
    of one of the page's two keys to the area the page uses, and nothing
    else in storage changed. *)
Definition own_writes (budget : nat) (w w' : World) : Prop :=
  (exists new, calls w' = calls w ++ new /\ length new <= budget
               /\ Forall (writes_own_key (getStorageArea w)) new)
  /\ getStorageArea w' = getStorageArea w
  /\ (forall a key, key <> STORAGE_KEY -> key <> SETTINGS_KEY ->
        area_contents a w' !! key = area_contents a w !! key)
  /\ (getStorageArea w = SyncArea -> local_area w' = local_area w).

(** Metrics as the page keeps them: a finite total and an object of counts. *)
Definition well_formed (m : Metrics) : Prop :=
  Num.isFinite (total_redirects m) = true
  /\ truthy (per_rule m) = true /\ typeof_object (per_rule m) = true.

(** ** Strings *)

Example split_two : JS.split "." "old.example.com" = ["old"; "example"; "com"].
Proof. reflexivity. Qed.

Example split_empty : JS.split "." "" = [""].
Proof. reflexivity. Qed.

Example trim_both : JS.trim "  Example.COM  " = "Example.COM".
Proof. reflexivity. Qed.

Lemma app_empty (s : string) : "" +:+ s = s.
Proof. reflexivity. Qed.

Lemma app_String (c : ascii) (s t : string) : String c s +:+ t = String c (s +:+ t).
Proof. reflexivity. Qed.

Lemma app_assoc_str (a b c : string) : (a +:+ b) +:+ c = a +:+ b +:+ c.
Proof. induction a as [|x a IH]; [reflexivity|]. rewrite !app_String, IH. reflexivity. Qed.

Ltac str_app := rewrite ?app_String, ?app_empty.
Ltac str_app_in H := rewrite ?app_String, ?app_empty in H.

Lemma is_empty_true (s : string) : JS.is_empty s = true <-> s = "".
Proof. destruct s; simpl; split; congruence. Qed.

Lemma is_empty_false (s : string) : JS.is_empty s = false <-> s <> "".
Proof. destruct s; simpl; split; congruence. Qed.

Lemma includes_contains (c : ascii) (s : string) :
  JS.includes c s = true <-> contains c s.
Proof.
  unfold contains. induction s as [|d s IH]; simpl.
  - split; [discriminate | tauto].
  - rewrite orb_true_iff, IH, Ascii.eqb_eq. tauto.
Qed.

Lemma includes_not_contains (c : ascii) (s : string) :
  JS.includes c s = false <-> ~ contains c s.
Proof.
  rewrite <- includes_contains. destruct (JS.includes c s); split; congruence.
Qed.

Lemma label_char_class (c : ascii) : label_char c = true <-> in_label_class c.
Proof.
  unfold label_char, in_label_class. cbv zeta.
  rewrite !orb_true_iff, !andb_true_iff, !N.leb_le, N.eqb_eq. tauto.
Qed.

Lemma all_chars_forall (p : ascii -> bool) (s : string) :
  JS.all_chars p s = true <-> forall c, contains c s -> p c = true.
Proof.
  unfold contains. induction s as [|d s IH]; simpl.
  - split; [tauto | reflexivity].
  - rewrite andb_true_iff, IH. split.
    + intros [Hd Hs] c [<-|Hc]; auto.
    + intros Hall. split; [apply Hall; auto | intros c Hc; apply Hall; auto].
Qed.

Lemma startsWith_spec (c : ascii) (s : string) :
  JS.startsWith c s = true <-> exists t, s = String c t.
Proof.
  destruct s as [|d s]; simpl.
  - split; [discriminate | intros [t Ht]; discriminate].
  - rewrite Ascii.eqb_eq. split.
    + intros ->. eauto.
    + intros [t Ht]. congruence.
Qed.

Lemma endsWith_spec (c : ascii) (s : string) :
  JS.endsWith c s = true <-> exists t, s = t +:+ String c "".
Proof.
  induction s as [|d s IH].
  - simpl. split; [discriminate | intros [[|e t] Ht]; discriminate].
  - destruct s as [|d' s'].
    + simpl. rewrite Ascii.eqb_eq. split.
      * intros ->. exists "". reflexivity.
      * intros [[|e [|e' t]] Ht]; str_app_in Ht; congruence.
    + change (JS.endsWith c (String d (String d' s'))) with (JS.endsWith c (String d' s')).
      rewrite IH. split.
      * intros [t Ht]. exists (String d t). str_app. congruence.
      * intros [[|e t] Ht]; str_app_in Ht; [discriminate|].
        exists t. congruence.
Qed.

Lemma split_cons (sep : ascii) (s : string) :
  exists hd tl, JS.split sep s = hd :: tl.
Proof.
  induction s as [|c s [hd [tl IH]]]; simpl; eauto.
  destruct (Ascii.eqb c sep); rewrite ?IH; eauto.
Qed.

(** Joining the pieces with the separator gives the string back, and no
    piece holds the separator: [split] is the list of separated labels. *)
Lemma join_split (sep : ascii) (s : string) :
  JS.join (String sep "") (JS.split sep s) = s.
Proof.
  induction s as [|c s IH]; [reflexivity|].
  simpl. destruct (split_cons sep s) as [hd [tl Hs]].
  destruct (Ascii.eqb c sep) eqn:Hc.
  - apply Ascii.eqb_eq in Hc. subst c. rewrite Hs in *.
    change (JS.join (String sep "") ("" :: hd :: tl))
      with ("" +:+ String sep "" +:+ JS.join (String sep "") (hd :: tl)).
    rewrite IH. reflexivity.
  - rewrite Hs in *. rewrite <- IH. destruct tl; reflexivity.
Qed.

Lemma split_no_separator (sep : ascii) (s : string) :
  Forall (fun l => ~ contains sep l) (JS.split sep s).
Proof.
  induction s as [|c s IH]; simpl.
  - constructor; [intros [] | constructor].
  - destruct (Ascii.eqb c sep) eqn:Hc.
    + constructor; [intros [] | exact IH].
    + destruct (JS.split sep s) as [|hd tl].
      * constructor; [|constructor]. intros [H|[]]. subst.
        rewrite Ascii.eqb_refl in Hc. discriminate.
      * inversion IH; subst. constructor; [|assumption].
        intros [H|H]; [|contradiction]. subst.
        rewrite Ascii.eqb_refl in Hc. discriminate.
Qed.

Lemma split_length (sep : ascii) (s : string) :
  2 <= length (JS.split sep s) <-> contains sep s.
Proof.
  unfold contains. induction s as [|c s IH]; simpl.
  - split; [lia | tauto].
  - destruct (split_cons sep s) as [hd [tl Hs]].
    destruct (Ascii.eqb c sep) eqn:Hc.
    + apply Ascii.eqb_eq in Hc. rewrite Hs. simpl. split; [auto | lia].
    + rewrite Hs in *. simpl in *. rewrite IH. split; [auto|].
      intros [H|H]; [|assumption]. subst. rewrite Ascii.eqb_refl in Hc. discriminate.
Qed.

Lemma split_contains (sep c : ascii) (s : string) :
  contains c s -> c = sep \/ exists l, In l (JS.split sep s) /\ contains c l.
Proof.
  unfold contains. induction s as [|d s IH]; simpl; [tauto|].
  destruct (split_cons sep s) as [hd [tl Hs]].
  intros [Hd|Hc].
  - subst d. destruct (Ascii.eqb c sep) eqn:Hc.
    + left. apply Ascii.eqb_eq. assumption.
    + right. rewrite Hs. exists (String c hd). simpl. auto.
  - destruct (IH Hc) as [?|[l [Hl Hcl]]]; [auto|]. right.
    destruct (Ascii.eqb d sep).
    + exists l. simpl. auto.
    + rewrite Hs in *. destruct Hl as [<-|Hl].
      * exists (String d hd). simpl. auto.
      * exists l. simpl. auto.
Qed.

(** ** The hostname validator *)

Lemma label_pattern_spec (l : string) :
  label_pattern l = true <-> l <> "" /\ forall c, contains c l -> in_label_class c.
Proof.
  unfold label_pattern. rewrite andb_true_iff, negb_true_iff, is_empty_false, all_chars_forall.
  split; intros [H1 H2]; split; auto; intros c Hc; apply label_char_class; auto.
Qed.

Lemma label_pattern_fails (l : string) :
  label_pattern l = false -> l = "" \/ exists c, contains c l /\ ~ in_label_class c.
Proof.
  unfold label_pattern. rewrite andb_false_iff, negb_false_iff, is_empty_true.
  intros [H|H]; [auto|]. right.
  unfold contains. induction l as [|d l IH]; simpl in *; [discriminate|].
  apply andb_false_iff in H. destruct H as [H|H].
  - exists d. split; [auto|]. intros Hc. apply label_char_class in Hc. congruence.
  - destruct (IH H) as [c [Hc Hn]]. exists c. auto.
Qed.

Lemma good_not_bad (l : string) : good_label l -> ~ bad_label l.
Proof.
  intros (Hne & Hcl & Hst & Hen) [H|[[c [Hc Hn]]|[[t H]|[t H]]]].
  - contradiction.
  - apply Hn, Hcl, Hc.
  - exact (Hst t H).
  - exact (Hen t H).
Qed.

Lemma check_labels_None (parts : list string) :
  check_labels parts = None <-> Forall good_label parts.
Proof.
  induction parts as [|l parts IH]; simpl.
  - split; [constructor | reflexivity].
  - destruct (JS.is_empty l) eqn:He.
    { apply is_empty_true in He. split; [discriminate|].
      intros H. inversion H as [|? ? [Hne _] _]. contradiction. }
    destruct (label_pattern l) eqn:Hp; simpl.
    2:{ split; [discriminate|]. intros H. inversion H as [|? ? (Hne & Hcl & _) _].
        assert (label_pattern l = true) by (apply label_pattern_spec; auto). congruence. }
    destruct (JS.startsWith "-" l) eqn:Hs; simpl.
    { apply startsWith_spec in Hs. destruct Hs as [t Ht].
      split; [discriminate|]. intros H. inversion H as [|? ? (_ & _ & Hst & _) _].
      destruct (Hst t Ht). }
    destruct (JS.endsWith "-" l) eqn:Hen.
    { apply endsWith_spec in Hen. destruct Hen as [t Ht].
      split; [discriminate|]. intros H. inversion H as [|? ? (_ & _ & _ & Hend) _].
      destruct (Hend t Ht). }
    rewrite IH. split.
    + intros H. constructor; [|assumption].
      apply label_pattern_spec in Hp. destruct Hp as [Hne Hcl].
      repeat split; auto.
      * intros t Ht. assert (JS.startsWith "-" l = true) by (apply startsWith_spec; eauto).
        congruence.
      * intros t Ht. assert (JS.endsWith "-" l = true) by (apply endsWith_spec; eauto).
        congruence.
    + intros H. inversion H. assumption.
Qed.

Lemma check_labels_Some (parts : list string) (e : string) :
  check_labels parts = Some e -> Exists bad_label parts.
Proof.
  induction parts as [|l parts IH]; simpl; [discriminate|].
  destruct (JS.is_empty l) eqn:He.
  { intros _. left. left. apply is_empty_true. assumption. }
  destruct (label_pattern l) eqn:Hp; simpl.
  2:{ intros _. left. destruct (label_pattern_fails l Hp) as [H|H]; [left|right; left]; auto. }
  destruct (JS.startsWith "-" l) eqn:Hs; simpl.
  { intros _. left. right. right. left. apply startsWith_spec. assumption. }
  destruct (JS.endsWith "-" l) eqn:Hen.
  { intros _. left. right. right. right. apply endsWith_spec. assumption. }
  intros H. right. auto.
Qed.

Lemma Exists_bad_not_Forall_good (parts : list string) :
  Exists bad_label parts -> ~ Forall good_label parts.
Proof.
  intros HE HF. apply Exists_exists in HE. destruct HE as [l [Hl Hb]].
  rewrite Forall_forall in HF. exact (good_not_bad l (HF l Hl) Hb).
Qed.

Section Validator.
Context `{B : Browser}.

Lemma normalize_hostname_string (s : string) :
  normalize_hostname (JStr s) = JS.toLowerCase (JS.trim s).
Proof. unfold normalize_hostname, js_or. destruct s; reflexivity. Qed.

(** The two outcomes of the hostname validator. *)
Lemma validateHostname_cases (raw : JsVal) :
  let n := normalize_hostname raw in
  (rejected_hostname n /\ exists e, validateHostname raw = Invalid e)
  \/ (~ rejected_hostname n /\ validateHostname raw = Valid n
      /\ contains "." n /\ Forall good_label (labels n)).
Proof.
  intros n. unfold validateHostname. fold n.
  destruct (JS.is_empty n) eqn:He.
  { left. split; [left; apply is_empty_true; assumption | eauto]. }
  destruct (JS.includes "/" n) eqn:H1; simpl.
  { left. split; [right; left; apply includes_contains; assumption | eauto]. }
  destruct (JS.includes " " n) eqn:H2; simpl.
  { left. split; [do 2 right; left; apply includes_contains; assumption | eauto]. }
  destruct (JS.includes ":" n) eqn:H3; simpl.
  { left. split; [do 3 right; left; apply includes_contains; assumption | eauto]. }
  destruct (JS.includes "?" n) eqn:H4; simpl.
  { left. split; [do 4 right; left; apply includes_contains; assumption | eauto]. }
  destruct (length (JS.split "." n) <? 2)%nat eqn:Hl.
  { apply Nat.ltb_lt in Hl. left. split; [do 5 right; left; exact Hl | eauto]. }
  apply Nat.ltb_ge in Hl.
  destruct (check_labels (JS.split "." n)) as [e|] eqn:Hc.
  { left. split; [do 6 right; eapply check_labels_Some; eassumption | eauto]. }
  right. apply check_labels_None in Hc.
  apply is_empty_false in He.
  apply includes_not_contains in H1, H2, H3, H4.
  repeat split; auto.
  - intros [H|[H|[H|[H|[H|[H|H]]]]]]; try contradiction.
    + unfold labels in H. lia.
    + exact (Exists_bad_not_Forall_good _ H Hc).
  - apply split_length. assumption.
Qed.


Lemma label_class_not_upper (c : ascii) : in_label_class c -> ~ is_upper c.
Proof. unfold in_label_class, is_upper. cbv zeta. lia. Qed.

(** C5. [validateHostname] trims and lower-cases its input and rejects
    exactly the inputs that are then empty, hold a slash, a space, a colon
    or a question mark, have fewer than two dot-separated labels, or have a
    label that is empty, holds a character outside [a-z0-9-], or starts or
    ends with a hyphen. Every accepted value is the trimmed, lower-cased
    input; it has no capital letter, it holds a dot, and each of its labels
    matches [[a-z0-9-]+] with no hyphen at either end. *)
Theorem validateHostname_accepts_exactly (raw : JsVal) :
  let n := JS.toLowerCase (JS.trim (ToString (js_or raw (JStr "")))) in
  (forall s, raw = JStr s -> n = JS.toLowerCase (JS.trim s))
  /\ (rejected_hostname n <-> exists e, validateHostname raw = Invalid e)
  /\ (~ rejected_hostname n <-> validateHostname raw = Valid n)
  /\ (forall h, validateHostname raw = Valid h ->
        h = n /\ (forall c, contains c h -> ~ is_upper c)
        /\ contains "." h /\ Forall good_label (labels h)).
Proof.
  intros n. change n with (normalize_hostname raw).
  pose proof (validateHostname_cases raw) as Hcases. cbv zeta in Hcases.
  split; [intros s ->; apply normalize_hostname_string|].
  destruct Hcases as [[Hrej [e He]]|(Hacc & Hv & Hdot & Hgood)].
  - rewrite He. repeat split; eauto; try tauto; try discriminate.
  - rewrite Hv. split; [|split].
    + split; [tauto | intros [e He]; discriminate].
    + tauto.
    + intros h Hh. injection Hh as <-. repeat split; auto.
      intros c Hc. destruct (split_contains "." c _ Hc) as [->|[l [Hl Hcl]]].
      * unfold is_upper. simpl. lia.
      * apply label_class_not_upper.
        unfold labels in Hgood. rewrite List.Forall_forall in Hgood.
        destruct (Hgood l Hl) as (_ & Hcls & _). auto.
Qed.

End Validator.

Lemma validateHostname_accepts_exactly_witness :
  @validateHostname Reference.browser (JStr "  Old.Example.COM ") = Valid "old.example.com"
  /\ Forall good_label (labels "old.example.com")
  /\ exists e, @validateHostname Reference.browser (JStr "-bad-.example") = Invalid e.
Proof.
  pose proof (@validateHostname_accepts_exactly Reference.browser (JStr "  Old.Example.COM "))
    as (_ & _ & _ & Hok).
  pose proof (@validateHostname_accepts_exactly Reference.browser (JStr "-bad-.example"))
    as (_ & Hrej & _).
  split; [reflexivity|]. split.
  - exact (proj2 (proj2 (proj2 (Hok "old.example.com" eq_refl)))).
  - apply Hrej. do 6 right. left. right. right. left. exists "bad-". reflexivity.
Defined.

(** ** The rule validator *)

Section RuleValidator.
Context `{B : Browser}.

(** C1. [validateRule] validates the hostname first: when that fails the
    result carries a [sourceError] only and is the same whatever the target
    URL is. With a valid hostname and an invalid target URL it carries a
    [targetError] only. The self-loop comparison of the two canonical
    hostnames decides only once both validated. On success the normalized
    rule has the draft's id when there is one and a newly minted id
    otherwise. *)
Theorem validateRule_order (rule : Draft) (n : nat) :
  (forall e, validateHostname (draft_source_hostname rule) = Invalid e ->
     forall other : Draft,
       draft_source_hostname other = draft_source_hostname rule ->
       validateRule other n = (RuleInvalid (Some e) None, n))
  /\ (forall h e,
        validateHostname (draft_source_hostname rule) = Valid h ->
        validateTargetUrl (draft_target_url rule) = Invalid e ->
        validateRule rule n = (RuleInvalid None (Some e), n))
  /\ (forall h t,
        validateHostname (draft_source_hostname rule) = Valid h ->
        validateTargetUrl (draft_target_url rule) = Valid t ->
        (target_hostname t = h ->
           validateRule rule n =
           (RuleInvalid None
              (Some "Target URL hostname cannot match source hostname (self-loop)."), n))
        /\ (target_hostname t <> h ->
              validateRule rule n =
              (RuleValid {| rule_id := if truthy (draft_id rule)
                                       then ToString (draft_id rule) else makeId n;
                            enabled := truthy (draft_enabled rule);
                            source_hostname := h;
                            target_url := target_value t |},
               if truthy (draft_id rule) then n else S n))).
Proof.
  split; [|split].
  - intros e He other Hsame. unfold validateRule. rewrite Hsame, He. reflexivity.
  - intros h e Hh He. unfold validateRule. rewrite Hh, He. reflexivity.
  - intros h t Hh Ht. unfold validateRule. rewrite Hh, Ht. split.
    + intros Heq. apply String.eqb_eq in Heq. rewrite Heq. reflexivity.
    + intros Hne. apply String.eqb_neq in Hne. rewrite Hne.
      destruct (truthy (draft_id rule)); reflexivity.
Qed.

End RuleValidator.

Lemma validateRule_order_witness :
  @validateRule Reference.browser
    {| draft_id := JUndefined; draft_enabled := JBool true;
       draft_source_hostname := JStr "old.example.com";
       draft_target_url := JStr "https://new.example.com/path" |} 0
  = (RuleValid {| rule_id := "9ef1057b-86f2-4173-8fd3-b55011ff657d"; enabled := true;
                  source_hostname := "old.example.com";
                  target_url := "https://new.example.com/path" |}, 1)
  /\ @validateRule Reference.browser
       {| draft_id := JStr "r1"; draft_enabled := JBool true;
          draft_source_hostname := JStr "example.com";
          draft_target_url := JStr "http://example.com" |} 0
     = (RuleInvalid None
          (Some "Target URL hostname cannot match source hostname (self-loop)."), 0)
  /\ @validateRule Reference.browser
       {| draft_id := JStr "r1"; draft_enabled := JBool true;
          draft_source_hostname := JStr "no dots";
          draft_target_url := JStr "not a url" |} 0
     = (RuleInvalid (Some "Hostname must not include scheme, path, spaces, or query.") None, 0).
Proof.
  split; [|split].
  - pose proof (@validateRule_order Reference.browser
      {| draft_id := JUndefined; draft_enabled := JBool true;
         draft_source_hostname := JStr "old.example.com";
         draft_target_url := JStr "https://new.example.com/path" |} 0) as (_ & _ & H).
    apply (H "old.example.com"
             {| target_value := "https://new.example.com/path";
                target_hostname := "new.example.com" |}); [reflexivity | reflexivity |].
    simpl. discriminate.
  - pose proof (@validateRule_order Reference.browser
      {| draft_id := JStr "r1"; draft_enabled := JBool true;
         draft_source_hostname := JStr "example.com";
         draft_target_url := JStr "http://example.com" |} 0) as (_ & _ & H).
    apply (H "example.com"
             {| target_value := "http://example.com/"; target_hostname := "example.com" |});
      reflexivity.
  - pose proof (@validateRule_order Reference.browser
      {| draft_id := JStr "r1"; draft_enabled := JBool true;
         draft_source_hostname := JStr "no dots";
         draft_target_url := JStr "not a url" |} 0) as (H & _).
    apply H; reflexivity.
Defined.

(** ** Persisting and reloading rules *)

Section RoundTrip.
Context `{B : Browser}.

Lemma app_not_empty (a : string) (c : ascii) (b : string) : a +:+ String c b <> "".
Proof. destruct a; discriminate. Qed.

Lemma uuid_digits_not_empty (bits i : N) (n : nat) : uuid_digits bits i (S n) <> "".
Proof.
  change (uuid_digits bits i (S n))
    with (if ((i =? 8) || (i =? 12) || (i =? 16) || (i =? 20))%N
          then String "-" (String (hex_digit (uuid_nibble bits i)) (uuid_digits bits (i + 1)%N n))
          else String (hex_digit (uuid_nibble bits i)) (uuid_digits bits (i + 1)%N n)).
  destruct ((i =? 8) || (i =? 12) || (i =? 16) || (i =? 20))%N; discriminate.
Qed.

Lemma uuid_string_not_empty (bits : N) : uuid_string bits <> "".
Proof. apply (uuid_digits_not_empty bits 0 31). Qed.

(** A minted id is never the empty string. *)
Lemma makeId_not_empty (n : nat) : makeId n <> "".
Proof.
  unfold makeId. destruct crypto_randomUUID as [gen|].
  - apply uuid_string_not_empty.
  - apply app_not_empty.
Qed.

Lemma ToString_or_empty (s : string) : ToString (js_or (JStr s) (JStr "")) = s.
Proof. unfold js_or. destruct s; reflexivity. Qed.

Lemma truthy_JStr (s : string) : truthy (JStr s) = true <-> s <> "".
Proof. simpl. rewrite negb_true_iff. apply is_empty_false. Qed.

Lemma rule_to_js_properties (r : Rule) :
  get_property (rule_to_js r) "id" = Some (JStr (rule_id r))
  /\ get_property (rule_to_js r) "enabled" = Some (JBool (enabled r))
  /\ get_property (rule_to_js r) "source_hostname" = Some (JStr (source_hostname r))
  /\ get_property (rule_to_js r) "target_url" = Some (JStr (target_url r)).
Proof. repeat split. Qed.


(** Reloading a stored rule: the same rule when its id is not empty. *)
Lemma load_item_rule_to_js (r : Rule) (n : nat) :
  exists r' n', load_item (rule_to_js r) n = Some (r', n')
                /\ (rule_id r <> "" -> r' = r /\ n' = n).
Proof.
  unfold load_item.
  destruct (rule_to_js_properties r) as (-> & -> & -> & ->).
  destruct (truthy (JStr (rule_id r))) eqn:Hid.
  - eexists _, _. split; [reflexivity|]. intros _.
    rewrite !ToString_or_empty. simpl. destruct r as [id [] s t]; auto.
  - eexists _, _. split; [reflexivity|]. intros Hne.
    apply truthy_JStr in Hne. congruence.
Qed.

Lemma load_items_rules (rs : list Rule) (n : nat) :
  exists rs' n',
    load_items (List.map rule_to_js rs) n = (Some rs', n')
    /\ length rs' = length rs
    /\ forall i r, rs !! i = Some r -> rule_id r <> "" -> rs' !! i = Some r.
Proof.
  revert n. induction rs as [|r rs IH]; intros n; simpl.
  - exists [], n. repeat split. intros i r Hi. rewrite lookup_nil in Hi. discriminate.
  - destruct (load_item_rule_to_js r n) as (r' & n' & -> & Hr).
    destruct (IH n') as (rs' & n'' & -> & Hlen & Hrs).
    exists (r' :: rs'), n''. simpl. repeat split; [congruence|].
    intros [|i] x Hx Hne; simpl in *.
    + injection Hx as ->. destruct (Hr Hne) as [-> _]. reflexivity.
    + eauto.
Qed.

Lemma next_lastError_succeed (k : nat) (w : World) :
  calls_succeed (S k) w -> next_lastError w = None.
Proof.
  unfold calls_succeed, next_lastError. destruct (lastErrors w) as [|e es]; [reflexivity|].
  simpl. intros H. inversion H. assumption.
Qed.

Lemma calls_succeed_tail (k : nat) (w w' : World) :
  calls_succeed (S k) w -> lastErrors w' = tail (lastErrors w) -> calls_succeed k w'.
Proof.
  unfold calls_succeed. intros H ->. destruct (lastErrors w) as [|e es]; simpl in *.
  - rewrite take_nil. constructor.
  - inversion H. assumption.
Qed.

(** A write that succeeds leaves the payload in the area the page uses. *)
Lemma storageSet_success (payload : gmap string JsVal) (w : World) :
  next_lastError w = None ->
  exists w1, storageSet payload w = (Fulfilled tt, w1)
             /\ getStorageArea w1 = getStorageArea w
             /\ area_contents (getStorageArea w1) w1
                = payload ∪ area_contents (getStorageArea w) w
             /\ lastErrors w1 = tail (lastErrors w)
             /\ minted w1 = minted w.
Proof.
  intros Hok. unfold storageSet. rewrite Hok. eexists. split; [reflexivity|].
  unfold getStorageArea, area_contents. simpl.
  destruct (sync_area w); simpl; auto.
Qed.

Lemma area_get_one (contents : gmap string JsVal) (key : string) :
  area_get contents [key] !! key = contents !! key.
Proof.
  unfold area_get. simpl. destruct (contents !! key) eqn:H.
  - apply lookup_insert_eq.
  - apply lookup_empty.
Qed.

Lemma storageGet_success (key : string) (w : World) :
  next_lastError w = None ->
  exists result w1, storageGet key w = (result, w1)
    /\ result !! key = area_contents (getStorageArea w) w !! key
    /\ minted w1 = minted w /\ lastErrors w1 = tail (lastErrors w).
Proof.
  intros Hok. unfold storageGet, get_from. rewrite Hok.
  eexists _, _. split; [reflexivity|]. split; [apply area_get_one | split; reflexivity].
Qed.


Lemma renderRules_frame (p : Page) (w : World) :
  rules (renderRules p w).1 = rules p
  /\ metrics (renderRules p w).1 = metrics p
  /\ settings (renderRules p w).1 = settings p
  /\ lastErrors (renderRules p w).2 = lastErrors w
  /\ sync_area (renderRules p w).2 = sync_area w
  /\ local_area (renderRules p w).2 = local_area w
  /\ calls (renderRules p w).2 = calls w.
Proof. unfold renderRules. destruct (render_rows (rules p) (minted w)). repeat split. Qed.

(** Writing the list and reading it back: every rule with a non-empty id
    comes back unchanged, at its position. *)
Lemma persist_then_load (p q : Page) (w : World) :
  calls_succeed 2 w ->
  exists w1 q' w2,
    persistRules p w = (Fulfilled tt, w1)
    /\ loadRules q w1 = (Fulfilled tt, q', w2)
    /\ length (rules q') = length (rules p)
    /\ forall i r, rules p !! i = Some r -> rule_id r <> "" -> rules q' !! i = Some r.
Proof.
  intros Hok. unfold persistRules.
  destruct (storageSet_success {[STORAGE_KEY := JArr (List.map rule_to_js (rules p))]} w)
    as (w1 & -> & Harea & Hcont & Herr & _); [eapply next_lastError_succeed; eassumption|].
  assert (Hok1 : calls_succeed 1 w1) by (eapply calls_succeed_tail; eassumption).
  exists w1. unfold loadRules.
  destruct (storageGet_success STORAGE_KEY w1) as (result & w1' & -> & Hres & Hm & _);
    [eapply next_lastError_succeed; eassumption|].
  rewrite Hres, Hcont.
  rewrite (lookup_union_l' _ _ STORAGE_KEY) by (rewrite lookup_singleton_eq; eauto).
  rewrite lookup_singleton_eq. simpl.
  destruct (load_items_rules (rules p) (minted w1')) as (rs' & n' & -> & Hlen & Hrs).
  pose proof (renderRules_frame (set_rules rs' q) (set_minted n' w1')) as (Hr & _).
  destruct (renderRules (set_rules rs' q) (set_minted n' w1')) as [q' w2].
  exists q', w2. simpl in Hr. rewrite Hr. auto.
Qed.

(** The id of a normalized rule is not empty when the draft's id is a
    string or missing. *)
Lemma validateRule_id_not_empty (rule : Draft) (n n' : nat) (normalized : Rule) :
  string_or_missing (draft_id rule) ->
  validateRule rule n = (RuleValid normalized, n') ->
  rule_id normalized <> "".
Proof.
  intros Hid. unfold validateRule.
  destruct (validateHostname (draft_source_hostname rule)); [discriminate|].
  destruct (validateTargetUrl (draft_target_url rule)); [discriminate|].
  destruct (String.eqb _ _); [discriminate|].
  destruct (truthy (draft_id rule)) eqn:Ht; intros H; injection H as <- _; simpl.
  - destruct (draft_id rule); try contradiction; try discriminate.
    apply truthy_JStr. assumption.
  - apply makeId_not_empty.
Qed.

(** C2. A rule accepted and normalized by [validateRule] from a draft whose
    id is a string or missing, once in the list, written by [persistRules]
    and read back by [loadRules] from the same storage, is found again at
    its position with the same id, enabled flag, source hostname and target
    URL. *)
Theorem validated_rule_round_trip
    (rule : Draft) (n n' : nat) (normalized : Rule) (p q : Page) (w : World) (i : nat) :
  string_or_missing (draft_id rule) ->
  validateRule rule n = (RuleValid normalized, n') ->
  rules p !! i = Some normalized ->
  calls_succeed 2 w ->
  exists w1 q' w2 reloaded,
    persistRules p w = (Fulfilled tt, w1)
    /\ loadRules q w1 = (Fulfilled tt, q', w2)
    /\ rules q' !! i = Some reloaded
    /\ rule_id reloaded = rule_id normalized
    /\ enabled reloaded = enabled normalized
    /\ source_hostname reloaded = source_hostname normalized
    /\ target_url reloaded = target_url normalized.
Proof.
  intros Hid Hv Hi Hok.
  destruct (persist_then_load p q w Hok) as (w1 & q' & w2 & Hp & Hl & _ & Hrs).
  exists w1, q', w2, normalized. repeat split; auto.
  apply Hrs; [assumption|]. eapply validateRule_id_not_empty; eassumption.
Qed.

End RoundTrip.

Lemma validated_rule_round_trip_witness :
  exists w1 q' w2 reloaded,
    persistRules
      (set_rules [ {| rule_id := "9ef1057b-86f2-4173-8fd3-b55011ff657d"; enabled := true;
                      source_hostname := "old.example.com";
                      target_url := "https://new.example.com/path" |} ] initial_page)
      Reference.world = (Fulfilled tt, w1)
    /\ @loadRules Reference.browser initial_page w1 = (Fulfilled tt, q', w2)
    /\ rules q' !! 0 = Some reloaded
    /\ rule_id reloaded = "9ef1057b-86f2-4173-8fd3-b55011ff657d"
    /\ enabled reloaded = true
    /\ source_hostname reloaded = "old.example.com"
    /\ target_url reloaded = "https://new.example.com/path".
Proof.
  apply (@validated_rule_round_trip Reference.browser
           {| draft_id := JUndefined; draft_enabled := JBool true;
              draft_source_hostname := JStr "old.example.com";
              draft_target_url := JStr "https://new.example.com/path" |} 0 1
           {| rule_id := "9ef1057b-86f2-4173-8fd3-b55011ff657d"; enabled := true;
              source_hostname := "old.example.com";
              target_url := "https://new.example.com/path" |}
           (set_rules [ {| rule_id := "9ef1057b-86f2-4173-8fd3-b55011ff657d"; enabled := true;
                           source_hostname := "old.example.com";
                           target_url := "https://new.example.com/path" |} ] initial_page)
           initial_page Reference.world 0).
  - exact I.
  - reflexivity.
  - reflexivity.
  - constructor.
Defined.

(** ** Loading rules *)

Section Loading.
Context `{B : Browser}.






End Loading.



(** ** Settings *)

Section SettingsNormalizer.
Context `{B : Browser}.

(** What is not an object normalizes to the unset rate. *)
Lemma normalizeSettings_not_object (raw : JsVal) :
  typeof_object raw = false \/ raw = JNull ->
  normalizeSettings raw = {| hourly_rate := None |}.
Proof.
  unfold normalizeSettings. intros [H| ->]; [|reflexivity].
  rewrite H. rewrite orb_true_r. reflexivity.
Qed.

(** A rate stored as a number is kept as it is when finite and not
    negative, and dropped otherwise. *)
Lemma normalizeSettings_number (m : gmap string JsVal) (rate : float) :
  m !! "hourly_rate" = Some (JNum rate) ->
  normalizeSettings (JObj m) =
  {| hourly_rate := if Num.isFinite rate && negb (rate <? 0)%float then Some rate else None |}.
Proof.
  intros Hm. unfold normalizeSettings. simpl. rewrite Hm. simpl.
  destruct (Num.isFinite rate), (rate <? 0)%float; reflexivity.
Qed.

(** C4 fails on the code at a rate of [null]: [Number(null)] is 0, so the
    unset settings, as [persistSettings] writes them, are normalized to an
    hourly rate of 0 instead of [null]. *)
Theorem normalizeSettings_null_rate_is_zero :
  normalizeSettings (settings_to_js {| hourly_rate := None |})
  = {| hourly_rate := Some 0%float |}.
Proof. reflexivity. Qed.

(** The same through the page: the user clears the hourly-rate field, the
    page stores the unset rate, and the change notification for that very
    write sets the rate to 0 and shows 0.00 in the field. *)
Lemma cleared_rate_comes_back_as_zero (p : Page) (w w1 : World) (p1 : Page) :
  sync_area w = Some ∅ ->
  hourlyRate_input "" p w = (p1, w1) ->
  hourly_rate (settings p1) = None
  /\ forall old,
       let p2 := (onChanged {[ SETTINGS_KEY := {| oldValue := old;
                                                  newValue := settings_to_js (settings p1) |} ]}
                    "sync" p1 w1).1 in
       hourly_rate (settings p2) = Some 0%float.
Proof.
  intros Hsync. unfold hourlyRate_input. simpl.
  unfold persistSettings, storageSet.
  destruct (next_lastError w); intros H; injection H as <- <-; simpl.
  all: split; [reflexivity|]; intros old; unfold onChanged; simpl.
  all: unfold getStorageArea; rewrite Hsync; simpl; reflexivity.
Qed.

End SettingsNormalizer.

(** ** Digits: printing with [toFixed] and reading back *)

Lemma take_drop_chars (n : nat) (s : string) :
  JS.take_chars n s +:+ JS.drop_chars n s = s.
Proof.
  revert s. induction n as [|n IH]; intros [|c s]; try reflexivity.
  simpl JS.take_chars. simpl JS.drop_chars. rewrite app_String, IH. reflexivity.
Qed.

Lemma length_app (a b : string) :
  String.length (a +:+ b) = String.length a + String.length b.
Proof. induction a as [|c a IH]; [reflexivity|]. rewrite app_String. simpl. lia. Qed.

Lemma length_drop_chars (n : nat) (s : string) :
  String.length (JS.drop_chars n s) = String.length s - n.
Proof. revert s. induction n as [|n IH]; intros [|c s]; simpl; auto. Qed.

Lemma length_take_chars (n : nat) (s : string) :
  n <= String.length s -> String.length (JS.take_chars n s) = n.
Proof.
  revert s. induction n as [|n IH]; intros [|c s]; simpl; try lia.
  intros H. rewrite IH; lia.
Qed.

Lemma all_chars_app (p : ascii -> bool) (a b : string) :
  JS.all_chars p (a +:+ b) = JS.all_chars p a && JS.all_chars p b.
Proof.
  induction a as [|c a IH]; [reflexivity|].
  rewrite app_String. simpl. rewrite IH, andb_assoc. reflexivity.
Qed.

Lemma digit_value_digit (c : ascii) :
  is_digit c = true -> Num.digit_value 10 c = Some (N_of_ascii c - 48)%N.
Proof.
  unfold is_digit, Num.digit_value. cbv zeta. intros H. rewrite H.
  apply andb_true_iff in H. destruct H as [H1 H2].
  apply N.leb_le in H1, H2.
  assert (Hlt : (N_of_ascii c - 48 <? 10)%N = true) by (apply N.ltb_lt; lia).
  rewrite Hlt. reflexivity.
Qed.

Lemma digit_value_not_digit (c : ascii) :
  is_digit c = false -> Num.digit_value 10 c = None.
Proof.
  unfold is_digit, Num.digit_value. cbv zeta. intros H. rewrite H.
  destruct ((97 <=? N_of_ascii c) && (N_of_ascii c <=? 102))%N eqn:Ha.
  { apply andb_true_iff in Ha. destruct Ha as [H1 H2]. apply N.leb_le in H1, H2.
    assert (Hlt : (N_of_ascii c - 87 <? 10)%N = false) by (apply N.ltb_ge; lia).
    rewrite Hlt. reflexivity. }
  destruct ((65 <=? N_of_ascii c) && (N_of_ascii c <=? 70))%N eqn:Hb; [|reflexivity].
  apply andb_true_iff in Hb. destruct Hb as [H1 H2]. apply N.leb_le in H1, H2.
  assert (Hlt : (N_of_ascii c - 55 <? 10)%N = false) by (apply N.ltb_ge; lia).
  rewrite Hlt. reflexivity.
Qed.

(** Scanning a run of digits that ends the string or stops at a character
    that is not a digit. *)
Lemma scan_digits_app (d rest : string) (acc : N) (len : nat) :
  JS.all_chars is_digit d = true ->
  (forall c t, rest = String c t -> is_digit c = false) ->
  Num.scan_digits acc len (d +:+ rest)
  = (read_digits acc d, len + String.length d, rest).
Proof.
  intros Hd Hrest. revert acc len. induction d as [|c d IH]; intros acc len.
  - rewrite app_empty. simpl. rewrite Nat.add_0_r.
    destruct rest as [|c t]; [reflexivity|].
    simpl. rewrite (digit_value_not_digit c (Hrest c t eq_refl)). reflexivity.
  - simpl in Hd. apply andb_true_iff in Hd. destruct Hd as [Hc Hd].
    rewrite app_String. simpl. rewrite (digit_value_digit c Hc), (IH Hd).
    f_equal. f_equal. lia.
Qed.

Lemma read_digits_app (a b : string) (acc : N) :
  read_digits acc (a +:+ b) = read_digits (read_digits acc a) b.
Proof.
  revert acc. induction a as [|c a IH]; intros acc; [reflexivity|].
  rewrite app_String. simpl. apply IH.
Qed.

Lemma read_digits_zeros (n : nat) (s : string) :
  read_digits 0 (Num.zeros n +:+ s) = read_digits 0 s.
Proof. induction n as [|n IH]; [reflexivity|]. simpl Num.zeros. rewrite app_String. exact IH. Qed.

Lemma all_digits_zeros (n : nat) : JS.all_chars is_digit (Num.zeros n) = true.
Proof. induction n as [|n IH]; [reflexivity|]. simpl. exact IH. Qed.

Lemma length_zeros (n : nat) : String.length (Num.zeros n) = n.
Proof. induction n as [|n IH]; [reflexivity|]. simpl. rewrite IH. reflexivity. Qed.

Lemma pretty_N_char_digit (x : N) :
  (x < 10)%N ->
  is_digit (pretty_N_char x) = true /\ (N_of_ascii (pretty_N_char x) - 48)%N = x.
Proof.
  intros Hx.
  assert (x = 0 \/ x = 1 \/ x = 2 \/ x = 3 \/ x = 4 \/ x = 5 \/ x = 6 \/ x = 7 \/ x = 8
          \/ x = 9)%N as H by lia.
  repeat (destruct H as [->|H]; [split; reflexivity|]). subst. split; reflexivity.
Qed.

(** The digits [pretty] puts in front of [s] are digits, and read as [x]. *)
Lemma pretty_N_go_digits (x : N) (s : string) :
  (JS.all_chars is_digit s = true -> JS.all_chars is_digit (pretty_N_go x s) = true)
  /\ read_digits 0 (pretty_N_go x s) = read_digits x s
  /\ String.length s <= String.length (pretty_N_go x s)
  /\ ((0 < x)%N -> String.length s < String.length (pretty_N_go x s)).
Proof.
  revert s. induction (N.lt_wf_0 x) as [x _ IH]. intros s.
  destruct (N.eq_dec x 0%N) as [->|Hx].
  - rewrite pretty_N_go_0. repeat split; auto. lia.
  - assert (Hpos : (0 < x)%N) by lia.
    rewrite pretty_N_go_step by assumption.
    assert (Hlt : (x `div` 10 < x)%N) by (apply N.div_lt; lia).
    destruct (IH _ Hlt (String (pretty_N_char (x `mod` 10)) s)) as (Hall & Hread & Hlen & _).
    destruct (pretty_N_char_digit (x `mod` 10)) as [Hdig Hval];
      [apply N.mod_lt; lia|].
    repeat split.
    + intros Hs. apply Hall. simpl. rewrite Hdig, Hs. reflexivity.
    + rewrite Hread. simpl. rewrite Hval. f_equal.
      rewrite (N.div_mod x 10) at 3 by lia. reflexivity.
    + simpl in Hlen. lia.
    + intros _. simpl in Hlen. lia.
Qed.

Lemma pretty_N_digits (n : N) :
  JS.all_chars is_digit (pretty n) = true
  /\ read_digits 0 (pretty n) = n
  /\ 0 < String.length (pretty n).
Proof.
  unfold pretty, pretty_N. destruct (decide (n = 0%N)) as [->|Hn].
  - repeat split. simpl. lia.
  - destruct (pretty_N_go_digits n "") as (Hall & Hread & _ & Hlen).
    repeat split; auto. simpl in Hlen. apply Hlen. lia.
Qed.

Lemma app_empty_r (s : string) : s +:+ "" = s.
Proof. induction s as [|c s IH]; [reflexivity|]. rewrite app_String, IH. reflexivity. Qed.

Lemma all_chars_impl (p q : ascii -> bool) (s : string) :
  (forall c, p c = true -> q c = true) ->
  JS.all_chars p s = true -> JS.all_chars q s = true.
Proof.
  intros Hpq. induction s as [|c s IH]; [reflexivity|]. simpl.
  rewrite !andb_true_iff. intros [Hc Hs]. auto.
Qed.

Lemma digit_or_point_not (c l : ascii) :
  digit_or_point c = true -> digit_or_point l = false -> Ascii.eqb c l = false.
Proof.
  intros Hc Hl. destruct (Ascii.eqb_spec c l) as [->|]; [congruence | reflexivity].
Qed.

Lemma digit_not_whitespace (c : ascii) :
  digit_or_point c = true -> JS.is_whitespace c = false.
Proof.
  unfold digit_or_point, is_digit, JS.is_whitespace. cbv zeta.
  rewrite orb_true_iff, andb_true_iff, !N.leb_le. intros [[H1 H2]|H].
  - rewrite !orb_false_iff, andb_false_iff, !N.leb_gt, !N.eqb_neq. lia.
  - apply Ascii.eqb_eq in H. subst. reflexivity.
Qed.

Lemma trimEnd_no_whitespace (s : string) :
  JS.all_chars digit_or_point s = true -> JS.trimEnd s = s.
Proof.
  induction s as [|c s IH]; [reflexivity|]. simpl.
  rewrite andb_true_iff. intros [Hc Hs]. rewrite (IH Hs).
  destruct s; [rewrite (digit_not_whitespace c Hc)|]; reflexivity.
Qed.

Lemma trim_no_whitespace (s : string) :
  JS.all_chars digit_or_point s = true -> JS.trim s = s.
Proof.
  intros Hs. unfold JS.trim.
  assert (Hstart : JS.trimStart s = s).
  { destruct s as [|c s]; [reflexivity|]. simpl in *.
    apply andb_true_iff in Hs. destruct Hs as [Hc _].
    rewrite (digit_not_whitespace c Hc). reflexivity. }
  rewrite Hstart. apply trimEnd_no_whitespace. assumption.
Qed.

Lemma is_digit_point (c : ascii) : is_digit c = true -> digit_or_point c = true.
Proof. unfold digit_or_point. intros ->. reflexivity. Qed.

(** Reading digits, a point and digits: the digits as one integer, scaled
    by the number of digits after the point. *)
Lemma read_decimal_point (a b : string) :
  JS.all_chars is_digit a = true -> JS.all_chars is_digit b = true ->
  0 < String.length a ->
  Num.StringToNumber (a +:+ "." +:+ b)
  = Num.decimal_value false (read_digits 0 (a +:+ b)) (- Z.of_nat (String.length b)).
Proof.
  intros Ha Hb Hlen.
  assert (Hall : JS.all_chars digit_or_point (a +:+ "." +:+ b) = true).
  { rewrite !all_chars_app. rewrite (all_chars_impl _ _ a is_digit_point Ha).
    rewrite (all_chars_impl _ _ b is_digit_point Hb). reflexivity. }
  unfold Num.StringToNumber. rewrite (trim_no_whitespace _ Hall).
  assert (Hunsigned : Num.unsigned_decimal (a +:+ "." +:+ b)
                      = Some (read_digits 0 (a +:+ b), (- Z.of_nat (String.length b))%Z)).
  { unfold Num.unsigned_decimal.
    rewrite (scan_digits_app a ("." +:+ b) 0 0 Ha)
      by (intros c t Hc; rewrite app_String, app_empty in Hc; injection Hc as <- _; reflexivity).
    rewrite app_String, app_empty. simpl JS.startsWith. simpl JS.drop_chars. cbv iota.
    rewrite <- (app_empty_r b) at 1.
    rewrite (scan_digits_app b "" _ 0 Hb) by discriminate.
    rewrite read_digits_app.
    destruct (0 + String.length a + (0 + String.length b) =? 0)%nat eqn:Hz;
      [apply Nat.eqb_eq in Hz; lia|].
    simpl Num.exponent_part. cbv iota. do 2 f_equal. }
  destruct a as [|c0 a']; [simpl in Hlen; lia|].
  rewrite (app_String c0 a') in *. simpl in Ha, Hall.
  apply andb_true_iff in Ha. destruct Ha as [Hc0 Ha'].
  apply andb_true_iff in Hall. destruct Hall as [Hp0 Hall].
  simpl JS.is_empty. cbv iota.
  assert (Hnd : Num.non_decimal (String c0 (a' +:+ "." +:+ b)) = None).
  { unfold Num.non_decimal. destruct (a' +:+ "." +:+ b) as [|c t] eqn:Hrest; [reflexivity|].
    simpl in Hall. apply andb_true_iff in Hall. destruct Hall as [Hc _].
    rewrite (digit_or_point_not c "x"), (digit_or_point_not c "X"),
      (digit_or_point_not c "o"), (digit_or_point_not c "O"),
      (digit_or_point_not c "b"), (digit_or_point_not c "B") by (assumption || reflexivity).
    simpl. destruct (negb (Ascii.eqb c0 "0")); reflexivity. }
  rewrite Hnd. unfold Num.split_sign.
  rewrite (digit_or_point_not c0 "-"), (digit_or_point_not c0 "+") by (assumption || reflexivity).
  simpl String.eqb. rewrite (digit_or_point_not c0 "I") by (assumption || reflexivity).
  simpl andb. cbv iota.
  rewrite Hunsigned. reflexivity.
Qed.

(** The text [toFixed] builds from the integer [n]: digits, a point and
    exactly [f] digits, which together read as [n]. *)
Lemma fixed_digits_shape (f : nat) (n : N) :
  0 < f ->
  exists a b,
    Num.fixed_digits f n = a +:+ "." +:+ b
    /\ JS.all_chars is_digit a = true /\ JS.all_chars is_digit b = true
    /\ 0 < String.length a /\ String.length b = f
    /\ read_digits 0 (a +:+ b) = n.
Proof.
  intros Hf. unfold Num.fixed_digits.
  destruct (pretty_N_digits n) as (Hall & Hread & Hlen).
  set (m := if (String.length (pretty n) <=? f)%nat then _ else _).
  assert (Hm : JS.all_chars is_digit m = true /\ read_digits 0 m = n
               /\ f < String.length m).
  { subst m. destruct (String.length (pretty n) <=? f)%nat eqn:Hle.
    - apply Nat.leb_le in Hle.
      rewrite all_chars_app, all_digits_zeros, Hall, read_digits_zeros, Hread,
        length_app, length_zeros.
      repeat split. lia.
    - apply Nat.leb_gt in Hle. auto. }
  destruct Hm as (Hmall & Hmread & Hmlen). cbv zeta.
  destruct f as [|f']; [lia|].
  exists (JS.take_chars (String.length m - S f') m), (JS.drop_chars (String.length m - S f') m).
  pose proof (take_drop_chars (String.length m - S f') m) as Htd.
  rewrite <- Htd, all_chars_app in Hmall. apply andb_true_iff in Hmall.
  destruct Hmall as [Ha Hb].
  repeat split; auto.
  - rewrite length_take_chars; lia.
  - rewrite length_drop_chars. lia.
  - rewrite Htd. assumption.
Qed.

Lemma decimal_value_cents (n : Z) :
  (0 <= n)%Z -> Num.decimal_value false (Z.to_N n) (-2) = Num.of_Q (n # 100).
Proof. intros Hn. destruct n as [|p|p]; [reflexivity | reflexivity | lia]. Qed.

(** A finite number has an exact value. *)
Lemma exact_of_finite (x : float) :
  Num.isFinite x = true -> exists q, Num.exact x = Some q.
Proof.
  unfold Num.isFinite, is_finite, Num.exact, Prim2SF.
  destruct (is_nan x); [discriminate|]. destruct (is_zero x); [eauto|].
  destruct (is_infinity x); [discriminate|]. intros _.
  destruct (Z.frexp x) as [r e]. destruct (shr_fexp _ _ _ _ _) as [shr e'].
  destruct (shr_m shr); eauto.
Qed.

(** A number that is not below zero has a value that is not below zero. *)
Lemma exact_not_negative (x : float) (q : Q) :
  Num.exact x = Some q -> (x <? 0)%float = false -> (0 <= q)%Q.
Proof.
  unfold Num.exact. rewrite ltb_spec.
  change (Prim2SF 0) with (S754_zero false).
  destruct (Prim2SF x) as [s|s| |s m e]; try discriminate.
  - intros H _. injection H as <-. apply Qle_refl.
  - destruct s; [discriminate|]. intros H _. injection H as <-.
    unfold Qle. destruct e; simpl; lia.
Qed.

Lemma Qle_bool_false (a b : Q) : Qle_bool a b = false <-> (b < a)%Q.
Proof.
  split.
  - intros H. apply Qnot_le_lt. intros Hle. apply Qle_bool_iff in Hle. congruence.
  - intros Hlt. destruct (Qle_bool a b) eqn:E; [|reflexivity].
    apply Qle_bool_iff in E. apply Qlt_not_le in Hlt. contradiction.
Qed.

Section HourlyRate.
Context `{B : Browser}.

(** [x.toFixed(f)] below 1e21 in magnitude: a sign for a negative value,
    digits, a point and [f] digits. *)
Lemma toFixed_shape (f : nat) (x : float) (q : Q) :
  0 < f -> Num.exact x = Some q -> (Qabs q < 10 ^ 21 # 1)%Q ->
  exists a b,
    Num.toFixed f x = (if Qle_bool 0 q then "" else "-") +:+ a +:+ "." +:+ b
    /\ JS.all_chars is_digit a = true /\ JS.all_chars is_digit b = true
    /\ 0 < String.length a /\ String.length b = f.
Proof.
  intros Hf Hx Hbig. unfold Num.toFixed. rewrite Hx.
  apply Qle_bool_false in Hbig. rewrite Hbig.
  destruct (fixed_digits_shape f
              (Z.to_N (Qfloor (Qabs q * (10 ^ Z.of_nat f # 1) + (1 # 2)))) Hf)
    as (a & b & -> & Ha & Hb & Hla & Hlb & _).
  exists a, b. destruct (Qle_bool 0 q); auto.
Qed.

(** [Number(x.toFixed(2))] for a number from 0 up to 1e21: the double
    nearest to the value rounded to hundredths. *)
Lemma toFixed_2_read_back (x : float) (q : Q) :
  Num.exact x = Some q -> (0 <= q)%Q -> (q < 10 ^ 21 # 1)%Q ->
  Num.StringToNumber (Num.toFixed 2 x) = rounded_to_cents q.
Proof.
  intros Hx Hq Hbig. unfold Num.toFixed. rewrite Hx.
  assert (Hle : Qle_bool 0 q = true) by (apply Qle_bool_iff; assumption).
  rewrite Hle. simpl negb.
  assert (Habs : Qabs q == q) by (apply Qabs_pos; assumption).
  assert (Hnb : Qle_bool (10 ^ 21 # 1) (Qabs q) = false).
  { apply Qle_bool_false. rewrite Habs. assumption. }
  rewrite Hnb, app_empty.
  destruct (fixed_digits_shape 2
              (Z.to_N (Qfloor (Qabs q * (10 ^ Z.of_nat 2 # 1) + (1 # 2)))))
    as (a & b & -> & Ha & Hb & Hla & Hlb & Hread); [lia|].
  rewrite (read_decimal_point a b Ha Hb Hla), Hread, Hlb.
  assert (Hfloor : Qfloor (Qabs q * (10 ^ Z.of_nat 2 # 1) + (1 # 2))
                   = Qfloor (q * (100 # 1) + (1 # 2))).
  { apply Qfloor_comp. rewrite Habs. reflexivity. }
  rewrite Hfloor. unfold rounded_to_cents.
  apply (decimal_value_cents (Qfloor (q * (100 # 1) + (1 # 2)))).
  change 0%Z with (Qfloor 0). apply Qfloor_resp_le.
  assert (H0 : (0 <= q * (100 # 1))%Q) by (apply Qmult_le_0_compat; [assumption | discriminate]).
  assert (H1 : (0 <= 1 # 2)%Q) by discriminate.
  pose proof (Qplus_le_compat _ _ _ _ H0 H1) as H. rewrite Qplus_0_l in H. exact H.
Qed.


#[local] Set Warnings "-inexact-float".

(** C6. [validateHourlyRate] accepts an empty or all-white-space input with
    the value [null]; rejects an input that [Number] does not read as a
    finite number as not a number; rejects one read as a number below zero
    as negative; and accepts any other with [Number(parsed.toFixed(2))],
    which, below 1e21, is the double nearest to the parsed value rounded to
    two decimals, halves up. The empty string gives [null], -1 is rejected
    as negative and 12.345 gives 12.35. *)
Theorem validateHourlyRate_cases (raw : string) :
  (JS.trim raw = "" -> validateHourlyRate (JStr raw) = Valid None)
  /\ (JS.trim raw <> "" ->
        Num.isFinite (Num.StringToNumber (JS.trim raw)) = false ->
        validateHourlyRate (JStr raw) = Invalid "Hourly rate must be a valid number.")
  /\ (JS.trim raw <> "" ->
        Num.isFinite (Num.StringToNumber (JS.trim raw)) = true ->
        (Num.StringToNumber (JS.trim raw) <? 0)%float = true ->
        validateHourlyRate (JStr raw) = Invalid "Hourly rate cannot be negative.")
  /\ (JS.trim raw <> "" ->
        Num.isFinite (Num.StringToNumber (JS.trim raw)) = true ->
        (Num.StringToNumber (JS.trim raw) <? 0)%float = false ->
        validateHourlyRate (JStr raw)
        = Valid (Some (Num.StringToNumber (Num.toFixed 2 (Num.StringToNumber (JS.trim raw)))))
        /\ exists q,
             Num.exact (Num.StringToNumber (JS.trim raw)) = Some q /\ (0 <= q)%Q
             /\ ((q < 10 ^ 21 # 1)%Q ->
                 Num.StringToNumber (Num.toFixed 2 (Num.StringToNumber (JS.trim raw)))
                 = rounded_to_cents q))
  /\ validateHourlyRate (JStr "") = Valid None
  /\ validateHourlyRate (JStr "   ") = Valid None
  /\ validateHourlyRate (JStr "abc") = Invalid "Hourly rate must be a valid number."
  /\ validateHourlyRate (JStr "-1") = Invalid "Hourly rate cannot be negative."
  /\ validateHourlyRate (JStr "12.345") = Valid (Some 12.35%float).
Proof.
  unfold validateHourlyRate. rewrite ToString_or_empty.
  split; [intros ->; reflexivity|].
  split; [intros Hne Hf; apply is_empty_false in Hne; rewrite Hne, Hf; reflexivity|].
  split; [intros Hne Hf Hneg; apply is_empty_false in Hne; rewrite Hne, Hf, Hneg; reflexivity|].
  split.
  { intros Hne Hf Hneg. apply is_empty_false in Hne. rewrite Hne, Hf, Hneg.
    split; [reflexivity|].
    destruct (exact_of_finite _ Hf) as [q Hq]. exists q.
    pose proof (exact_not_negative _ q Hq Hneg) as Hpos.
    repeat split; auto. intros Hbig. apply toFixed_2_read_back; assumption. }
  repeat split; vm_compute; reflexivity.
Qed.

End HourlyRate.

(** ** Change notifications *)

Section Reconciliation.
Context `{B : Browser}.

Lemma using_sync_area_name (w : World) (areaName : string) :
  bool_decide (is_Some (sync_area w)) && String.eqb areaName "sync"
  || negb (bool_decide (is_Some (sync_area w))) && String.eqb areaName "local"
  = String.eqb areaName (area_name (getStorageArea w)).
Proof.
  unfold getStorageArea. destruct (sync_area w); simpl.
  - rewrite orb_false_r. reflexivity.
  - reflexivity.
Qed.


End Reconciliation.

(** ** Row edits that fail validation *)

Section RowEdits.
Context `{B : Browser}.

Lemma findIndex_position (id : string) (i : nat) (l : list Rule) :
  position_of id i l -> findIndex id l = Some i.
Proof.
  intros [(r & Hr & Hid) Hfirst]. unfold findIndex.
  assert (H : list_find (fun item => rule_id item = id) l = Some (i, r)).
  { apply list_find_Some. repeat split; auto.
    intros j y Hy Hj. exact (Hfirst j y Hj Hy). }
  rewrite H. reflexivity.
Qed.

Lemma set_row_inputs_lookup (k : nat) (f : Row -> Row) (p : Page) (row : Row) :
  rulesBody p !! k = Some row ->
  rulesBody (set_row_inputs k f p) !! k = Some (f row)
  /\ rules (set_row_inputs k f p) = rules p.
Proof.
  intros Hk. unfold set_row_inputs. rewrite Hk. simpl. split; [|reflexivity].
  apply list_lookup_insert_eq. eapply lookup_lt_Some. eassumption.
Qed.

Lemma setRowErrors_rules (k : nat) (a b : string) (p : Page) :
  rules (setRowErrors k a b p) = rules p.
Proof. unfold setRowErrors. destruct (rulesBody p !! k); reflexivity. Qed.

Lemma unvalidated_stored (row : Row) : unvalidated row = stored_unvalidated row.
Proof.
  unfold unvalidated, stored_unvalidated, row_draft. simpl.
  rewrite !ToString_or_empty. reflexivity.
Qed.

(** An invalid draft without leave to persist: only the error cells change. *)
Lemma update_invalid_stops (k : nat) (p : Page) (w : World) (row : Row) :
  rulesBody p !! k = Some row ->
  fails_validation (row_draft row) (minted w) ->
  rules (updateRuleFromInputs false k p w).1 = rules p
  /\ areas (updateRuleFromInputs false k p w).2 = areas w
  /\ calls (updateRuleFromInputs false k p w).2 = calls w.
Proof.
  intros Hk (se & te & Hv). unfold updateRuleFromInputs. rewrite Hk.
  destruct (validateRule (row_draft row) (minted w)) as [validation n].
  simpl in Hv. subst validation. simpl.
  rewrite setRowErrors_rules. repeat split.
Qed.

(** An invalid draft with leave to persist: the rule at the position of the
    row's id is overwritten and the whole list is written. *)
Lemma update_invalid_persists (k i : nat) (p : Page) (w : World) (row : Row) :
  rulesBody p !! k = Some row ->
  fails_validation (row_draft row) (minted w) ->
  position_of (rule_id (row_rule row)) i (rules p) ->
  rules (updateRuleFromInputs true k p w).1 = <[i := stored_unvalidated row]> (rules p)
  /\ calls (updateRuleFromInputs true k p w).2
     = calls w ++ [CallSet (getStorageArea w)
                     {[ STORAGE_KEY :=
                          JArr (List.map rule_to_js (<[i := stored_unvalidated row]> (rules p))) ]}]
  /\ (next_lastError w = None ->
      area_contents (getStorageArea w) (updateRuleFromInputs true k p w).2 !! STORAGE_KEY
      = Some (JArr (List.map rule_to_js (<[i := stored_unvalidated row]> (rules p))))).
Proof.
  intros Hk (se & te & Hv) Hpos. unfold updateRuleFromInputs. rewrite Hk.
  destruct (validateRule (row_draft row) (minted w)) as [validation n].
  simpl in Hv. subst validation. cbv beta iota zeta. simpl negb. cbv iota.
  rewrite setRowErrors_rules, (findIndex_position _ _ _ Hpos), unvalidated_stored.
  unfold persistRules.
  set (p2 := set_rules _ _).
  change (rules p2) with (<[i := stored_unvalidated row]> (rules p)).
  unfold storageSet.
  change (next_lastError (set_minted n w)) with (next_lastError w).
  change (getStorageArea (set_minted n w)) with (getStorageArea w).
  destruct (next_lastError w) as [message|]; simpl.
  - repeat split. discriminate.
  - repeat split. intros _. unfold getStorageArea, area_contents.
    destruct (sync_area w); simpl;
      (rewrite (lookup_union_l' _ _ STORAGE_KEY) by (rewrite lookup_singleton_eq; eauto));
      apply lookup_singleton_eq.
Qed.

Lemma findIndex_None (id : string) (l : list Rule) :
  Forall (fun r => rule_id r <> id) l -> findIndex id l = None.
Proof.
  intros Hall. unfold findIndex.
  rewrite (proj2 (list_find_None (fun item => rule_id item = id) l)); [reflexivity|].
  exact Hall.
Qed.

(** An edit of a row whose id no rule carries: [findIndex] gives -1 and the
    listener returns before touching the list or storage. *)
Lemma update_no_index (allow : bool) (k : nat) (row : Row) (p : Page) (w : World) :
  rulesBody p !! k = Some row ->
  Forall (fun r => rule_id r <> rule_id (row_rule row)) (rules p) ->
  rules (updateRuleFromInputs allow k p w).1 = rules p
  /\ areas (updateRuleFromInputs allow k p w).2 = areas w
  /\ calls (updateRuleFromInputs allow k p w).2 = calls w.
Proof.
  intros Hk Hall. unfold updateRuleFromInputs. rewrite Hk.
  destruct (validateRule (row_draft row) (minted w)) as [validation n].
  cbv beta iota zeta.
  destruct (match validation with RuleInvalid _ _ => negb allow | RuleValid _ => false end);
    [destruct validation; cbn [fst snd]; rewrite setRowErrors_rules; repeat split|].
  assert (Hnone : forall a b,
             findIndex (rule_id (row_rule row)) (rules (setRowErrors k a b p)) = None).
  { intros a b. rewrite setRowErrors_rules. apply findIndex_None. exact Hall. }
  destruct validation; rewrite Hnone; cbn [fst snd]; rewrite setRowErrors_rules;
    repeat split.
Qed.

(** C10. A row edit whose draft fails [validateRule]: when it comes from
    the hostname field or the target field, the rules list and the storage
    areas stay as they were and no storage call is made. When it comes from
    the checkbox, what happens depends on the row's id: if a rule of the
    list carries it, the draft, with its hostname trimmed and lower-cased
    and its URL trimmed, replaces the first such rule, which need not be the
    rule the row was drawn from, and the whole list is written under the
    rules key; if no rule carries it, the list and the storage areas stay as
    they were and no storage call is made. *)
Theorem invalid_row_edit (k : nat) (row : Row) (p : Page) (w : World) :
  rulesBody p !! k = Some row ->
  (forall text,
     fails_validation (row_draft (with_source text row)) (minted w) ->
     rules (source_input k text p w).1 = rules p
     /\ areas (source_input k text p w).2 = areas w
     /\ calls (source_input k text p w).2 = calls w)
  /\ (forall text,
        fails_validation (row_draft (with_target text row)) (minted w) ->
        rules (target_input k text p w).1 = rules p
        /\ areas (target_input k text p w).2 = areas w
        /\ calls (target_input k text p w).2 = calls w)
  /\ (forall checked i,
        fails_validation (row_draft (with_enabled checked row)) (minted w) ->
        position_of (rule_id (row_rule row)) i (rules p) ->
        rules (enabled_change k checked p w).1
        = <[i := {| rule_id := rule_id (row_rule row);
                    enabled := checked;
                    source_hostname := JS.toLowerCase (JS.trim (sourceInput row));
                    target_url := JS.trim (targetInput row) |}]> (rules p)
        /\ calls (enabled_change k checked p w).2
           = calls w ++ [CallSet (getStorageArea w)
                           {[ STORAGE_KEY :=
                                JArr (List.map rule_to_js
                                        (rules (enabled_change k checked p w).1)) ]}]
        /\ (next_lastError w = None ->
            area_contents (getStorageArea w) (enabled_change k checked p w).2 !! STORAGE_KEY
            = Some (JArr (List.map rule_to_js (rules (enabled_change k checked p w).1)))))
  /\ (forall checked,
        fails_validation (row_draft (with_enabled checked row)) (minted w) ->
        Forall (fun r => rule_id r <> rule_id (row_rule row)) (rules p) ->
        rules (enabled_change k checked p w).1 = rules p
        /\ areas (enabled_change k checked p w).2 = areas w
        /\ calls (enabled_change k checked p w).2 = calls w).
Proof.
  intros Hk. split; [|split; [|split]].
  - intros text Hv. unfold source_input.
    destruct (set_row_inputs_lookup k (with_source text) p row Hk) as [Hrow Hrules].
    rewrite <- Hrules. apply (update_invalid_stops k _ w _ Hrow Hv).
  - intros text Hv. unfold target_input.
    destruct (set_row_inputs_lookup k (with_target text) p row Hk) as [Hrow Hrules].
    rewrite <- Hrules. apply (update_invalid_stops k _ w _ Hrow Hv).
  - intros checked i Hv Hpos. unfold enabled_change.
    destruct (set_row_inputs_lookup k (with_enabled checked) p row Hk) as [Hrow Hrules].
    rewrite <- Hrules in Hpos.
    destruct (update_invalid_persists k i _ w _ Hrow Hv Hpos) as (H1 & H2 & H3).
    rewrite Hrules in H1, H2, H3. rewrite H1. auto.
  - intros checked _ Hnone. unfold enabled_change.
    destruct (set_row_inputs_lookup k (with_enabled checked) p row Hk) as [Hrow Hrules].
    rewrite <- Hrules. apply (update_no_index true k _ _ w Hrow).
    rewrite Hrules. exact Hnone.
Qed.

End RowEdits.

Lemma invalid_row_edit_witness :
  rules (@source_input Reference.browser 0 "no dots" Reference.page1 Reference.world).1
  = [Reference.rule1]
  /\ rules (@enabled_change Reference.browser 0 false Reference.page1 Reference.world).1
     = [ {| rule_id := "r1"; enabled := false; source_hostname := "bad host";
            target_url := "https://new.example.com/" |} ]
  /\ sync_area (@enabled_change Reference.browser 0 false Reference.page1 Reference.world).2
     = Some {[ STORAGE_KEY :=
                 JArr [rule_to_js {| rule_id := "r1"; enabled := false;
                                     source_hostname := "bad host";
                                     target_url := "https://new.example.com/" |}] ]}.
Proof.
  destruct (@invalid_row_edit Reference.browser 0 Reference.row1 Reference.page1
              Reference.world eq_refl) as (Hsource & _ & Henabled & _).
  split; [|split].
  - apply (Hsource "no dots"). eexists _, _. reflexivity.
  - apply (Henabled false 0).
    + eexists _, _. reflexivity.
    + split; [exists Reference.rule1; split; reflexivity | intros j r Hj; lia].
  - vm_compute. reflexivity.
Defined.

(** C10 as stated fails for the checkbox: the draft is not always written
    at the row's rule, nor the list always persisted. First session: one
    rule is loaded, the user makes its hostname invalid and clicks delete,
    the write fails, so the row stays while its rule is gone from the list;
    toggling the row then writes nothing, neither to the list nor to
    storage. Second session: two stored rules share an id; the user makes
    the hostname of the second row invalid and toggles it, and the draft
    overwrites the first rule while the second, the row's own, stays as it
    was. *)
Lemma invalid_toggle_misses_the_rule :
  (rulesBody
     (Reference.session Reference.world_failing_write
        [EditSource 0 "  Bad Host "; ClickDelete 0; ToggleEnabled 0 false]).1
   = [ {| row_rule := Reference.rule1; enabledInput := false;
          sourceInput := "  Bad Host "; targetInput := "https://new.example.com/";
          sourceErrorEl := "Hostname must not include scheme, path, spaces, or query.";
          targetErrorEl := "" |} ]
   /\ rules
        (Reference.session Reference.world_failing_write
           [EditSource 0 "  Bad Host "; ClickDelete 0; ToggleEnabled 0 false]).1
      = []
   /\ calls
        (Reference.session Reference.world_failing_write
           [EditSource 0 "  Bad Host "; ClickDelete 0; ToggleEnabled 0 false]).2
      = [CallGet SyncArea [STORAGE_KEY]; CallGet LocalArea [METRICS_KEY];
         CallGet SyncArea [SETTINGS_KEY];
         CallSet SyncArea {[ STORAGE_KEY := JArr [] ]}]
   /\ sync_area
        (Reference.session Reference.world_failing_write
           [EditSource 0 "  Bad Host "; ClickDelete 0; ToggleEnabled 0 false]).2
      = Some {[ STORAGE_KEY := JArr [rule_to_js Reference.rule1] ]})
  /\ rules
       (Reference.session
          (Reference.world_storing STORAGE_KEY
             (JArr [rule_to_js Reference.twin1; rule_to_js Reference.twin2]))
          [EditSource 1 "bad host"; ToggleEnabled 1 false]).1
     = [ {| rule_id := "r1"; enabled := false; source_hostname := "bad host";
            target_url := "https://new.example.com/" |};
         Reference.twin2 ].
Proof. repeat split; vm_compute; reflexivity. Qed.

(** ** Derived metrics *)

Section Calculator.
Context `{B : Browser}.

(** C9. The minutes saved are the redirect count times 17.5. The money
    shown is [minutesSaved * (hourly_rate / 60)] when a rate is set and zero
    dollars when none is. An amount of 1000 or more is shown as a dollar
    sign, [(value / 1000).toFixed(1)] and a k, that is, up to 1e24, the
    thousands, a point, one digit and a k; a smaller amount in the currency
    format with two decimals. With the rate typed as 20 and four
    redirects, in the en-US browser: 70 minutes, shown as 1h 10m, and
    $23.33. *)
Theorem derived_metrics (p : Page) :
  minutesSaved (metrics p) = (total_redirects (metrics p) * 17.5)%float
  /\ timeSavedSummary (renderMetricsSummary p)
     = formatDurationFromMinutes (total_redirects (metrics p) * 17.5)%float
  /\ (forall rate,
        hourly_rate (settings p) = Some rate -> Num.isFinite rate = true ->
        moneySavedSummary (renderMetricsSummary p)
        = formatMoneyCompact (minutesSaved (metrics p) * (rate / 60))%float)
  /\ (hourly_rate (settings p) = None ->
        moneySavedSummary (renderMetricsSummary p) = "$0.00")
  /\ (forall value, (1000 <=? value)%float = true ->
        formatMoneyCompact value = "$" +:+ Num.toFixed 1 (value / 1000)%float +:+ "k")
  /\ (forall value q,
        (1000 <=? value)%float = true ->
        Num.exact (value / 1000)%float = Some q -> (Qabs q < 10 ^ 21 # 1)%Q ->
        exists thousands tenth,
          formatMoneyCompact value
          = "$" +:+ (if Qle_bool 0 q then "" else "-") +:+ thousands +:+ "."
            +:+ String tenth "" +:+ "k"
          /\ JS.all_chars is_digit thousands = true /\ 0 < String.length thousands
          /\ is_digit tenth = true)
  /\ (forall value, (1000 <=? value)%float = false ->
        formatMoneyCompact value = Intl_currency value)
  /\ (let p4 := set_metrics {| total_redirects := 4; per_rule := JObj ∅ |} initial_page in
      let typed := (@hourlyRate_input Reference.browser "20" p4 Reference.world).1 in
      hourly_rate (settings typed) = Some 20%float
      /\ minutesSaved (metrics typed) = 70%float
      /\ timeSavedSummary typed = "1h 10m"
      /\ moneySavedSummary typed = "$23.33").
Proof.
  repeat split.
  - intros rate Hr Hf. simpl. rewrite Hr, Hf. reflexivity.
  - intros Hr. simpl. rewrite Hr. reflexivity.
  - intros value Hv. unfold formatMoneyCompact. rewrite Hv. reflexivity.
  - intros value q Hv Hq Hbig. unfold formatMoneyCompact. rewrite Hv.
    destruct (toFixed_shape 1 _ q (Nat.lt_0_1) Hq Hbig) as (a & b & -> & Ha & Hb & Hla & Hlb).
    destruct b as [|d [|d' b]]; try discriminate.
    exists a, d. simpl in Hb. rewrite andb_true_r in Hb.
    repeat split; auto.
    rewrite <- !app_assoc_str. reflexivity.
  - intros value Hv. unfold formatMoneyCompact. rewrite Hv. reflexivity.
Qed.

End Calculator.

(** ** Storage failures *)

Section Failures.
Context `{B : Browser}.

Lemma get_from_failure (a : AreaName) (label : string) (keys : list string)
    (w : World) (message : string) :
  next_lastError w = Some message ->
  (get_from a label keys w).1 = ∅
  /\ areas (get_from a label keys w).2 = areas w
  /\ calls (get_from a label keys w).2 = calls w ++ [CallGet a keys].
Proof. intros H. unfold get_from. rewrite H. repeat split. Qed.

Lemma storageSet_failure (payload : gmap string JsVal) (w : World) (message : string) :
  next_lastError w = Some message ->
  exists w', storageSet payload w = (Rejected message, w')
             /\ areas w' = areas w
             /\ calls w' = calls w ++ [CallSet (getStorageArea w) payload].
Proof. intros H. unfold storageSet. rewrite H. eexists. repeat split. Qed.

Lemma loadRules_of_items (p : Page) (w : World) (items : list JsVal) (rs : list Rule) (n : nat) :
  (if Array_isArray (default JUndefined ((storageGet STORAGE_KEY w).1 !! STORAGE_KEY))
   then array_items (default JUndefined ((storageGet STORAGE_KEY w).1 !! STORAGE_KEY))
   else []) = items ->
  load_items items (minted (storageGet STORAGE_KEY w).2) = (Some rs, n) ->
  exists p' w', loadRules p w = (Fulfilled tt, p', w') /\ rules p' = rs.
Proof.
  unfold loadRules. destruct (storageGet STORAGE_KEY w) as [result w1]. simpl fst; simpl snd.
  intros -> ->.
  pose proof (renderRules_frame (set_rules rs p) (set_minted n w1)) as (Hr & _).
  destruct (renderRules (set_rules rs p) (set_minted n w1)) as [p' w'].
  exists p', w'. split; [reflexivity | exact Hr].
Qed.

Lemma loadMetrics_unfold (p : Page) (w : World) :
  loadMetrics p w
  = renderRules
      (renderMetricsSummary
         (set_metrics
            (normalizeMetrics
               (default JUndefined ((localStorageGet [METRICS_KEY] w).1 !! METRICS_KEY))) p))
      (localStorageGet [METRICS_KEY] w).2.
Proof. unfold loadMetrics. destruct (localStorageGet [METRICS_KEY] w). reflexivity. Qed.

(** C8. When the storage call at hand fails: a read resolves with the
    empty mapping, so [loadRules], [loadMetrics] and [loadSettings] complete
    with the empty list, the zero metrics and the unset rate; a write is
    rejected with the error's message after that one call, storage
    unchanged; and a listener whose write is rejected keeps the change it
    made to the page's state (the added rule at the end of the list, the
    list without the deleted rule, the rule replaced by a row edit, the new
    hourly rate), reports the failure and does not call storage again. *)
Theorem storage_failure_policy (p : Page) (w : World) (message : string) :
  next_lastError w = Some message ->
  (forall key, (storageGet key w).1 = ∅)
  /\ (forall keys, (localStorageGet keys w).1 = ∅)
  /\ (exists p' w', loadRules p w = (Fulfilled tt, p', w') /\ rules p' = [])
  /\ metrics (loadMetrics p w).1 = no_metrics
  /\ settings (loadSettings p w).1 = {| hourly_rate := None |}
  /\ (forall payload,
        exists w', storageSet payload w = (Rejected message, w')
                   /\ areas w' = areas w
                   /\ calls w' = calls w ++ [CallSet (getStorageArea w) payload])
  /\ (exists w', persistRules p w = (Rejected message, w'))
  /\ (forall normalized n,
        validateRule (submitted_draft p w) (S (minted w)) = (RuleValid normalized, n) ->
        rules (addRuleForm_submit p w).1 = rules p ++ [normalized]
        /\ formMessage (addRuleForm_submit p w).1
           = ("Failed to save rule: " +:+ message, Some "error")
        /\ areas (addRuleForm_submit p w).2 = areas w
        /\ calls (addRuleForm_submit p w).2
           = calls w ++ [CallSet (getStorageArea w)
                           {[ STORAGE_KEY :=
                                JArr (List.map rule_to_js (rules p ++ [normalized])) ]}])
  /\ (forall k row,
        rulesBody p !! k = Some row ->
        rules (delete_click k p w).1
        = filter (fun item => rule_id item <> rule_id (row_rule row)) (rules p)
        /\ formMessage (delete_click k p w).1
           = ("Failed to delete rule: " +:+ message, Some "error")
        /\ areas (delete_click k p w).2 = areas w
        /\ calls (delete_click k p w).2
           = calls w ++ [CallSet (getStorageArea w)
                           {[ STORAGE_KEY :=
                                JArr (List.map rule_to_js (rules (delete_click k p w).1)) ]}])
  /\ (forall k row allowPersistOnInvalid normalized n i,
        rulesBody p !! k = Some row ->
        validateRule (row_draft row) (minted w) = (RuleValid normalized, n) ->
        position_of (rule_id (row_rule row)) i (rules p) ->
        rules (updateRuleFromInputs allowPersistOnInvalid k p w).1
        = <[i := normalized]> (rules p)
        /\ formMessage (updateRuleFromInputs allowPersistOnInvalid k p w).1
           = ("Failed to save rules: " +:+ message, Some "error")
        /\ areas (updateRuleFromInputs allowPersistOnInvalid k p w).2 = areas w
        /\ calls (updateRuleFromInputs allowPersistOnInvalid k p w).2
           = calls w ++ [CallSet (getStorageArea w)
                           {[ STORAGE_KEY :=
                                JArr (List.map rule_to_js (<[i := normalized]> (rules p))) ]}])
  /\ (forall text value,
        validateHourlyRate (JStr text) = Valid value ->
        settings (hourlyRate_input text p w).1 = {| hourly_rate := value |}
        /\ formMessage (hourlyRate_input text p w).1
           = ("Failed to save hourly rate: " +:+ message, Some "error")
        /\ areas (hourlyRate_input text p w).2 = areas w
        /\ calls (hourlyRate_input text p w).2
           = calls w ++ [CallSet (getStorageArea w)
                           {[ SETTINGS_KEY := settings_to_js {| hourly_rate := value |} ]}]).
Proof.
  intros Hfail.
  split; [intros key; unfold storageGet; eapply get_from_failure; eassumption|].
  split; [intros keys; unfold localStorageGet; eapply get_from_failure; eassumption|].
  split.
  { apply (loadRules_of_items p w [] [] (minted (storageGet STORAGE_KEY w).2)).
    - unfold storageGet. rewrite (proj1 (get_from_failure _ _ _ _ _ Hfail)), lookup_empty.
      reflexivity.
    - reflexivity. }
  split.
  { rewrite loadMetrics_unfold.
    match goal with |- context [renderRules ?a ?b] =>
      pose proof (renderRules_frame a b) as (_ & Hm & _); rewrite Hm
    end.
    unfold localStorageGet. rewrite (proj1 (get_from_failure _ _ _ _ _ Hfail)), lookup_empty.
    reflexivity. }
  split.
  { unfold loadSettings, storageGet, get_from. rewrite Hfail, lookup_empty. reflexivity. }
  split; [intros payload; apply storageSet_failure; assumption|].
  split.
  { destruct (storageSet_failure
                {[STORAGE_KEY := JArr (List.map rule_to_js (rules p))]} w message Hfail)
      as (w' & Hw & _). exists w'. exact Hw. }
  split.
  { intros normalized n Hv. unfold addRuleForm_submit.
    change {| draft_id := JStr (makeId (minted w)); draft_enabled := JBool true;
              draft_source_hostname := JStr (newSourceHostnameInput p);
              draft_target_url := JStr (newTargetUrlInput p) |}
      with (submitted_draft p w).
    rewrite Hv. unfold persistRules.
    destruct (storageSet_failure
                {[STORAGE_KEY := JArr (List.map rule_to_js (rules p ++ [normalized]))]}
                (set_minted n w) message Hfail) as (w' & Hset & Ha & Hc).
    change (rules (set_rules (rules p ++ [normalized]) p)) with (rules p ++ [normalized]).
    rewrite Hset. repeat split; assumption. }
  split.
  { intros k row Hk. unfold delete_click. rewrite Hk. unfold persistRules.
    set (kept := filter (fun item => rule_id item <> rule_id (row_rule row)) (rules p)).
    change (rules (set_rules kept p)) with kept.
    destruct (storageSet_failure {[STORAGE_KEY := JArr (List.map rule_to_js kept)]}
                w message Hfail) as (w' & Hset & Ha & Hc).
    rewrite Hset. repeat split; assumption. }
  split.
  { intros k row allow normalized n i Hk Hv Hpos. unfold updateRuleFromInputs.
    rewrite Hk, Hv. cbv beta iota zeta.
    rewrite setRowErrors_rules, (findIndex_position _ _ _ Hpos). unfold persistRules.
    set (p2 := set_rules _ _).
    change (rules p2) with (<[i := normalized]> (rules p)).
    destruct (storageSet_failure
                {[STORAGE_KEY := JArr (List.map rule_to_js (<[i := normalized]> (rules p)))]}
                (set_minted n w) message Hfail) as (w' & Hset & Ha & Hc).
    rewrite Hset. repeat split; assumption. }
  intros text value Hv. unfold hourlyRate_input.
  change (hourlyRateInput (set_hourlyRateInput text p)) with text. rewrite Hv.
  unfold persistSettings.
  set (p1 := renderMetricsSummary _).
  change (settings p1) with {| hourly_rate := value |}.
  destruct (storageSet_failure {[SETTINGS_KEY := settings_to_js {| hourly_rate := value |}]}
              w message Hfail) as (w' & Hset & Ha & Hc).
  rewrite Hset. repeat split; assumption.
Qed.

End Failures.

Lemma storage_failure_policy_witness :
  rules (@addRuleForm_submit Reference.browser
           (set_new_inputs "old.example.com" "https://new.example.com/path" initial_page)
           {| sync_area := Some ∅; local_area := ∅; lastErrors := [Some "QUOTA_BYTES exceeded"];
              minted := 0; console := []; calls := [] |}).1
  = [ {| rule_id := "9ef1057b-86f2-4173-8fd3-b55011ff657d"; enabled := true;
         source_hostname := "old.example.com";
         target_url := "https://new.example.com/path" |} ]
  /\ formMessage (@addRuleForm_submit Reference.browser
           (set_new_inputs "old.example.com" "https://new.example.com/path" initial_page)
           {| sync_area := Some ∅; local_area := ∅; lastErrors := [Some "QUOTA_BYTES exceeded"];
              minted := 0; console := []; calls := [] |}).1
     = ("Failed to save rule: QUOTA_BYTES exceeded", Some "error").
Proof.
  pose proof (@storage_failure_policy Reference.browser
    (set_new_inputs "old.example.com" "https://new.example.com/path" initial_page)
    {| sync_area := Some ∅; local_area := ∅; lastErrors := [Some "QUOTA_BYTES exceeded"];
       minted := 0; console := []; calls := [] |}
    "QUOTA_BYTES exceeded" eq_refl) as (_ & _ & _ & _ & _ & _ & _ & H & _).
  destruct (H {| rule_id := "9ef1057b-86f2-4173-8fd3-b55011ff657d"; enabled := true;
                 source_hostname := "old.example.com";
                 target_url := "https://new.example.com/path" |} 1 eq_refl)
    as (Hrules & Hmsg & _).
  split; [exact Hrules | exact Hmsg].
Defined.

(** ** Further properties of the store *)

Section Store.
Context `{B : Browser}.

(** X1. [normalizeMetrics] never fails: [null], [undefined] and the empty
    object all give the zero metrics, a total that is not a finite number
    counts as 0 and a [per_rule] that is not an object as the empty one. *)
Theorem normalizeMetrics_zero_value :
  normalizeMetrics JNull = no_metrics
  /\ normalizeMetrics JUndefined = no_metrics
  /\ normalizeMetrics (JObj ∅) = no_metrics
  /\ (forall m, Number_isFinite (default JUndefined (m !! "total_redirects")) = false ->
        total_redirects (normalizeMetrics (JObj m)) = zero)
  /\ (forall m total, m !! "total_redirects" = Some (JNum total) -> Num.isFinite total = true ->
        total_redirects (normalizeMetrics (JObj m)) = total)
  /\ (forall m, typeof_object (default JUndefined (m !! "per_rule")) = false ->
        per_rule (normalizeMetrics (JObj m)) = JObj ∅).
Proof.
  repeat split.
  - intros m H. unfold normalizeMetrics. simpl. rewrite H. reflexivity.
  - intros m total Hm Hf. unfold normalizeMetrics. simpl. rewrite Hm. simpl. rewrite Hf.
    reflexivity.
  - intros m H. unfold normalizeMetrics. simpl. rewrite H, andb_false_r. reflexivity.
Qed.

(** X2. Writing the rules twice with no change in between stores the same
    content as writing them once. *)
Theorem persistRules_idempotent (p : Page) (w : World) :
  calls_succeed 2 w ->
  exists w1 w2,
    persistRules p w = (Fulfilled tt, w1)
    /\ persistRules p w1 = (Fulfilled tt, w2)
    /\ areas w2 = areas w1.
Proof.
  intros Hok. unfold persistRules.
  set (payload := {[STORAGE_KEY := JArr (List.map rule_to_js (rules p))]}).
  destruct (storageSet_success payload w) as (w1 & H1 & Ha1 & Hc1 & He1 & _);
    [eapply next_lastError_succeed; eassumption|].
  assert (Hok1 : calls_succeed 1 w1) by (eapply calls_succeed_tail; eassumption).
  destruct (storageSet_success payload w1) as (w2 & H2 & Ha2 & Hc2 & _);
    [eapply next_lastError_succeed; eassumption|].
  exists w1, w2. repeat split; auto.
  assert (Hsame : area_contents (getStorageArea w2) w2 = area_contents (getStorageArea w1) w1).
  { rewrite Hc2, Hc1. apply map_eq. intros k.
    rewrite !lookup_union. destruct (payload !! k), (area_contents (getStorageArea w) w !! k);
      reflexivity. }
  clear - H2 Hsame Ha2. unfold storageSet in H2.
  destruct (next_lastError w1); [discriminate|]. injection H2 as <-.
  unfold areas, getStorageArea, area_contents in *. simpl in *.
  destruct (sync_area w1); simpl in *; congruence.
Qed.

(** X3. An accepted rule is no self-loop: the lower-cased hostname of its
    target URL differs from its source hostname. *)
Theorem accepted_rule_is_no_self_loop (rule : Draft) (n n' : nat) (normalized : Rule) :
  validateRule rule n = (RuleValid normalized, n') ->
  exists target,
    validateTargetUrl (draft_target_url rule) = Valid target
    /\ target_url normalized = target_value target
    /\ target_hostname target <> source_hostname normalized
    /\ validateHostname (draft_source_hostname rule) = Valid (source_hostname normalized).
Proof.
  unfold validateRule.
  destruct (validateHostname (draft_source_hostname rule)) as [|h]; [discriminate|].
  destruct (validateTargetUrl (draft_target_url rule)) as [|t]; [discriminate|].
  destruct (String.eqb (target_hostname t) h) eqn:Heq; [discriminate|].
  apply String.eqb_neq in Heq.
  destruct (truthy (draft_id rule)); intros H; injection H as <- _; exists t; auto.
Qed.

Lemma load_items_nullish (items : list JsVal) (n : nat) :
  Exists nullish items -> exists n', load_items items n = (None, n').
Proof.
  intros Hnull. revert n.
  induction Hnull as [item rest Hitem|item rest _ IH]; intros n; simpl.
  - destruct Hitem as [-> | ->]; simpl; eauto.
  - destruct (load_item item n) as [[r n1]|]; [|eauto].
    destruct (IH n1) as [n2 ->]. simpl. eauto.
Qed.

(** X4. A stored array holding [null] or [undefined] makes [loadRules]
    reject with the TypeError of reading [id]; the rules list and the rows
    stay as they were, and the top-level call reports the failure. *)
Theorem loadRules_rejects_null_item (q : Page) (w : World) (items : list JsVal) :
  next_lastError w = None ->
  stored_rules w = JArr items ->
  Exists nullish items ->
  exists w',
    loadRules q w = (Rejected (TypeError_message "id"), q, w')
    /\ rules (start_loadRules q w).1 = rules q
    /\ formMessage (start_loadRules q w).1
       = ("Failed to load rules: " +:+ TypeError_message "id", Some "error").
Proof.
  intros Hok Hstored Hnull. unfold start_loadRules, loadRules.
  destruct (storageGet_success STORAGE_KEY w Hok) as (result & w1 & -> & Hres & _ & _).
  unfold stored_rules in Hstored. rewrite Hres, Hstored. simpl Array_isArray. cbv iota.
  simpl array_items.
  destruct (load_items_nullish items (minted w1) Hnull) as [n' ->].
  eexists. repeat split.
Qed.

End Store.

Lemma persistRules_idempotent_witness :
  exists w1 w2,
    persistRules Reference.page1 Reference.world = (Fulfilled tt, w1)
    /\ persistRules Reference.page1 w1 = (Fulfilled tt, w2)
    /\ areas w2 = areas w1.
Proof. apply (persistRules_idempotent Reference.page1 Reference.world). constructor. Defined.

Lemma accepted_rule_is_no_self_loop_witness :
  exists target,
    @validateTargetUrl Reference.browser (JStr "https://new.example.com/path") = Valid target
    /\ "https://new.example.com/path" = target_value target
    /\ target_hostname target <> "old.example.com"
    /\ @validateHostname Reference.browser (JStr "old.example.com") = Valid "old.example.com".
Proof.
  apply (@accepted_rule_is_no_self_loop Reference.browser
           {| draft_id := JUndefined; draft_enabled := JBool true;
              draft_source_hostname := JStr "old.example.com";
              draft_target_url := JStr "https://new.example.com/path" |} 0 1
           {| rule_id := "9ef1057b-86f2-4173-8fd3-b55011ff657d"; enabled := true;
              source_hostname := "old.example.com";
              target_url := "https://new.example.com/path" |}).
  reflexivity.
Defined.

Lemma loadRules_rejects_null_item_witness :
  exists w',
    @loadRules Reference.browser Reference.page1
      (Reference.world_storing STORAGE_KEY (JArr [rule_to_js Reference.rule1; JNull]))
    = (Rejected "Cannot read properties of null (reading 'id')", Reference.page1, w').
Proof.
  destruct (@loadRules_rejects_null_item Reference.browser Reference.page1
              (Reference.world_storing STORAGE_KEY (JArr [rule_to_js Reference.rule1; JNull]))
              [rule_to_js Reference.rule1; JNull] eq_refl eq_refl) as (w' & H & _).
  - right. left. left. reflexivity.
  - exists w'. exact H.
Defined.

(** ** More on the hostname validator *)

Lemma trimEnd_all_chars (p : ascii -> bool) (s : string) :
  (forall c, p c = true -> JS.is_whitespace c = false) ->
  JS.all_chars p s = true -> JS.trimEnd s = s.
Proof.
  intros Hp. induction s as [|c s IH]; [reflexivity|]. simpl.
  rewrite andb_true_iff. intros [Hc Hs]. rewrite (IH Hs).
  destruct s; [rewrite (Hp c Hc)|]; reflexivity.
Qed.

(** Trimming a string without white space changes nothing. *)
Lemma trim_all_chars (p : ascii -> bool) (s : string) :
  (forall c, p c = true -> JS.is_whitespace c = false) ->
  JS.all_chars p s = true -> JS.trim s = s.
Proof.
  intros Hp Hs. unfold JS.trim.
  assert (Hstart : JS.trimStart s = s).
  { destruct s as [|c s]; [reflexivity|]. simpl in *.
    apply andb_true_iff in Hs. destruct Hs as [Hc _]. rewrite (Hp c Hc). reflexivity. }
  rewrite Hstart. eapply trimEnd_all_chars; eassumption.
Qed.

Lemma toLowerCase_all_chars (p : ascii -> bool) (s : string) :
  (forall c, p c = true -> JS.lower_char c = c) ->
  JS.all_chars p s = true -> JS.toLowerCase s = s.
Proof.
  intros Hp. induction s as [|c s IH]; [reflexivity|]. simpl.
  rewrite andb_true_iff. intros [Hc Hs]. rewrite (Hp c Hc), (IH Hs). reflexivity.
Qed.

Lemma hostname_char_facts (c : ascii) :
  hostname_char c = true ->
  JS.is_whitespace c = false /\ JS.lower_char c = c
  /\ Ascii.eqb c "/" = false /\ Ascii.eqb c " " = false
  /\ Ascii.eqb c ":" = false /\ Ascii.eqb c "?" = false.
Proof.
  intros Hc.
  assert (Hne : forall d, hostname_char d = false -> Ascii.eqb c d = false).
  { intros d Hd. destruct (Ascii.eqb_spec c d) as [->|]; [congruence | reflexivity]. }
  repeat split; try (apply Hne; reflexivity).
  - unfold hostname_char, label_char, JS.is_whitespace in *. cbv zeta in *.
    rewrite !orb_true_iff, !andb_true_iff, !N.leb_le, N.eqb_eq in Hc.
    rewrite !orb_false_iff, andb_false_iff, !N.leb_gt, !N.eqb_neq.
    destruct Hc as [[[[? ?]|[? ?]]|?]|Hdot]; [lia | lia | lia |].
    apply Ascii.eqb_eq in Hdot. subst. simpl. lia.
  - unfold hostname_char, label_char, JS.lower_char in *. cbv zeta in *.
    rewrite !orb_true_iff, !andb_true_iff, !N.leb_le, N.eqb_eq in Hc.
    destruct ((65 <=? N_of_ascii c) && (N_of_ascii c <=? 90)
              || (192 <=? N_of_ascii c) && (N_of_ascii c <=? 222)
                 && negb (N_of_ascii c =? 215))%N eqn:Hup; [|reflexivity].
    rewrite !orb_true_iff, !andb_true_iff, !N.leb_le in Hup.
    destruct Hc as [[[[? ?]|[? ?]]|?]|Hdot]; [lia | lia | lia |].
    apply Ascii.eqb_eq in Hdot. subst. simpl in Hup. lia.
Qed.

Lemma all_chars_join (p : ascii -> bool) (sep : ascii) (ls : list string) :
  p sep = true -> Forall (fun l => JS.all_chars p l = true) ls ->
  JS.all_chars p (JS.join (String sep "") ls) = true.
Proof.
  intros Hsep Hall. induction Hall as [|l ls Hl _ IH]; [reflexivity|].
  destruct ls as [|l' ls]; [exact Hl|].
  change (JS.join (String sep "") (l :: l' :: ls))
    with (l +:+ String sep "" +:+ JS.join (String sep "") (l' :: ls)).
  rewrite !all_chars_app, Hl, IH. simpl. rewrite Hsep. reflexivity.
Qed.

Lemma includes_all_chars (p : ascii -> bool) (c : ascii) (s : string) :
  (forall d, p d = true -> Ascii.eqb d c = false) ->
  JS.all_chars p s = true -> JS.includes c s = false.
Proof.
  intros Hp. induction s as [|d s IH]; [reflexivity|]. simpl.
  rewrite andb_true_iff. intros [Hd Hs]. rewrite (Hp d Hd), (IH Hs). reflexivity.
Qed.

Lemma split_app_no_separator (sep : ascii) (l rest : string) :
  JS.includes sep l = false ->
  JS.split sep (l +:+ String sep rest) = l :: JS.split sep rest.
Proof.
  induction l as [|c l IH]; intros Hl.
  - rewrite app_empty. simpl. rewrite Ascii.eqb_refl. reflexivity.
  - simpl in Hl. apply orb_false_iff in Hl. destruct Hl as [Hc Hl].
    rewrite app_String. simpl. rewrite Hc, (IH Hl). reflexivity.
Qed.

Lemma split_no_occurrence (sep : ascii) (l : string) :
  JS.includes sep l = false -> JS.split sep l = [l].
Proof.
  induction l as [|c l IH]; intros Hl; [reflexivity|].
  simpl in Hl. apply orb_false_iff in Hl. destruct Hl as [Hc Hl].
  simpl. rewrite Hc, (IH Hl). reflexivity.
Qed.

(** Splitting undoes joining when no piece holds the separator. *)
Lemma split_join (sep : ascii) (ls : list string) :
  ls <> [] -> Forall (fun l => JS.includes sep l = false) ls ->
  JS.split sep (JS.join (String sep "") ls) = ls.
Proof.
  intros Hne Hall. induction Hall as [|l ls Hl Hls IH]; [congruence|].
  destruct ls as [|l' ls]; [apply split_no_occurrence; assumption|].
  change (JS.join (String sep "") (l :: l' :: ls))
    with (l +:+ String sep "" +:+ JS.join (String sep "") (l' :: ls)).
  rewrite app_String, app_empty.
  rewrite (split_app_no_separator sep l _ Hl), IH by discriminate. reflexivity.
Qed.

Lemma good_label_chars (l : string) :
  good_label l -> JS.all_chars label_char l = true.
Proof.
  intros (_ & Hcl & _). apply all_chars_forall. intros c Hc.
  apply label_char_class. auto.
Qed.

Section HostnameAgain.
Context `{B : Browser}.

(** A string of label characters and dots is its own normal form. *)
Lemma normalize_hostname_fixed (s : string) :
  JS.all_chars hostname_char s = true -> normalize_hostname (JStr s) = s.
Proof.
  intros Hs. rewrite normalize_hostname_string.
  rewrite (trim_all_chars hostname_char) by (auto; intros c Hc; apply hostname_char_facts, Hc).
  apply (toLowerCase_all_chars hostname_char); [|assumption].
  intros c Hc. apply hostname_char_facts, Hc.
Qed.

(** X5. Every hostname made of two or more labels joined by dots, each
    label matching [[a-z0-9-]+] with no hyphen at either end, is accepted as
    it is: the validator has no other condition, such as a bound on the
    length of a label or of the name, or a rule about digits. *)
Theorem validateHostname_accepts_good_labels (ls : list string) :
  2 <= length ls -> Forall good_label ls ->
  validateHostname (JStr (JS.join "." ls)) = Valid (JS.join "." ls).
Proof.
  intros Hlen Hgood.
  assert (Hlabel : Forall (fun l => JS.all_chars label_char l = true) ls).
  { eapply Forall_impl; [exact Hgood | apply good_label_chars]. }
  assert (Hhost : JS.all_chars hostname_char (JS.join "." ls) = true).
  { apply all_chars_join; [reflexivity|].
    eapply Forall_impl; [exact Hlabel|]. intros l Hl.
    eapply all_chars_impl; [|exact Hl]. intros c Hc. unfold hostname_char. rewrite Hc.
    reflexivity. }
  assert (Hsplit : JS.split "." (JS.join "." ls) = ls).
  { apply split_join; [destruct ls; simpl in *; [lia | discriminate]|].
    eapply Forall_impl; [exact Hlabel|]. intros l Hl.
    eapply includes_all_chars; [|exact Hl]. intros d Hd.
    destruct (Ascii.eqb_spec d ".") as [->|]; [discriminate | reflexivity]. }
  pose proof (normalize_hostname_fixed _ Hhost) as Hnorm.
  destruct (validateHostname_cases (JStr (JS.join "." ls))) as [[Hrej _]|(_ & Hv & _)];
    cbv zeta in *; rewrite Hnorm in *; [exfalso | exact Hv].
  destruct Hrej as [H|[H|[H|[H|[H|[H|H]]]]]].
  - destruct ls as [|l [|l' ls]]; simpl in Hlen; try lia.
    inversion Hgood as [|? ? [Hne _] _]; subst.
    change (JS.join "." (l :: l' :: ls)) with (l +:+ "." +:+ JS.join "." (l' :: ls)) in H.
    destruct l; [contradiction | discriminate].
  - apply includes_contains in H.
    rewrite (includes_all_chars hostname_char) in H;
      [discriminate | intros d Hd; apply hostname_char_facts, Hd | assumption].
  - apply includes_contains in H.
    rewrite (includes_all_chars hostname_char) in H;
      [discriminate | intros d Hd; apply hostname_char_facts, Hd | assumption].
  - apply includes_contains in H.
    rewrite (includes_all_chars hostname_char) in H;
      [discriminate | intros d Hd; apply hostname_char_facts, Hd | assumption].
  - apply includes_contains in H.
    rewrite (includes_all_chars hostname_char) in H;
      [discriminate | intros d Hd; apply hostname_char_facts, Hd | assumption].
  - unfold labels in H. rewrite Hsplit in H. lia.
  - unfold labels in H. rewrite Hsplit in H.
    exact (Exists_bad_not_Forall_good _ H Hgood).
Qed.


(** X6. Validation of a hostname is idempotent: an accepted value, given
    to the validator again, is accepted and comes back unchanged. *)
Theorem validateHostname_idempotent (raw : JsVal) (h : string) :
  validateHostname raw = Valid h -> validateHostname (JStr h) = Valid h.
Proof.
  intros Hv.
  destruct (validateHostname_cases raw) as [[_ [e He]]|(Hacc & Hv' & _ & Hgood)];
    [congruence|].
  cbv zeta in *. rewrite Hv' in Hv. injection Hv as <-.
  set (h := normalize_hostname raw) in *.
  assert (Hchars : JS.all_chars hostname_char h = true).
  { apply all_chars_forall. intros c Hc. unfold hostname_char.
    destruct (split_contains "." c h Hc) as [->|[l [Hl Hcl]]]; [reflexivity|].
    unfold labels in Hgood. rewrite List.Forall_forall in Hgood.
    destruct (Hgood l Hl) as (_ & Hclass & _).
    rewrite (proj2 (label_char_class c) (Hclass c Hcl)). reflexivity. }
  pose proof (normalize_hostname_fixed h Hchars) as Hnorm.
  destruct (validateHostname_cases (JStr h)) as [[Hrej _]|(_ & Hvalid & _)];
    cbv zeta in *; rewrite Hnorm in *; [contradiction | exact Hvalid].
Qed.

End HostnameAgain.

Lemma validateHostname_accepts_good_labels_witness :
  @validateHostname Reference.browser (JStr "a-1.b2.example") = Valid "a-1.b2.example".
Proof.
  apply (@validateHostname_accepts_good_labels Reference.browser ["a-1"; "b2"; "example"]).
  - simpl. lia.
  - apply check_labels_None. reflexivity.
Defined.

Lemma validateHostname_idempotent_witness :
  @validateHostname Reference.browser (JStr "old.example.com") = Valid "old.example.com".
Proof.
  apply (@validateHostname_idempotent Reference.browser (JStr "  Old.Example.COM ")).
  reflexivity.
Defined.

(** ** The target URL validator *)

Lemma lower_char_not_upper (c : ascii) : ~ is_upper (JS.lower_char c).
Proof.
  unfold is_upper. destruct c as [[] [] [] [] [] [] [] []]; vm_compute;
    intros [H1 H2]; try (apply H1; reflexivity); try (apply H2; reflexivity).
Qed.

Lemma toLowerCase_no_upper (s : string) (c : ascii) :
  contains c (JS.toLowerCase s) -> ~ is_upper c.
Proof.
  unfold contains. induction s as [|d s IH]; simpl; [tauto|].
  intros [<-|H]; [apply lower_char_not_upper | auto].
Qed.

Lemma app_inv_tail (a b : string) (c : ascii) :
  a +:+ String c "" = b +:+ String c "" -> a = b.
Proof.
  revert b. induction a as [|x a IH]; intros [|y b] H; rewrite ?app_String, ?app_empty in H.
  - reflexivity.
  - injection H as _ H. destruct b; discriminate.
  - injection H as _ H. destruct a; discriminate.
  - injection H as -> H. f_equal. auto.
Qed.

Section TargetUrl.
Context `{B : Browser}.

(** X7. The target URL validator turns down a missing, empty or blank
    input as required, without asking the URL parser. A target it accepts
    was parsed from the trimmed input, has the scheme http or https, comes
    back as the serialized URL, which starts with that scheme and a colon
    and so is never empty, and its hostname has no capital letter. *)
Theorem validateTargetUrl_accepted (raw : JsVal) :
  (JS.trim (ToString (js_or raw (JStr ""))) = "" ->
     validateTargetUrl raw = Invalid "Target URL is required.")
  /\ validateTargetUrl JUndefined = Invalid "Target URL is required."
  /\ validateTargetUrl JNull = Invalid "Target URL is required."
  /\ (forall t, validateTargetUrl raw = Valid t ->
        exists parsed rest,
          URL_parse (JS.trim (ToString (js_or raw (JStr "")))) = Some parsed
          /\ (url_scheme parsed = "http" \/ url_scheme parsed = "https")
          /\ target_value t = URL_toString parsed
          /\ target_value t = url_scheme parsed +:+ ":" +:+ rest
          /\ target_value t <> ""
          /\ target_hostname t = JS.toLowerCase (URL_hostname parsed)
          /\ forall c, contains c (target_hostname t) -> ~ is_upper c).
Proof.
  split; [|split; [reflexivity | split; [reflexivity|]]].
  - intros H. unfold validateTargetUrl. rewrite H. reflexivity.
  - intros t. unfold validateTargetUrl.
    destruct (JS.is_empty _); [discriminate|].
    destruct (URL_parse _) as [parsed|]; [|discriminate].
    destruct (String.eqb (URL_protocol parsed) "http:") eqn:Hhttp;
      destruct (String.eqb (URL_protocol parsed) "https:") eqn:Hhttps; simpl;
      try discriminate; intros H; injection H as <-.
    all: eexists parsed, _; split; [reflexivity|].
    all: split;
      [ first [ left; apply String.eqb_eq in Hhttp; apply (app_inv_tail _ "http" ":"), Hhttp
              | right; apply String.eqb_eq in Hhttps;
                apply (app_inv_tail _ "https" ":"), Hhttps ] |].
    all: split; [reflexivity|]. all: split; [unfold URL_toString; reflexivity|].
    all: split; [unfold URL_toString; simpl; destruct (url_scheme parsed); discriminate|].
    all: split; [reflexivity|]. all: intros c; apply toLowerCase_no_upper.
Qed.

End TargetUrl.

(** ** More on settings *)

Section SettingsAgain.
Context `{B : Browser}.

Lemma normalizeSettings_of_set (r : float) :
  Num.isFinite r = true -> (r <? 0)%float = false ->
  normalizeSettings (settings_to_js {| hourly_rate := Some r |}) = {| hourly_rate := Some r |}.
Proof.
  intros Hf Hn. unfold settings_to_js. simpl hourly_rate.
  rewrite (normalizeSettings_number _ r) by apply lookup_singleton_eq.
  rewrite Hf, Hn. reflexivity.
Qed.

(** X8. Whatever is stored, the rate [normalizeSettings] returns is unset
    or a finite number that is not negative; and a set rate it returned
    normalizes to itself once written back as the page writes settings. *)
Theorem normalizeSettings_invariant (raw : JsVal) :
  match hourly_rate (normalizeSettings raw) with
  | Some r =>
      Num.isFinite r = true /\ (r <? 0)%float = false
      /\ normalizeSettings (settings_to_js (normalizeSettings raw)) = normalizeSettings raw
  | None => True
  end.
Proof.
  assert (H : normalizeSettings raw = {| hourly_rate := None |}
              \/ exists r, normalizeSettings raw = {| hourly_rate := Some r |}
                           /\ Num.isFinite r = true /\ (r <? 0)%float = false).
  { unfold normalizeSettings.
    destruct (negb (truthy raw) || negb (typeof_object raw)); [auto|].
    set (rate := ToNumber _).
    destruct (Num.isFinite rate) eqn:Hf; [|auto].
    destruct (rate <? 0)%float eqn:Hn; [auto|]. simpl. eauto. }
  destruct H as [-> | (r & -> & Hf & Hn)]; [exact I|]. simpl hourly_rate.
  repeat split; auto. apply normalizeSettings_of_set; assumption.
Qed.

(** X9. A set hourly rate survives storage: written by [persistSettings]
    and read back, by [loadSettings] or by the change listener on the
    notification of that write, it is the same rate, and the field shows it
    with two decimals. *)
Theorem settings_round_trip (p q : Page) (w : World) (r : float) :
  hourly_rate (settings p) = Some r ->
  Num.isFinite r = true -> (r <? 0)%float = false ->
  calls_succeed 2 w ->
  exists w1,
    persistSettings p w = (Fulfilled tt, w1)
    /\ settings (loadSettings q w1).1 = settings p
    /\ hourlyRateInput (loadSettings q w1).1 = Num.toFixed 2 r
    /\ forall old,
         settings (onChanged {[ SETTINGS_KEY := {| oldValue := old;
                                                   newValue := settings_to_js (settings p) |} ]}
                     (area_name (getStorageArea w1)) q w1).1 = settings p
         /\ hourlyRateInput
              (onChanged {[ SETTINGS_KEY := {| oldValue := old;
                                               newValue := settings_to_js (settings p) |} ]}
                 (area_name (getStorageArea w1)) q w1).1 = Num.toFixed 2 r.
Proof.
  intros Hr Hf Hn Hok.
  assert (Hs : settings p = {| hourly_rate := Some r |}) by (destruct (settings p); simpl in *; congruence).
  unfold persistSettings. rewrite Hs.
  destruct (storageSet_success {[SETTINGS_KEY := settings_to_js {| hourly_rate := Some r |}]} w)
    as (w1 & -> & Harea & Hcont & Herr & _); [eapply next_lastError_succeed; eassumption|].
  assert (Hok1 : calls_succeed 1 w1) by (eapply calls_succeed_tail; eassumption).
  exists w1. split; [reflexivity|].
  assert (Hload : settings (loadSettings q w1).1 = {| hourly_rate := Some r |}
                  /\ hourlyRateInput (loadSettings q w1).1 = Num.toFixed 2 r).
  { unfold loadSettings.
    destruct (storageGet_success SETTINGS_KEY w1) as (result & w2 & -> & Hres & _ & _);
      [eapply next_lastError_succeed; eassumption|].
    rewrite Hres, Hcont.
    rewrite (lookup_union_l' _ _ SETTINGS_KEY) by (rewrite lookup_singleton_eq; eauto).
    rewrite lookup_singleton_eq. simpl default.
    rewrite (normalizeSettings_of_set r Hf Hn). simpl. rewrite Hf. split; reflexivity. }
  destruct Hload as [Hl1 Hl2]. split; [exact Hl1|]. split; [exact Hl2|].
  intros old. unfold onChanged. rewrite using_sync_area_name, String.eqb_refl.
  rewrite lookup_singleton_eq.
  assert (Hmetrics : ({[SETTINGS_KEY := {| oldValue := old;
                         newValue := settings_to_js {| hourly_rate := Some r |} |}]}
                      : gmap string StorageChange) !! METRICS_KEY = None)
    by (apply lookup_singleton_ne; discriminate).
  rewrite Hmetrics.
  destruct (String.eqb (area_name (getStorageArea w1)) "local"); simpl newValue;
    rewrite (normalizeSettings_of_set r Hf Hn); simpl; rewrite Hf; split; reflexivity.
Qed.

End SettingsAgain.

Lemma settings_round_trip_witness :
  exists w1,
    persistSettings (set_settings {| hourly_rate := Some 12.5%float |} initial_page)
      Reference.world = (Fulfilled tt, w1)
    /\ settings (@loadSettings Reference.browser initial_page w1).1
       = {| hourly_rate := Some 12.5%float |}
    /\ hourlyRateInput (@loadSettings Reference.browser initial_page w1).1 = "12.50".
Proof.
  destruct (@settings_round_trip Reference.browser
              (set_settings {| hourly_rate := Some 12.5%float |} initial_page)
              initial_page Reference.world 12.5%float eq_refl eq_refl eq_refl)
    as (w1 & Hp & Hs & Hf & _).
  - constructor.
  - exists w1. split; [exact Hp|]. split; [exact Hs|]. rewrite Hf.
    vm_compute. reflexivity.
Defined.

(** ** The rules table *)

Section Table.
Context `{B : Browser}.

(** The outcome of validation, its errors included, does not depend on how
    many ids were minted before. *)
Lemma validation_errors_independent (d : Draft) (n m : nat) :
  validation_errors (validateRule d n).1 = validation_errors (validateRule d m).1.
Proof.
  unfold validateRule.
  destruct (validateHostname (draft_source_hostname d)); [reflexivity|].
  destruct (validateTargetUrl (draft_target_url d)); [reflexivity|].
  destruct (String.eqb _ _); [reflexivity|].
  destruct (truthy (draft_id d)); reflexivity.
Qed.

Lemma validateRule_minted (d : Draft) (n : nat) : n <= (validateRule d n).2.
Proof.
  unfold validateRule.
  destruct (validateHostname (draft_source_hostname d)); [simpl; lia|].
  destruct (validateTargetUrl (draft_target_url d)); [simpl; lia|].
  destruct (String.eqb _ _); [simpl; lia|].
  destruct (truthy (draft_id d)); simpl; lia.
Qed.

Lemma render_row_shown (rule : Rule) (n : nat) :
  (render_row rule n).1 = shown_row rule /\ n <= (render_row rule n).2.
Proof.
  unfold render_row, shown_row.
  pose proof (validation_errors_independent (rule_draft rule) n 0) as He.
  pose proof (validateRule_minted (rule_draft rule) n) as Hn.
  destruct (validateRule (rule_draft rule) n) as [v n']. simpl in *.
  rewrite <- He. destruct v, (enabled rule); simpl; auto.
Qed.

Lemma render_rows_shown (l : list Rule) (n : nat) :
  (render_rows l n).1 = shown_row <$> l /\ n <= (render_rows l n).2.
Proof.
  revert n. induction l as [|rule l IH]; intros n; simpl; [auto|].
  destruct (render_row_shown rule n) as [Hrow Hn].
  destruct (render_row rule n) as [row n']. simpl in *.
  destruct (IH n') as [Hrows Hn'].
  destruct (render_rows l n') as [rows n'']. simpl in *.
  subst. split; [reflexivity | lia].
Qed.

Lemma hostname_error_not_empty (raw : JsVal) (e : string) :
  validateHostname raw = Invalid e -> e <> "".
Proof.
  unfold validateHostname.
  destruct (JS.is_empty _); [intros H; injection H as <-; discriminate|].
  destruct (_ || _); [intros H; injection H as <-; discriminate|].
  destruct (_ <? _)%nat; [intros H; injection H as <-; discriminate|].
  destruct (check_labels _) as [e'|] eqn:Hc; [|discriminate].
  intros H. injection H as <-. clear - Hc.
  induction (JS.split "." (normalize_hostname raw)) as [|l ls IH]; simpl in Hc; [discriminate|].
  destruct (JS.is_empty l); [injection Hc as <-; discriminate|].
  destruct (negb (label_pattern l)); [injection Hc as <-; discriminate|].
  destruct (_ || _); [injection Hc as <-; discriminate | auto].
Qed.

Lemma target_error_not_empty (raw : JsVal) (e : string) :
  validateTargetUrl raw = Invalid e -> e <> "".
Proof.
  unfold validateTargetUrl.
  destruct (JS.is_empty _); [intros H; injection H as <-; discriminate|].
  destruct (URL_parse _); [|intros H; injection H as <-; discriminate].
  destruct (_ && _); [intros H; injection H as <-; discriminate | discriminate].
Qed.


Lemma renderRules_rows (p : Page) (w : World) :
  rulesBody (renderRules p w).1 = shown_row <$> rules p.
Proof.
  unfold renderRules. pose proof (render_rows_shown (rules p) (minted w)) as [H1 _].
  destruct (render_rows (rules p) (minted w)). simpl in *. exact H1.
Qed.

(** What [renderRules] leaves alone in the document. *)
Lemma renderRules_document (p : Page) (w : World) :
  formMessage (renderRules p w).1 = formMessage p
  /\ newSourceHostnameInput (renderRules p w).1 = newSourceHostnameInput p
  /\ newTargetUrlInput (renderRules p w).1 = newTargetUrlInput p
  /\ hourlyRateInput (renderRules p w).1 = hourlyRateInput p
  /\ hourlyRateError (renderRules p w).1 = hourlyRateError p
  /\ moneySavedSummary (renderRules p w).1 = moneySavedSummary p.
Proof. unfold renderRules. destruct (render_rows (rules p) (minted w)). repeat split. Qed.



End Table.


(** ** The listeners when validation and storage succeed *)

Section Listeners.
Context `{B : Browser}.

(** The write of the rules list, when it succeeds. *)
Lemma persistRules_success (p : Page) (w : World) :
  next_lastError w = None ->
  exists w1,
    persistRules p w = (Fulfilled tt, w1)
    /\ area_contents (getStorageArea w) w1 !! STORAGE_KEY
       = Some (JArr (List.map rule_to_js (rules p)))
    /\ calls w1 = calls w ++ [CallSet (getStorageArea w)
                               {[ STORAGE_KEY := JArr (List.map rule_to_js (rules p)) ]}]
    /\ minted w1 = minted w.
Proof.
  intros Hok. unfold persistRules, storageSet. rewrite Hok. eexists. split; [reflexivity|].
  simpl. split; [|split; reflexivity].
  unfold getStorageArea, area_contents. destruct (sync_area w); simpl;
    (rewrite (lookup_union_l' _ _ STORAGE_KEY) by (rewrite lookup_singleton_eq; eauto));
    apply lookup_singleton_eq.
Qed.

Lemma renderRules_storage (p : Page) (w : World) (a : AreaName) :
  area_contents a (renderRules p w).2 = area_contents a w
  /\ getStorageArea (renderRules p w).2 = getStorageArea w.
Proof.
  pose proof (renderRules_frame p w) as (_ & _ & _ & _ & Hs & Hl & _).
  unfold area_contents, getStorageArea. rewrite Hs, Hl. split; reflexivity.
Qed.

(** X12. The delete button removes from the list every rule that carries
    the row's id, and only those, keeping the order of the others, and
    writes the remaining list with one storage call. When the write
    succeeds, storage holds that list, the table is rebuilt from it and the
    form message is cleared; when it fails, the table is left as it was, the
    deleted rule's row included. *)
Theorem delete_click_removes_id (k : nat) (row : Row) (p : Page) (w : World) :
  rulesBody p !! k = Some row ->
  rules (delete_click k p w).1
  = filter (fun item => rule_id item <> rule_id (row_rule row)) (rules p)
  /\ (forall r, r ∈ rules (delete_click k p w).1
                <-> r ∈ rules p /\ rule_id r <> rule_id (row_rule row))
  /\ calls (delete_click k p w).2
     = calls w ++ [CallSet (getStorageArea w)
                     {[ STORAGE_KEY :=
                          JArr (List.map rule_to_js (rules (delete_click k p w).1)) ]}]
  /\ (next_lastError w = None ->
      area_contents (getStorageArea w) (delete_click k p w).2 !! STORAGE_KEY
      = Some (JArr (List.map rule_to_js (rules (delete_click k p w).1)))
      /\ rulesBody (delete_click k p w).1 = shown_row <$> rules (delete_click k p w).1
      /\ formMessage (delete_click k p w).1 = ("", None))
  /\ (forall message, next_lastError w = Some message ->
      rulesBody (delete_click k p w).1 = rulesBody p).
Proof.
  intros Hk. unfold delete_click. rewrite Hk.
  set (kept := filter (fun item => rule_id item <> rule_id (row_rule row)) (rules p)).
  set (p1 := set_rules kept p).
  assert (Hmem : forall r, r ∈ kept <-> r ∈ rules p /\ rule_id r <> rule_id (row_rule row)).
  { intros r. subst kept. rewrite list_elem_of_filter. tauto. }
  destruct (next_lastError w) as [message|] eqn:Herr.
  - destruct (storageSet_failure {[STORAGE_KEY := JArr (List.map rule_to_js kept)]}
                w message Herr) as (w' & Hset & Ha & Hc).
    unfold persistRules. change (rules p1) with kept. rewrite Hset. simpl.
    split; [reflexivity|]. split; [exact Hmem|]. split; [exact Hc|].
    split; [discriminate|]. reflexivity.
  - destruct (persistRules_success p1 w Herr) as (w1 & -> & Hstored & Hcalls & _).
    pose proof (renderRules_frame p1 w1) as (Hr & _ & _ & _ & _ & _ & Hc).
    pose proof (renderRules_rows p1 w1) as Hrows.
    pose proof (renderRules_storage p1 w1 (getStorageArea w)) as [Hcont _].
    destruct (renderRules p1 w1) as [p2 w2]. simpl in *.
    rewrite Hr, Hc, Hcont, Hrows. change (rules p1) with kept in *.
    split; [reflexivity|]. split; [exact Hmem|]. split; [exact Hcalls|].
    split; [|discriminate]. intros _. repeat split. exact Hstored.
Qed.

Lemma validateRule_invalid_shape (d : Draft) (n : nat) (se te : option string) :
  (validateRule d n).1 = RuleInvalid se te ->
  (validateRule d n).2 = n
  /\ ((exists e, se = Some e /\ te = None /\ e <> ""
                 /\ validateHostname (draft_source_hostname d) = Invalid e)
      \/ (exists e, se = None /\ te = Some e /\ e <> "")).
Proof.
  unfold validateRule.
  destruct (validateHostname (draft_source_hostname d)) as [e|h] eqn:Hh.
  { simpl. intros H. injection H as <- <-. split; [reflexivity|]. left.
    exists e. repeat split; auto. eapply hostname_error_not_empty; eassumption. }
  destruct (validateTargetUrl (draft_target_url d)) as [e|t] eqn:Ht.
  { simpl. intros H. injection H as <- <-. split; [reflexivity|]. right.
    exists e. repeat split; auto. eapply target_error_not_empty; eassumption. }
  destruct (String.eqb _ _).
  { simpl. intros H. injection H as <- <-. split; [reflexivity|]. right.
    eexists. repeat split. discriminate. }
  destruct (truthy (draft_id d)); discriminate.
Qed.

(** X13. Submitting the add-rule form. A draft that does not validate
    changes nothing but the form message, which is the hostname's error
    when there is one and the target's otherwise: the rules, the table, the
    two inputs and storage stay as they were and no storage call is made.
    A draft that validates is appended, enabled and under the id minted for
    it, behind the rules already there; when the write succeeds storage
    holds the new list, the table is rebuilt, the two inputs are emptied and
    the message says so. *)
Theorem addRuleForm_submit_outcomes (p : Page) (w : World) :
  (forall sourceError targetError,
     (validateRule (submitted_draft p w) (S (minted w))).1
     = RuleInvalid sourceError targetError ->
     rules (addRuleForm_submit p w).1 = rules p
     /\ rulesBody (addRuleForm_submit p w).1 = rulesBody p
     /\ newSourceHostnameInput (addRuleForm_submit p w).1 = newSourceHostnameInput p
     /\ newTargetUrlInput (addRuleForm_submit p w).1 = newTargetUrlInput p
     /\ areas (addRuleForm_submit p w).2 = areas w
     /\ calls (addRuleForm_submit p w).2 = calls w
     /\ exists e,
          formMessage (addRuleForm_submit p w).1 = (e, Some "error") /\ e <> ""
          /\ (sourceError = Some e \/ (sourceError = None /\ targetError = Some e)))
  /\ (forall normalized n,
        validateRule (submitted_draft p w) (S (minted w)) = (RuleValid normalized, n) ->
        rules (addRuleForm_submit p w).1 = rules p ++ [normalized]
        /\ rule_id normalized = makeId (minted w)
        /\ enabled normalized = true
        /\ validateHostname (JStr (newSourceHostnameInput p))
           = Valid (source_hostname normalized)
        /\ (next_lastError w = None ->
            area_contents (getStorageArea w) (addRuleForm_submit p w).2 !! STORAGE_KEY
            = Some (JArr (List.map rule_to_js (rules p ++ [normalized])))
            /\ rulesBody (addRuleForm_submit p w).1 = shown_row <$> (rules p ++ [normalized])
            /\ newSourceHostnameInput (addRuleForm_submit p w).1 = ""
            /\ newTargetUrlInput (addRuleForm_submit p w).1 = ""
            /\ formMessage (addRuleForm_submit p w).1 = ("Rule added.", Some "success"))).
Proof.
  split.
  - intros se te Hv. unfold addRuleForm_submit.
    change {| draft_id := JStr (makeId (minted w)); draft_enabled := JBool true;
              draft_source_hostname := JStr (newSourceHostnameInput p);
              draft_target_url := JStr (newTargetUrlInput p) |}
      with (submitted_draft p w).
    destruct (validateRule_invalid_shape _ _ _ _ Hv) as [_ Hshape].
    destruct (validateRule (submitted_draft p w) (S (minted w))) as [v n].
    simpl in Hv. subst v. simpl.
    repeat split.
    destruct Hshape as [(e & -> & -> & Hne & _)|(e & -> & -> & Hne)]; exists e; simpl.
    + unfold or_text. destruct e; [contradiction|]. simpl. auto.
    + unfold or_text. destruct e; [contradiction|]. simpl. auto.
  - intros normalized n Hv.
    assert (Hnorm : rule_id normalized = makeId (minted w) /\ enabled normalized = true
                    /\ validateHostname (JStr (newSourceHostnameInput p))
                       = Valid (source_hostname normalized)).
    { revert Hv. unfold validateRule, submitted_draft. simpl.
      destruct (validateHostname (JStr (newSourceHostnameInput p))); [discriminate|].
      destruct (validateTargetUrl (JStr (newTargetUrlInput p))); [discriminate|].
      destruct (String.eqb _ _); [discriminate|].
      pose proof (makeId_not_empty (minted w)) as Hid.
      destruct (makeId (minted w)) eqn:Hmk; [contradiction|]. simpl.
      intros H. injection H as <- _. simpl. auto. }
    destruct Hnorm as (Hid & Hen & Hhost).
    unfold addRuleForm_submit.
    change {| draft_id := JStr (makeId (minted w)); draft_enabled := JBool true;
              draft_source_hostname := JStr (newSourceHostnameInput p);
              draft_target_url := JStr (newTargetUrlInput p) |}
      with (submitted_draft p w).
    rewrite Hv.
    set (p1 := set_rules (rules p ++ [normalized]) p).
    destruct (next_lastError w) as [message|] eqn:Herr.
    + destruct (storageSet_failure
                  {[STORAGE_KEY := JArr (List.map rule_to_js (rules p ++ [normalized]))]}
                  (set_minted n w) message Herr) as (w' & Hset & _ & _).
      unfold persistRules. change (rules p1) with (rules p ++ [normalized]).
      rewrite Hset. simpl. repeat split; auto; discriminate.
    + destruct (persistRules_success p1 (set_minted n w) Herr)
        as (w1 & -> & Hstored & _ & _).
      pose proof (renderRules_frame p1 w1) as (Hr & _).
      pose proof (renderRules_rows p1 w1) as Hrows.
      pose proof (renderRules_storage p1 w1 (getStorageArea w)) as [Hcont _].
      destruct (renderRules p1 w1) as [p2 w2]. simpl in *.
      rewrite Hr, Hcont, Hrows. repeat split; auto.
Qed.

Lemma validateRule_valid_shape (d : Draft) (n n' : nat) (r : Rule) :
  validateRule d n = (RuleValid r, n') ->
  validateHostname (draft_source_hostname d) = Valid (source_hostname r)
  /\ (exists t, validateTargetUrl (draft_target_url d) = Valid t
                /\ target_url r = target_value t
                /\ target_hostname t <> source_hostname r)
  /\ enabled r = truthy (draft_enabled d)
  /\ (truthy (draft_id d) = true -> rule_id r = ToString (draft_id d) /\ n' = n)
  /\ (truthy (draft_id d) = false -> rule_id r = makeId n /\ n' = S n).
Proof.
  unfold validateRule.
  destruct (validateHostname (draft_source_hostname d)) as [e|h]; [discriminate|].
  destruct (validateTargetUrl (draft_target_url d)) as [e|t]; [discriminate|].
  destruct (String.eqb (target_hostname t) h) eqn:Hloop; [discriminate|].
  apply String.eqb_neq in Hloop.
  destruct (truthy (draft_id d)); intros H; injection H as <- <-; simpl;
    (split; [reflexivity|]); (split; [exists t; auto|]);
    (split; [reflexivity|]); split; intros; try discriminate; auto.
Qed.

(** X14. A row edit whose draft validates, from any of the three inputs of
    the row: the normalized rule replaces the rule at the position of the
    row's id, the other rules stay where they are, and the list is written
    with one storage call. The rule stored has the hostname and the URL as
    [validateHostname] and [validateTargetUrl] normalize the two fields and
    the state of the checkbox; when the row's id is not empty it keeps that
    id, so the list of ids is the same as before. The table is not rebuilt:
    the row keeps the text the user typed, with its two error cells
    emptied. When the write succeeds storage holds the new list and the
    form message is cleared. *)
Theorem accepted_row_edit
    (allow : bool) (k i : nat) (row : Row) (normalized : Rule) (n : nat)
    (p : Page) (w : World) :
  rulesBody p !! k = Some row ->
  validateRule (row_draft row) (minted w) = (RuleValid normalized, n) ->
  position_of (rule_id (row_rule row)) i (rules p) ->
  rules (updateRuleFromInputs allow k p w).1 = <[i := normalized]> (rules p)
  /\ rules (updateRuleFromInputs allow k p w).1 !! i = Some normalized
  /\ (forall j, j <> i ->
        rules (updateRuleFromInputs allow k p w).1 !! j = rules p !! j)
  /\ enabled normalized = enabledInput row
  /\ validateHostname (JStr (sourceInput row)) = Valid (source_hostname normalized)
  /\ (exists t, validateTargetUrl (JStr (targetInput row)) = Valid t
                /\ target_url normalized = target_value t)
  /\ (rule_id (row_rule row) <> "" ->
      rule_id normalized = rule_id (row_rule row)
      /\ rule_id <$> rules (updateRuleFromInputs allow k p w).1 = rule_id <$> rules p)
  /\ rulesBody (updateRuleFromInputs allow k p w).1
     = <[k := {| row_rule := row_rule row; enabledInput := enabledInput row;
                 sourceInput := sourceInput row; targetInput := targetInput row;
                 sourceErrorEl := ""; targetErrorEl := "" |}]> (rulesBody p)
  /\ calls (updateRuleFromInputs allow k p w).2
     = calls w ++ [CallSet (getStorageArea w)
                     {[ STORAGE_KEY :=
                          JArr (List.map rule_to_js (<[i := normalized]> (rules p))) ]}]
  /\ (next_lastError w = None ->
      area_contents (getStorageArea w) (updateRuleFromInputs allow k p w).2 !! STORAGE_KEY
      = Some (JArr (List.map rule_to_js (<[i := normalized]> (rules p))))
      /\ formMessage (updateRuleFromInputs allow k p w).1 = ("", None)).
Proof.
  intros Hk Hv Hpos.
  destruct (validateRule_valid_shape _ _ _ _ Hv) as (Hhost & (t & Ht & Hurl & _) & Hen & Hid & _).
  simpl in Hhost, Ht, Hen, Hid.
  pose proof Hpos as [(old & Hold & Holdid) _].
  assert (Hlt : i < length (rules p)) by (eapply lookup_lt_Some; eassumption).
  assert (Hids : rule_id (row_rule row) <> "" ->
                 rule_id normalized = rule_id (row_rule row)
                 /\ rule_id <$> <[i := normalized]> (rules p) = rule_id <$> rules p).
  { intros Hne. apply truthy_JStr in Hne. destruct (Hid Hne) as [Heq _].
    split; [exact Heq|]. rewrite list_fmap_insert, Heq, <- Holdid.
    apply list_insert_id. rewrite list_lookup_fmap, Hold. reflexivity. }
  unfold updateRuleFromInputs. rewrite Hk, Hv. cbv beta iota zeta.
  rewrite setRowErrors_rules, (findIndex_position _ _ _ Hpos).
  set (p1 := setRowErrors k "" "" p).
  assert (Hbody : rulesBody p1
                  = <[k := {| row_rule := row_rule row; enabledInput := enabledInput row;
                              sourceInput := sourceInput row; targetInput := targetInput row;
                              sourceErrorEl := ""; targetErrorEl := "" |}]> (rulesBody p)).
  { subst p1. unfold setRowErrors. rewrite Hk. reflexivity. }
  set (p2 := set_rules (<[i := normalized]> (rules p)) p1).
  destruct (next_lastError w) as [message|] eqn:Herr.
  - destruct (storageSet_failure
                {[STORAGE_KEY := JArr (List.map rule_to_js (<[i := normalized]> (rules p)))]}
                (set_minted n w) message Herr) as (w' & Hset & _ & Hc).
    unfold persistRules. change (rules p2) with (<[i := normalized]> (rules p)).
    rewrite Hset. simpl.
    split; [reflexivity|]. split; [apply list_lookup_insert_eq; exact Hlt|].
    split; [intros j Hj; apply list_lookup_insert_ne; auto|].
    split; [rewrite Hen; reflexivity|]. split; [exact Hhost|].
    split; [exists t; auto|]. split; [exact Hids|]. split; [exact Hbody|].
    split; [exact Hc|]. discriminate.
  - destruct (persistRules_success p2 (set_minted n w) Herr)
      as (w1 & -> & Hstored & Hcalls & _).
    simpl.
    split; [reflexivity|]. split; [apply list_lookup_insert_eq; exact Hlt|].
    split; [intros j Hj; apply list_lookup_insert_ne; auto|].
    split; [rewrite Hen; reflexivity|]. split; [exact Hhost|].
    split; [exists t; auto|]. split; [exact Hids|]. split; [exact Hbody|].
    split; [exact Hcalls|]. intros _. split; [exact Hstored|reflexivity].
Qed.

(** X15. Typing into the hourly-rate field. The field keeps the text as
    typed and the rules, the metrics and the table are not touched. Text
    that [validateHourlyRate] rejects changes nothing but the error line
    under the field: the rate in memory, the money-saved line and storage
    stay as they were and no storage call is made. Text it accepts becomes
    the rate (none for blank text), empties the error line, refreshes the
    money-saved line and is written under the settings key of the rules'
    area with one storage call; when that write fails the new rate stays in
    memory although storage still holds the old one. *)
Theorem hourlyRate_input_outcomes (text : string) (p : Page) (w : World) :
  hourlyRateInput (hourlyRate_input text p w).1 = text
  /\ rules (hourlyRate_input text p w).1 = rules p
  /\ metrics (hourlyRate_input text p w).1 = metrics p
  /\ rulesBody (hourlyRate_input text p w).1 = rulesBody p
  /\ (forall e, validateHourlyRate (JStr text) = Invalid e ->
        hourlyRateError (hourlyRate_input text p w).1 = e
        /\ settings (hourlyRate_input text p w).1 = settings p
        /\ moneySavedSummary (hourlyRate_input text p w).1 = moneySavedSummary p
        /\ formMessage (hourlyRate_input text p w).1 = formMessage p
        /\ (hourlyRate_input text p w).2 = w)
  /\ (forall value, validateHourlyRate (JStr text) = Valid value ->
        hourlyRateError (hourlyRate_input text p w).1 = ""
        /\ settings (hourlyRate_input text p w).1 = {| hourly_rate := value |}
        /\ moneySavedSummary (hourlyRate_input text p w).1
           = moneySavedSummary
               (renderMetricsSummary (set_settings {| hourly_rate := value |} p))
        /\ calls (hourlyRate_input text p w).2
           = calls w ++ [CallSet (getStorageArea w)
                           {[ SETTINGS_KEY := settings_to_js {| hourly_rate := value |} ]}]
        /\ (next_lastError w = None ->
            area_contents (getStorageArea w) (hourlyRate_input text p w).2 !! SETTINGS_KEY
            = Some (settings_to_js {| hourly_rate := value |})
            /\ formMessage (hourlyRate_input text p w).1 = formMessage p)
        /\ (forall message, next_lastError w = Some message ->
            areas (hourlyRate_input text p w).2 = areas w
            /\ formMessage (hourlyRate_input text p w).1
               = ("Failed to save hourly rate: " +:+ message, Some "error"))).
Proof.
  unfold hourlyRate_input. simpl hourlyRateInput.
  destruct (validateHourlyRate (JStr text)) as [e|value].
  { simpl. do 4 (split; [reflexivity|]). split; [|discriminate].
    intros e' Heq. injection Heq as <-. repeat split. }
  set (p1 := renderMetricsSummary _).
  unfold persistSettings. change (settings p1) with {| hourly_rate := value |}.
  destruct (next_lastError w) as [message|] eqn:Herr.
  - destruct (storageSet_failure
                {[SETTINGS_KEY := settings_to_js {| hourly_rate := value |}]}
                w message Herr) as (w' & -> & Ha & Hc).
    simpl. do 4 (split; [reflexivity|]). split; [discriminate|].
    intros value' Heq. injection Heq as <-.
    do 3 (split; [reflexivity|]). split; [exact Hc|]. split; [discriminate|].
    intros message' Heq. injection Heq as <-. split; [exact Ha|reflexivity].
  - unfold storageSet. rewrite Herr. simpl.
    do 4 (split; [reflexivity|]). split; [discriminate|].
    intros value' Heq. injection Heq as <-.
    do 4 (split; [reflexivity|]). split; [|discriminate].
    intros _. split; [|reflexivity].
    unfold getStorageArea, area_contents. destruct (sync_area w); simpl;
      (rewrite (lookup_union_l' _ _ SETTINGS_KEY) by (rewrite lookup_singleton_eq; eauto));
      apply lookup_singleton_eq.
Qed.

End Listeners.

Lemma delete_click_removes_id_witness :
  rules (@delete_click Reference.browser 0 Reference.page1 Reference.world).1 = []
  /\ rulesBody (@delete_click Reference.browser 0 Reference.page1 Reference.world).1 = [].
Proof.
  destruct (@delete_click_removes_id Reference.browser 0 Reference.row1 Reference.page1
              Reference.world eq_refl) as (Hrules & _ & _ & Hok & _).
  destruct (Hok eq_refl) as (_ & Hrows & _).
  rewrite Hrows, Hrules. split; reflexivity.
Defined.

Lemma accepted_row_edit_witness :
  rules (@updateRuleFromInputs Reference.browser false 0
           (set_rulesBody [with_source " Old.Example.NET " Reference.row1] Reference.page1)
           Reference.world).1
  = [ {| rule_id := "r1"; enabled := true; source_hostname := "old.example.net";
         target_url := "https://new.example.com/" |} ].
Proof.
  destruct (@accepted_row_edit Reference.browser false 0 0
              (with_source " Old.Example.NET " Reference.row1)
              {| rule_id := "r1"; enabled := true; source_hostname := "old.example.net";
                 target_url := "https://new.example.com/" |}
              0
              (set_rulesBody [with_source " Old.Example.NET " Reference.row1] Reference.page1)
              Reference.world) as (Hrules & _).
  - reflexivity.
  - vm_compute. reflexivity.
  - split; [exists Reference.rule1; split; reflexivity | intros j r Hj; lia].
  - rewrite Hrules. reflexivity.
Defined.

(** ** The page over a whole session *)

Section Session.
Context `{B : Browser}.

(** *** The ids of the rules *)

Lemma findIndex_Some (id : string) (l : list Rule) (i : nat) :
  findIndex id l = Some i -> exists r, l !! i = Some r /\ rule_id r = id.
Proof.
  unfold findIndex. destruct (list_find _ l) as [[j r]|] eqn:Hfind; [|discriminate].
  simpl. intros Heq. injection Heq as <-.
  apply list_find_Some in Hfind as (Hj & Hid & _). eauto.
Qed.

Lemma set_row_inputs_rules (k : nat) (f : Row -> Row) (p : Page) :
  rules (set_row_inputs k f p) = rules p.
Proof. unfold set_row_inputs. destruct (rulesBody p !! k); reflexivity. Qed.

Lemma insert_same_id (l : list Rule) (i : nat) (old new : Rule) :
  l !! i = Some old -> rule_id new = rule_id old ->
  rule_id <$> <[i := new]> l = rule_id <$> l.
Proof.
  intros Hi Hid. rewrite list_fmap_insert, Hid.
  apply list_insert_id. rewrite list_lookup_fmap, Hi. reflexivity.
Qed.

Lemma update_ids (allow : bool) (k : nat) (p : Page) (w : World) :
  Forall (fun id => id <> "") (ids p) ->
  ids (updateRuleFromInputs allow k p w).1 = ids p.
Proof.
  intros Hids. unfold updateRuleFromInputs.
  destruct (rulesBody p !! k) as [row|]; [|reflexivity].
  destruct (validateRule (row_draft row) (minted w)) as [validation n] eqn:Hv.
  destruct validation as [se te|normalized]; cbv beta iota zeta.
  - destruct (negb allow); [unfold ids; cbn [fst]; rewrite setRowErrors_rules; reflexivity|].
    rewrite setRowErrors_rules.
    destruct (findIndex _ (rules p)) as [index|] eqn:Hfind;
      [|unfold ids; cbn [fst]; rewrite setRowErrors_rules; reflexivity].
    destruct (findIndex_Some _ _ _ Hfind) as (old & Hold & Hid).
    destruct (persistRules _ _) as [[[]|message] w2]; unfold ids; simpl;
      apply (insert_same_id _ _ old); auto.
  - rewrite setRowErrors_rules.
    destruct (findIndex _ (rules p)) as [index|] eqn:Hfind;
      [|unfold ids; cbn [fst]; rewrite setRowErrors_rules; reflexivity].
    destruct (findIndex_Some _ _ _ Hfind) as (old & Hold & Hid).
    assert (Hne : rule_id (row_rule row) <> "").
    { rewrite <- Hid. unfold ids in Hids. rewrite Forall_fmap in Hids.
      eapply (Forall_lookup_1 _ _ _ _ Hids Hold). }
    destruct (validateRule_valid_shape _ _ _ _ Hv) as (_ & _ & _ & Hkeep & _).
    apply truthy_JStr in Hne. destruct (Hkeep Hne) as [Hsame _]. simpl in Hsame.
    destruct (persistRules _ _) as [[[]|message] w2]; unfold ids; simpl;
      apply (insert_same_id _ _ old); auto; congruence.
Qed.

Lemma submit_ids (p : Page) (w : World) :
  ids (addRuleForm_submit p w).1 = ids p
  \/ ids (addRuleForm_submit p w).1 = ids p ++ [makeId (minted w)].
Proof.
  unfold addRuleForm_submit.
  destruct (validateRule _ (S (minted w))) as [validation n] eqn:Hv.
  destruct validation as [se te|normalized]; [left; reflexivity|].
  destruct (validateRule_valid_shape _ _ _ _ Hv) as (_ & _ & _ & Hkeep & _).
  simpl in Hkeep.
  assert (Hid : rule_id normalized = makeId (minted w)).
  { apply Hkeep. apply truthy_JStr. apply makeId_not_empty. }
  right. set (p1 := set_rules _ p).
  destruct (persistRules p1 _) as [[[]|message] w2].
  - pose proof (renderRules_frame p1 w2) as (Hr & _).
    destruct (renderRules p1 w2) as [p2 w3]. unfold ids. simpl in *.
    rewrite Hr, fmap_app, <- Hid. reflexivity.
  - unfold ids. simpl. rewrite fmap_app, <- Hid. reflexivity.
Qed.

Lemma delete_ids (k : nat) (p : Page) (w : World) :
  sublist (ids (delete_click k p w).1) (ids p).
Proof.
  unfold delete_click. destruct (rulesBody p !! k) as [row|]; [|reflexivity].
  set (p1 := set_rules _ p).
  assert (Hsub : sublist (ids p1) (ids p))
    by (unfold ids; apply fmap_sublist, sublist_filter).
  destruct (persistRules p1 w) as [[[]|message] w1]; [|exact Hsub].
  pose proof (renderRules_frame p1 w1) as (Hr & _).
  destruct (renderRules p1 w1) as [p2 w2]. unfold ids in *. simpl in *.
  rewrite Hr. exact Hsub.
Qed.

Lemma hourlyRate_input_rules (text : string) (p : Page) (w : World) :
  rules (hourlyRate_input text p w).1 = rules p
  /\ metrics (hourlyRate_input text p w).1 = metrics p.
Proof.
  unfold hourlyRate_input. destruct (validateHourlyRate _); [split; reflexivity|].
  destruct (persistSettings _ w) as [[[]|message] w1]; split; reflexivity.
Qed.

Lemma onChanged_rules (changes : gmap string StorageChange) (areaName : string)
    (p : Page) (w : World) :
  rules (onChanged changes areaName p w).1 = rules p.
Proof.
  unfold onChanged.
  set (first := if String.eqb areaName "local" then _ else _).
  assert (Hfirst : rules first.1 = rules p).
  { subst first. destruct (String.eqb areaName "local"); [|reflexivity].
    destruct (changes !! METRICS_KEY); [|reflexivity].
    pose proof (renderRules_frame
                  (renderMetricsSummary (set_metrics (normalizeMetrics (newValue s)) p)) w)
      as (Hr & _).
    rewrite Hr. reflexivity. }
  destruct first as [p1 w1]. simpl in Hfirst.
  destruct (_ || _); [|exact Hfirst].
  destruct (changes !! SETTINGS_KEY); exact Hfirst.
Qed.

Lemma handle_ids (e : Event) (p : Page) (w : World) :
  Forall (fun id => id <> "") (ids p) ->
  Forall (fun id => id <> "") (ids (handle e p w).1)
  /\ match e with
     | SubmitRule =>
         ids (handle e p w).1 = ids p
         \/ ids (handle e p w).1 = ids p ++ [makeId (minted w)]
     | ClickDelete _ => sublist (ids (handle e p w).1) (ids p)
     | _ => ids (handle e p w).1 = ids p
     end.
Proof.
  intros Hids.
  assert (Hrow : forall k f, Forall (fun id => id <> "") (ids (set_row_inputs k f p))).
  { intros k f. unfold ids. rewrite set_row_inputs_rules. exact Hids. }
  assert (Hsame : forall k f, ids (set_row_inputs k f p) = ids p).
  { intros k f. unfold ids. rewrite set_row_inputs_rules. reflexivity. }
  destruct e as [source target| |k checked|k text|k text|k|text|changes areaName]; simpl.
  - split; [exact Hids|reflexivity].
  - destruct (submit_ids p w) as [Heq|Heq]; rewrite Heq; split; auto.
    apply Forall_app. split; [exact Hids|].
    apply Forall_singleton. apply makeId_not_empty.
  - unfold enabled_change. rewrite update_ids, Hsame; auto.
  - unfold source_input. rewrite update_ids, Hsame; auto.
  - unfold target_input. rewrite update_ids, Hsame; auto.
  - pose proof (delete_ids k p w) as Hsub. split; [|exact Hsub].
    rewrite Forall_forall in Hids |- *. intros id Hin.
    apply Hids. eapply elem_of_sublist; eassumption.
  - unfold ids. rewrite (proj1 (hourlyRate_input_rules text p w)). split; [exact Hids|reflexivity].
  - unfold ids. rewrite onChanged_rules. split; [exact Hids|reflexivity].
Qed.

(** X16. How the listeners treat the ids of the rules. From a list in which
    no id is empty, whatever the user and storage do, no id is ever empty
    afterwards. One event at a time: submitting the form leaves the ids as
    they are or appends the id just minted; a delete click leaves a
    sub-list of them; toggling or editing a row, typing into the form or
    into the hourly-rate field and change notifications leave the list of
    ids exactly as it is, so an edit never re-identifies, duplicates, drops
    or reorders a rule. *)
Theorem listeners_keep_ids (p : Page) :
  Forall (fun id => id <> "") (ids p) ->
  (forall events w, Forall (fun id => id <> "") (ids (run events p w).1))
  /\ (forall w, ids (handle SubmitRule p w).1 = ids p
                \/ ids (handle SubmitRule p w).1 = ids p ++ [makeId (minted w)])
  /\ (forall k w, sublist (ids (handle (ClickDelete k) p w).1) (ids p))
  /\ (forall e w,
        e <> SubmitRule -> (forall k, e <> ClickDelete k) ->
        ids (handle e p w).1 = ids p).
Proof.
  intros Hids. split; [|split; [|split]].
  - intros events. revert p Hids.
    induction events as [|e events IH]; intros p Hids w; simpl; [exact Hids|].
    pose proof (handle_ids e p w Hids) as [Hnext _].
    destruct (handle e p w) as [p1 w1]. apply IH. exact Hnext.
  - intros w. exact (proj2 (handle_ids SubmitRule p w Hids)).
  - intros k w. exact (proj2 (handle_ids (ClickDelete k) p w Hids)).
  - intros e w Hsubmit Hdelete. pose proof (proj2 (handle_ids e p w Hids)) as Hcase.
    destruct e; try exact Hcase; [contradiction|].
    exfalso. eapply Hdelete. reflexivity.
Qed.

(** *** What the page writes *)

Lemma own_writes_refl (budget : nat) (w : World) : own_writes budget w w.
Proof.
  repeat split; auto. exists []. rewrite app_nil_r. repeat split; [simpl; lia|constructor].
Qed.

Lemma own_writes_trans (a b : nat) (w w1 w2 : World) :
  own_writes a w w1 -> own_writes b w1 w2 -> own_writes (a + b) w w2.
Proof.
  intros ((new1 & Hc1 & Hl1 & Hf1) & Ha1 & Hk1 & Hloc1)
         ((new2 & Hc2 & Hl2 & Hf2) & Ha2 & Hk2 & Hloc2).
  split; [|split; [|split]].
  - exists (new1 ++ new2). rewrite Hc2, Hc1, app_assoc. split; [reflexivity|].
    split; [rewrite List.length_app; lia|].
    apply Forall_app. split; [exact Hf1|]. rewrite <- Ha1. exact Hf2.
  - congruence.
  - intros area key H1 H2. rewrite Hk2, Hk1; auto.
  - intros Hsync. rewrite Hloc2, Hloc1; auto. congruence.
Qed.

Lemma own_writes_set_minted (n : nat) (w : World) : own_writes 0 w (set_minted n w).
Proof.
  repeat split; auto. exists []. simpl. rewrite app_nil_r. repeat split; [lia|constructor].
Qed.

Lemma own_writes_renderRules (p : Page) (w : World) : own_writes 0 w (renderRules p w).2.
Proof.
  pose proof (renderRules_frame p w) as (_ & _ & _ & _ & Hs & Hl & Hc).
  split; [|split; [|split]].
  - exists []. rewrite Hc, app_nil_r. repeat split; [simpl; lia|constructor].
  - unfold getStorageArea. rewrite Hs. reflexivity.
  - intros area key _ _. unfold area_contents. rewrite Hs, Hl. reflexivity.
  - intros _. exact Hl.
Qed.

Lemma own_writes_storageSet (key : string) (v : JsVal) (w : World) :
  key = STORAGE_KEY \/ key = SETTINGS_KEY ->
  own_writes 1 w (storageSet {[ key := v ]} w).2.
Proof.
  intros Hkey.
  assert (Hcall : Forall (writes_own_key (getStorageArea w))
                    [CallSet (getStorageArea w) {[ key := v ]}]).
  { apply Forall_singleton. exists v. destruct Hkey as [-> | ->]; auto. }
  unfold storageSet. destruct (next_lastError w); simpl.
  - repeat split; auto. eexists. split; [reflexivity|]. split; [simpl; lia|exact Hcall].
  - split; [|split; [|split]].
    + eexists. split; [reflexivity|]. split; [simpl; lia|exact Hcall].
    + unfold getStorageArea. simpl. destruct (sync_area w); reflexivity.
    + intros area k H1 H2.
      assert (Hk : ({[ key := v ]} : gmap string JsVal) !! k = None).
      { apply lookup_singleton_None. destruct Hkey as [-> | ->]; auto. }
      unfold getStorageArea, area_contents. simpl.
      destruct (sync_area w), area; simpl; try reflexivity;
        rewrite lookup_union_r; auto.
    + unfold getStorageArea. destruct (sync_area w); [reflexivity|discriminate].
Qed.

Lemma own_writes_persistRules (p : Page) (w : World) :
  own_writes 1 w (persistRules p w).2.
Proof. apply own_writes_storageSet. auto. Qed.

Lemma own_writes_persistSettings (p : Page) (w : World) :
  own_writes 1 w (persistSettings p w).2.
Proof. apply own_writes_storageSet. auto. Qed.

Lemma own_writes_update (allow : bool) (k : nat) (p : Page) (w : World) :
  own_writes 1 w (updateRuleFromInputs allow k p w).2.
Proof.
  unfold updateRuleFromInputs.
  destruct (rulesBody p !! k) as [row|]; [|apply own_writes_refl].
  destruct (validateRule (row_draft row) (minted w)) as [validation n].
  cbv beta iota zeta.
  destruct (match validation with RuleInvalid _ _ => negb allow | RuleValid _ => false end);
    [apply (own_writes_trans 0 1 w (set_minted n w));
       [apply own_writes_set_minted|apply own_writes_refl]|].
  destruct (findIndex _ _) as [index|];
    [|apply (own_writes_trans 0 1 w (set_minted n w));
        [apply own_writes_set_minted|apply own_writes_refl]].
  set (p2 := set_rules _ _).
  pose proof (own_writes_persistRules p2 (set_minted n w)) as Hp.
  destruct (persistRules p2 (set_minted n w)) as [[[]|message] w2]; simpl in *;
    apply (own_writes_trans 0 1 w (set_minted n w)); auto using own_writes_set_minted.
Qed.

Lemma own_writes_handle (e : Event) (p : Page) (w : World) :
  own_writes 1 w (handle e p w).2.
Proof.
  destruct e as [source target| |k checked|k text|k text|k|text|changes areaName]; simpl.
  - apply own_writes_refl.
  - unfold addRuleForm_submit.
    destruct (validateRule _ (S (minted w))) as [validation n].
    destruct validation as [se te|normalized];
      [apply (own_writes_trans 0 1 w (set_minted n w));
         [apply own_writes_set_minted|apply own_writes_refl]|].
    set (p1 := set_rules _ p).
    pose proof (own_writes_persistRules p1 (set_minted n w)) as Hp.
    destruct (persistRules p1 (set_minted n w)) as [[[]|message] w2]; simpl in *.
    + pose proof (own_writes_renderRules p1 w2) as Hr.
      destruct (renderRules p1 w2) as [p2 w3]. simpl in *.
      apply (own_writes_trans 0 1 w (set_minted n w)); [apply own_writes_set_minted|].
      apply (own_writes_trans 1 0 _ w2); assumption.
    + apply (own_writes_trans 0 1 w (set_minted n w)); auto using own_writes_set_minted.
  - apply own_writes_update.
  - apply own_writes_update.
  - apply own_writes_update.
  - unfold delete_click. destruct (rulesBody p !! k) as [row|]; [|apply own_writes_refl].
    set (p1 := set_rules _ p).
    pose proof (own_writes_persistRules p1 w) as Hp.
    destruct (persistRules p1 w) as [[[]|message] w1]; simpl in *; [|exact Hp].
    pose proof (own_writes_renderRules p1 w1) as Hr.
    destruct (renderRules p1 w1) as [p2 w2]. simpl in *.
    apply (own_writes_trans 1 0 w w1); assumption.
  - unfold hourlyRate_input. destruct (validateHourlyRate _); [apply own_writes_refl|].
    set (p1 := renderMetricsSummary _).
    pose proof (own_writes_persistSettings p1 w) as Hp.
    destruct (persistSettings p1 w) as [[[]|message] w1]; exact Hp.
  - unfold onChanged.
    set (first := if String.eqb areaName "local" then _ else _).
    assert (Hfirst : own_writes 1 w first.2).
    { subst first. destruct (String.eqb areaName "local"); [|apply own_writes_refl].
      destruct (changes !! METRICS_KEY); [|apply own_writes_refl].
      eapply (own_writes_trans 0 1); [apply own_writes_renderRules|apply own_writes_refl]. }
    destruct first as [p1 w1]. simpl in Hfirst.
    destruct (_ || _); [|exact Hfirst].
    destruct (changes !! SETTINGS_KEY); exact Hfirst.
Qed.

Lemma own_writes_run (events : list Event) (p : Page) (w : World) :
  own_writes (length events) w (run events p w).2.
Proof.
  revert p w. induction events as [|e events IH]; intros p w; simpl.
  - apply own_writes_refl.
  - pose proof (own_writes_handle e p w) as He.
    destruct (handle e p w) as [p1 w1]. simpl in He.
    apply (own_writes_trans 1 (length events) w w1); [exact He|apply IH].
Qed.

(** X17. What the page does to storage once it is loaded. Over any sequence
    of user actions and change notifications the page never reads storage
    and makes at most one call per event, each a write of the rules key or
    of the settings key alone to the area [getStorageArea] gives, which
    stays the same area. Every other key of either area keeps its value, the
    metrics among them; and while the synchronized area exists the local
    area is not written at all. *)
Theorem listeners_write_own_keys (events : list Event) (p : Page) (w : World) :
  (exists new,
     calls (run events p w).2 = calls w ++ new
     /\ length new <= length events
     /\ Forall (fun c => exists v,
                  c = CallSet (getStorageArea w) {[ STORAGE_KEY := v ]}
                  \/ c = CallSet (getStorageArea w) {[ SETTINGS_KEY := v ]}) new)
  /\ getStorageArea (run events p w).2 = getStorageArea w
  /\ (forall a key, key <> STORAGE_KEY -> key <> SETTINGS_KEY ->
        area_contents a (run events p w).2 !! key = area_contents a w !! key)
  /\ local_area (run events p w).2 !! METRICS_KEY = local_area w !! METRICS_KEY
  /\ (is_Some (sync_area w) -> local_area (run events p w).2 = local_area w).
Proof.
  destruct (own_writes_run events p w) as (Hcalls & Harea & Hkeys & Hlocal).
  split; [exact Hcalls|]. split; [exact Harea|]. split; [exact Hkeys|].
  split; [apply (Hkeys LocalArea METRICS_KEY); discriminate|].
  intros [contents Hsync]. apply Hlocal. unfold getStorageArea. rewrite Hsync. reflexivity.
Qed.

(** *** The metrics in memory *)

Lemma normalizeMetrics_well_formed (raw : JsVal) : well_formed (normalizeMetrics raw).
Proof.
  unfold normalizeMetrics, well_formed.
  destruct (negb (truthy raw) || negb (typeof_object raw)); [repeat split|].
  cbv zeta. simpl total_redirects. simpl per_rule. split.
  - destruct (Number_isFinite _) eqn:Hf; [|reflexivity].
    destruct (default JUndefined (get_property raw "total_redirects")); try discriminate.
    exact Hf.
  - destruct (truthy _ && typeof_object _) eqn:Hobj; [|split; reflexivity].
    apply andb_true_iff in Hobj. exact Hobj.
Qed.

Lemma update_metrics (allow : bool) (k : nat) (p : Page) (w : World) :
  metrics (updateRuleFromInputs allow k p w).1 = metrics p.
Proof.
  assert (Herr : forall a b, metrics (setRowErrors k a b p) = metrics p).
  { intros a b. unfold setRowErrors. destruct (rulesBody p !! k); reflexivity. }
  unfold updateRuleFromInputs.
  destruct (rulesBody p !! k) as [row|]; [|reflexivity].
  destruct (validateRule (row_draft row) (minted w)) as [validation n].
  cbv beta iota zeta.
  destruct (match validation with RuleInvalid _ _ => negb allow | RuleValid _ => false end);
    [destruct validation; apply Herr|].
  destruct (findIndex _ _) as [index|]; [|destruct validation; apply Herr].
  destruct (persistRules _ _) as [[[]|message] w2]; destruct validation; apply Herr.
Qed.

Lemma set_row_inputs_metrics (k : nat) (f : Row -> Row) (p : Page) :
  metrics (set_row_inputs k f p) = metrics p.
Proof. unfold set_row_inputs. destruct (rulesBody p !! k); reflexivity. Qed.

Lemma handle_metrics (e : Event) (p : Page) (w : World) :
  metrics (handle e p w).1 = metrics p
  \/ exists raw, metrics (handle e p w).1 = normalizeMetrics raw.
Proof.
  destruct e as [source target| |k checked|k text|k text|k|text|changes areaName]; simpl.
  - left. reflexivity.
  - left. unfold addRuleForm_submit.
    destruct (validateRule _ (S (minted w))) as [validation n].
    destruct validation as [se te|normalized]; [reflexivity|].
    set (p1 := set_rules _ p).
    destruct (persistRules p1 _) as [[[]|message] w2]; [|reflexivity].
    pose proof (renderRules_frame p1 w2) as (_ & Hm & _).
    destruct (renderRules p1 w2) as [p2 w3]. simpl in *. exact Hm.
  - left. unfold enabled_change. rewrite update_metrics. apply set_row_inputs_metrics.
  - left. unfold source_input. rewrite update_metrics. apply set_row_inputs_metrics.
  - left. unfold target_input. rewrite update_metrics. apply set_row_inputs_metrics.
  - left. unfold delete_click. destruct (rulesBody p !! k) as [row|]; [|reflexivity].
    set (p1 := set_rules _ p).
    destruct (persistRules p1 w) as [[[]|message] w1]; [|reflexivity].
    pose proof (renderRules_frame p1 w1) as (_ & Hm & _).
    destruct (renderRules p1 w1) as [p2 w2]. simpl in *. exact Hm.
  - left. apply hourlyRate_input_rules.
  - unfold onChanged.
    set (first := if String.eqb areaName "local" then _ else _).
    assert (Hfirst : metrics first.1 = metrics p
                     \/ exists raw, metrics first.1 = normalizeMetrics raw).
    { subst first. destruct (String.eqb areaName "local"); [|left; reflexivity].
      destruct (changes !! METRICS_KEY) as [change|]; [|left; reflexivity].
      right. exists (newValue change).
      pose proof (renderRules_frame
                    (renderMetricsSummary (set_metrics (normalizeMetrics (newValue change)) p)) w)
        as (_ & Hm & _).
      rewrite Hm. reflexivity. }
    destruct first as [p1 w1]. simpl in Hfirst.
    destruct (_ || _); [|exact Hfirst].
    destruct (changes !! SETTINGS_KEY); exact Hfirst.
Qed.

Lemma run_metrics (events : list Event) (p : Page) (w : World) :
  well_formed (metrics p) -> well_formed (metrics (run events p w).1).
Proof.
  revert p w. induction events as [|e events IH]; intros p w Hp; simpl; [exact Hp|].
  pose proof (handle_metrics e p w) as He.
  destruct (handle e p w) as [p1 w1]. simpl in He. apply IH.
  destruct He as [-> | [raw ->]]; [exact Hp|apply normalizeMetrics_well_formed].
Qed.

(** *** Loading the page *)

Lemma get_from_frame (a : AreaName) (label : string) (keys : list string) (w : World) :
  sync_area (get_from a label keys w).2 = sync_area w
  /\ local_area (get_from a label keys w).2 = local_area w
  /\ calls (get_from a label keys w).2 = calls w ++ [CallGet a keys].
Proof. unfold get_from. destruct (next_lastError w); repeat split. Qed.


Lemma loadMetrics_facts (p : Page) (w : World) :
  sync_area (loadMetrics p w).2 = sync_area w
  /\ local_area (loadMetrics p w).2 = local_area w
  /\ calls (loadMetrics p w).2 = calls w ++ [CallGet LocalArea [METRICS_KEY]]
  /\ rules (loadMetrics p w).1 = rules p
  /\ well_formed (metrics (loadMetrics p w).1)
  /\ rulesBody (loadMetrics p w).1 = shown_row <$> rules p
  /\ formMessage (loadMetrics p w).1 = formMessage p
  /\ newSourceHostnameInput (loadMetrics p w).1 = newSourceHostnameInput p
  /\ newTargetUrlInput (loadMetrics p w).1 = newTargetUrlInput p
  /\ hourlyRateError (loadMetrics p w).1 = hourlyRateError p.
Proof.
  unfold loadMetrics, localStorageGet.
  pose proof (get_from_frame LocalArea "local storage get failed:" [METRICS_KEY] w)
    as (Hs & Hl & Hc).
  destruct (get_from _ _ _ w) as [result w1]. simpl in Hs, Hl, Hc.
  set (p1 := renderMetricsSummary _).
  pose proof (renderRules_frame p1 w1) as (Hr & Hm & _ & _ & Hs' & Hl' & Hc').
  pose proof (renderRules_document p1 w1) as (Hf & Hn1 & Hn2 & _ & He & _).
  pose proof (renderRules_rows p1 w1) as Hrows.
  rewrite Hs', Hl', Hc', Hr, Hm, Hf, Hn1, Hn2, He, Hrows.
  repeat split; auto; apply normalizeMetrics_well_formed.
Qed.



(** X19. The metrics the page keeps are always well formed: whatever is
    stored under the metrics key or arrives in a change notification,
    [normalizeMetrics] gives a finite total and an object of counts, and
    from loading on, over any sequence of user actions and notifications,
    the metrics in memory stay so. *)
Theorem metrics_stay_well_formed :
  (forall raw, well_formed (normalizeMetrics raw))
  /\ (forall w events,
        well_formed (metrics (run events (startup w).1 (startup w).2).1)).
Proof.
  split; [exact normalizeMetrics_well_formed|].
  intros w events. apply run_metrics.
  unfold startup.
  destruct (start_loadRules initial_page w) as [p1 w1].
  pose proof (loadMetrics_facts p1 w1) as (_ & _ & _ & _ & Hm & _).
  destruct (loadMetrics p1 w1) as [p2 w2]. simpl in Hm.
  unfold loadSettings. destruct (storageGet SETTINGS_KEY w2) as [result w3]. exact Hm.
Qed.

(** *** The whole list through storage *)

Lemma loadRules_rows (q q' : Page) (w w' : World) :
  loadRules q w = (Fulfilled tt, q', w') -> rulesBody q' = shown_row <$> rules q'.
Proof.
  unfold loadRules. destruct (storageGet STORAGE_KEY w) as [result w1].
  destruct (load_items _ (minted w1)) as [[rs|] n]; [|discriminate].
  pose proof (renderRules_frame (set_rules rs q) (set_minted n w1)) as (Hr & _).
  pose proof (renderRules_rows (set_rules rs q) (set_minted n w1)) as Hrows.
  destruct (renderRules _ _) as [p' w2]. simpl in *.
  intros Heq. injection Heq as <- <-. rewrite Hrows, Hr. reflexivity.
Qed.

(** X20. The whole list survives storage: when no rule in memory has an
    empty id, writing the list with [persistRules] and reading it back with
    [loadRules] gives the same list, rule for rule and in the same order,
    and a table that shows it. *)
Theorem rules_list_round_trip (p q : Page) (w : World) :
  Forall (fun id => id <> "") (ids p) ->
  calls_succeed 2 w ->
  exists w1 q' w2,
    persistRules p w = (Fulfilled tt, w1)
    /\ loadRules q w1 = (Fulfilled tt, q', w2)
    /\ rules q' = rules p
    /\ rulesBody q' = shown_row <$> rules p.
Proof.
  intros Hids Hok.
  destruct (persist_then_load p q w Hok) as (w1 & q' & w2 & Hp & Hl & Hlen & Hrs).
  assert (Heq : rules q' = rules p).
  { apply list_eq. intros i. destruct (rules p !! i) as [r|] eqn:Hi.
    - apply Hrs; [exact Hi|]. unfold ids in Hids. rewrite Forall_fmap in Hids.
      exact (Forall_lookup_1 _ _ _ _ Hids Hi).
    - apply lookup_ge_None. apply lookup_ge_None in Hi. lia. }
  exists w1, q', w2. repeat split; auto.
  rewrite <- Heq. eapply loadRules_rows. eassumption.
Qed.

End Session.

Lemma listeners_keep_ids_witness :
  Forall (fun id => id <> "")
    (ids (@run Reference.browser
            [TypeNewRule "news.example.com" "https://focus.example.org/";
             SubmitRule; ToggleEnabled 0 false; ClickDelete 1]
            Reference.page1 Reference.world).1).
Proof.
  apply (@listeners_keep_ids Reference.browser Reference.page1).
  constructor; [discriminate|constructor].
Defined.

Lemma rules_list_round_trip_witness :
  exists w1 q' w2,
    persistRules (set_rules [Reference.rule1] initial_page) Reference.world
    = (Fulfilled tt, w1)
    /\ @loadRules Reference.browser initial_page w1 = (Fulfilled tt, q', w2)
    /\ rules q' = [Reference.rule1]
    /\ rulesBody q' = @shown_row Reference.browser <$> [Reference.rule1].
Proof.
  apply (@rules_list_round_trip Reference.browser
           (set_rules [Reference.rule1] initial_page) initial_page Reference.world).
  - constructor; [discriminate|constructor].
  - constructor.
Defined.

(** ** Rows that outlive their rule *)

Section DeadRows.
Context `{B : Browser}.

(** X21. A delete whose write fails leaves a dead row behind. The rule is
    gone from the list in memory although storage still holds it, and the
    table is not rebuilt, so the row stays on screen; from then on its
    checkbox and its two fields do nothing to the list or to storage,
    whatever is typed, because no rule carries the row's id any more. *)
Theorem failed_delete_leaves_dead_row
    (k : nat) (row : Row) (message : string) (p : Page) (w : World) :
  rulesBody p !! k = Some row ->
  next_lastError w = Some message ->
  rulesBody (delete_click k p w).1 = rulesBody p
  /\ Forall (fun r => rule_id r <> rule_id (row_rule row)) (rules (delete_click k p w).1)
  /\ areas (delete_click k p w).2 = areas w
  /\ (forall checked w',
        rules (enabled_change k checked (delete_click k p w).1 w').1
        = rules (delete_click k p w).1
        /\ areas (enabled_change k checked (delete_click k p w).1 w').2 = areas w'
        /\ calls (enabled_change k checked (delete_click k p w).1 w').2 = calls w')
  /\ (forall text w',
        rules (source_input k text (delete_click k p w).1 w').1
        = rules (delete_click k p w).1
        /\ areas (source_input k text (delete_click k p w).1 w').2 = areas w'
        /\ calls (source_input k text (delete_click k p w).1 w').2 = calls w')
  /\ (forall text w',
        rules (target_input k text (delete_click k p w).1 w').1
        = rules (delete_click k p w).1
        /\ areas (target_input k text (delete_click k p w).1 w').2 = areas w'
        /\ calls (target_input k text (delete_click k p w).1 w').2 = calls w').
Proof.
  intros Hk Herr.
  set (kept := filter (fun item => rule_id item <> rule_id (row_rule row)) (rules p)).
  assert (Hkept : Forall (fun r => rule_id r <> rule_id (row_rule row)) kept).
  { apply Forall_forall. intros r Hin. subst kept.
    apply list_elem_of_filter in Hin. tauto. }
  assert (Hdel : exists w1,
             delete_click k p w
             = (showFormMessage ("Failed to delete rule: " +:+ message) (Some "error")
                  (set_rules kept p), w1)
             /\ areas w1 = areas w).
  { unfold delete_click. rewrite Hk. fold kept.
    destruct (storageSet_failure {[STORAGE_KEY := JArr (List.map rule_to_js kept)]}
                w message Herr) as (w1 & Hset & Ha & _).
    unfold persistRules. change (rules (set_rules kept p)) with kept.
    rewrite Hset. eauto. }
  destruct Hdel as (w1 & -> & Hareas). cbn [fst snd].
  set (p' := showFormMessage _ _ _).
  assert (Hrow : rulesBody p' !! k = Some row) by exact Hk.
  assert (Hedit : forall f allow w',
             row_rule (f row) = row_rule row ->
             rules (updateRuleFromInputs allow k (set_row_inputs k f p') w').1 = rules p'
             /\ areas (updateRuleFromInputs allow k (set_row_inputs k f p') w').2 = areas w'
             /\ calls (updateRuleFromInputs allow k (set_row_inputs k f p') w').2 = calls w').
  { intros f allow w' Hf.
    destruct (set_row_inputs_lookup k f p' row Hrow) as [Hrow' Hrules].
    rewrite <- Hrules. apply (update_no_index allow k (f row)); [exact Hrow'|].
    rewrite Hrules, Hf. exact Hkept. }
  split; [reflexivity|]. split; [exact Hkept|]. split; [exact Hareas|].
  split; [|split].
  - intros checked w'. apply (Hedit (with_enabled checked)). reflexivity.
  - intros text w'. apply (Hedit (with_source text)). reflexivity.
  - intros text w'. apply (Hedit (with_target text)). reflexivity.
Qed.

End DeadRows.

Lemma failed_delete_leaves_dead_row_witness :
  rulesBody
    (@delete_click Reference.browser 0 Reference.page1
       {| sync_area := Some ∅; local_area := ∅; lastErrors := [Some "QUOTA_BYTES exceeded"];
          minted := 0; console := []; calls := [] |}).1
  = [Reference.row1]
  /\ rules
       (@delete_click Reference.browser 0 Reference.page1
          {| sync_area := Some ∅; local_area := ∅;
             lastErrors := [Some "QUOTA_BYTES exceeded"];
             minted := 0; console := []; calls := [] |}).1
     = [].
Proof.
  destruct (@failed_delete_leaves_dead_row Reference.browser 0 Reference.row1
              "QUOTA_BYTES exceeded" Reference.page1
              {| sync_area := Some ∅; local_area := ∅;
                 lastErrors := [Some "QUOTA_BYTES exceeded"];
                 minted := 0; console := []; calls := [] |} eq_refl eq_refl)
    as (Hrows & _).
  split; [exact Hrows|reflexivity].
Defined.
